(** * nmproxy/router/iptables.go: the routing-rule manager

    A shallow embedding of the iptables manager of the netclient proxy
    (package [router]) and the properties of its rule bookkeeping.

    The manager drives two go-iptables clients (IPv4 and IPv6) and keeps an
    in-memory table [ingRules : server -> client key -> rulesCfg] of the rules
    it installed.  Go maps become [gmap]s, a nil map is [None], an [error] is
    [option string] (its message), and every method is a state transformer on
    the manager.  The go-iptables clients are an interface here: every call is
    appended to a log and answered by an arbitrary backend. *)

From stdpp Require Import base strings gmap list.

Local Open Scope string_scope.

(** ** Data model *)

(** [type ruleInfo struct { rule []string; table string; chain string }] *)
Record ruleInfo := RuleInfo {
  rule : list string;
  table : string;
  chain : string;
}.

#[export] Instance ruleInfo_eq_dec : EqDecision ruleInfo.
Proof. solve_decision. Defined.

(** The declarations of [rulesCfg], [ruletable] and [serverrulestable] are in
    another file of the package; their shape is fixed by the uses in
    iptables.go: [rulesCfg{isIpv4: ..., rulesMap: make(map[string][]ruleInfo)}],
    [ruleTable[key] = rulesCfg{...}] and [i.ingRules[server] = rules].
    [rulesMap = None] is the nil map of a zero-value [rulesCfg]. *)
Record rulesCfg := RulesCfg {
  isIpv4 : bool;
  rulesMap : option (gmap string (list ruleInfo));
}.

#[export] Instance rulesCfg_eq_dec : EqDecision rulesCfg.
Proof. solve_decision. Defined.

Abbreviation ruletable := (gmap string rulesCfg).
Abbreviation serverrulestable := (gmap string ruletable).

(** The zero value that [ruleTable[key]] yields for a missing key. *)
Definition zeroRulesCfg : rulesCfg := RulesCfg false None.

(** A Go [error]: [None] is nil, [Some msg] carries [err.Error()]. *)
Abbreviation error := (option string).

(** How a call ends: it returns its [error], or it panics. *)
Inductive outcome :=
| Returned (e : error)
| Panicked (msg : string).

#[export] Instance outcome_eq_dec : EqDecision outcome.
Proof. solve_decision. Defined.

(** constants needed to manage and create iptable rules *)
Definition ipv6 := "ipv6".
Definition ipv4 := "ipv4".
Definition defaultIpTable := "filter".
Definition netmakerFilterChain := "netmakerfilter".
Definition defaultNatTable := "nat".
Definition netmakerNatChain := "netmakernat".
Definition iptableFWDChain := "FORWARD".
Definition nattablePRTChain := "POSTROUTING".

(** ** The go-iptables interface

    [iptables.IPTables] is an external library.  The manager uses six of its
    methods; a [call] is one invocation, on the client of one protocol. *)
Module IPT.

Inductive Protocol := ProtocolIPv4 | ProtocolIPv6.

Inductive call :=
| ListChains (proto : Protocol) (table : string)
| NewChain (proto : Protocol) (table chain : string)
| Append (proto : Protocol) (table chain : string) (rulespec : list string)
| Insert (proto : Protocol) (table chain : string) (pos : nat) (rulespec : list string)
| DeleteIfExists (proto : Protocol) (table chain : string) (rulespec : list string)
| ClearAndDeleteChain (proto : Protocol) (table chain : string).

(** What a call answers: the chains listed (for [ListChains]) and the error. *)
Record reply := Reply {
  chains : list string;
  err : error;
}.

Definition ok : reply := Reply [] None.

Definition is_delete (c : call) : bool :=
  match c with DeleteIfExists _ _ _ _ => true | _ => false end.

Definition is_insert (c : call) : bool :=
  match c with Insert _ _ _ _ _ => true | _ => false end.

End IPT.

#[export] Instance Protocol_eq_dec : EqDecision IPT.Protocol.
Proof. solve_decision. Defined.

#[export] Instance call_eq_dec : EqDecision IPT.call.
Proof. solve_decision. Defined.

(** The firewall engine behind the two clients: a state and the effect and
    answer of every call. *)
Class Actuator := {
  firewall : Type;
  act : IPT.call → firewall → IPT.reply * firewall;
}.

(** [net.IPNet] with its [String] method, and [netip.ParsePrefix] with
    [prefix.Addr().Unmap().Is6()]: standard-library code, kept abstract.
    [ParsePrefix] answers a prefix or the message of its error. *)
Class Netip := {
  IPNet : Type;
  IPNet_String : IPNet → string;
  Prefix : Type;
  ParsePrefix : string → Prefix + string;
  Unmap_Is6 : Prefix → bool;
}.

(** What the file takes from the rest of the repository: the name of the
    ingress rule table (a constant of package [router]) and
    [ncutils.GetInterfaceName()]. *)
Class Settings := {
  ingressTable : string;
  GetInterfaceName : string;
}.

(** Go leaves the order of a [range] over a map unspecified: the order is a
    parameter, any enumeration of the map's entries. *)
Class MapRange := {
  range : gmap string (list ruleInfo) → list (string * list ruleInfo);
  range_perm : ∀ m, range m ≡ₚ map_to_list m;
}.

(** [models.PeerExtInfo] and [models.ExtClientInfo] (netmaker), with the
    fields iptables.go reads.  [Peers] is ranged over in order. *)
Record PeerExtInfo `{Netip} := MkPeerExtInfo {
  PeerAddr : IPNet;
  PeerKey : string;
  Allow : bool;
}.

Record ExtClientInfo `{Netip} := MkExtClientInfo {
  Masquerade : bool;
  ExtPeerAddr : IPNet;
  ExtPeerKey : string;
  Peers : list PeerExtInfo;
}.

Arguments MkPeerExtInfo {_} _ _ _.
Arguments MkExtClientInfo {_} _ _ _ _.

(** [type iptablesManager struct]: the two clients are the two protocols of
    one [Actuator]; [calls] logs every client call in order.  [ctx], [stop]
    and [defaultRules] are never used by the methods; [mux] serialises the
    methods, each of which is one transformer here. *)
Record iptablesManager `{Actuator} := Manager {
  backend : firewall;
  calls : list IPT.call;
  ingRules : serverrulestable;
}.

Arguments Manager {_} _ _ _.

Definition ipv4Client : IPT.Protocol := IPT.ProtocolIPv4.
Definition ipv6Client : IPT.Protocol := IPT.ProtocolIPv6.

Definition iptablesProtoToString (proto : IPT.Protocol) : string :=
  match proto with
  | IPT.ProtocolIPv6 => ipv6
  | IPT.ProtocolIPv4 => ipv4
  end.

(** [fmt]'s [%v] of a [[]string]. *)
Definition fmt_strings (l : list string) : string :=
  "[" +:+ String.concat " " l +:+ "]".

(** ** The state monad of the manager's methods *)

Definition M `{Actuator} (A : Type) : Type :=
  iptablesManager → A * iptablesManager.

#[export] Instance M_ret `{Actuator} : MRet M := λ A x i, (x, i).
#[export] Instance M_bind `{Actuator} : MBind M :=
  λ A B f m i, let '(a, i') := m i in f a i'.

(** One call of a client: logged, then answered by the backend. *)
Definition invoke `{Actuator} (c : IPT.call) : M IPT.reply := λ i,
  let '(r, w) := act c (backend i) in
  (r, Manager w (calls i ++ [c])%list (ingRules i)).

(** [for _, x := range l { body x }] for a body that cannot leave the loop. *)
Fixpoint for_each `{Actuator} {A} (l : list A) (body : A → M unit) : M unit :=
  match l with
  | [] => mret ()
  | x :: l' => _ ← body x; for_each l' body
  end.

Section Manager.
Context `{Actuator, Netip, Settings, MapRange}.

(** filter table netmaker jump rule *)
Definition filterNmJumpRules : list ruleInfo := [
  RuleInfo ["-i"; GetInterfaceName; "-j"; netmakerFilterChain] defaultIpTable iptableFWDChain;
  RuleInfo ["-i"; GetInterfaceName; "-j"; "DROP"] defaultIpTable netmakerFilterChain;
  RuleInfo ["-i"; GetInterfaceName; "-j"; "RETURN"] defaultIpTable netmakerFilterChain
].

Definition natNmJumpRules : list ruleInfo := [
  RuleInfo ["-o"; GetInterfaceName; "-j"; netmakerNatChain] defaultNatTable nattablePRTChain;
  RuleInfo ["-j"; "RETURN"] defaultNatTable netmakerNatChain
].

Definition createChain (iptables : IPT.Protocol) (table newChain : string) : M error :=
  r ← invoke (IPT.ListChains iptables table);
  match IPT.err r with
  | Some e =>
      mret (Some ("couldn't get " +:+ iptablesProtoToString iptables +:+ " "
                  +:+ table +:+ " table chains, error: " +:+ e))
  | None =>
      let shouldCreateChain :=
        foldl (λ b chain, if decide (chain = newChain) then false else b)
              true (IPT.chains r) in
      if shouldCreateChain then
        r' ← invoke (IPT.NewChain iptables table newChain);
        match IPT.err r' with
        | Some e =>
            mret (Some ("couldn't create " +:+ iptablesProtoToString iptables
                        +:+ " chain " +:+ newChain +:+ " in " +:+ table
                        +:+ " table, error: " +:+ e))
        | None => mret None
        end
      else mret None
  end.

(** Failures of [Append] and of [DeleteIfExists] on jump rules are logged
    only. *)
Definition addJumpRules : M unit :=
  _ ← for_each filterNmJumpRules (λ r,
        _ ← invoke (IPT.Append ipv4Client (table r) (chain r) (rule r));
        _ ← invoke (IPT.Append ipv6Client (table r) (chain r) (rule r));
        mret ());
  for_each natNmJumpRules (λ r,
        _ ← invoke (IPT.Append ipv4Client (table r) (chain r) (rule r));
        _ ← invoke (IPT.Append ipv6Client (table r) (chain r) (rule r));
        mret ()).

Definition removeJumpRules : M unit :=
  _ ← for_each filterNmJumpRules (λ r,
        _ ← invoke (IPT.DeleteIfExists ipv4Client (table r) (chain r) (rule r));
        _ ← invoke (IPT.DeleteIfExists ipv6Client (table r) (chain r) (rule r));
        mret ());
  for_each natNmJumpRules (λ r,
        _ ← invoke (IPT.DeleteIfExists ipv4Client (table r) (chain r) (rule r));
        _ ← invoke (IPT.DeleteIfExists ipv6Client (table r) (chain r) (rule r));
        mret ()).

Definition cleanup (table chain : string) : M unit :=
  _ ← invoke (IPT.ClearAndDeleteChain ipv4Client table chain);
  _ ← invoke (IPT.ClearAndDeleteChain ipv6Client table chain);
  mret ().

(** CreateChains - creates default chains and rules *)
Definition CreateChains : M error :=
  _ ← removeJumpRules;
  _ ← cleanup defaultIpTable netmakerFilterChain;
  _ ← cleanup defaultNatTable netmakerNatChain;
  err ← createChain ipv4Client defaultIpTable netmakerFilterChain;
  if err is Some _ then mret err else
  err ← createChain ipv4Client defaultNatTable netmakerNatChain;
  if err is Some _ then mret err else
  err ← createChain ipv6Client defaultIpTable netmakerFilterChain;
  if err is Some _ then mret err else
  err ← createChain ipv6Client defaultNatTable netmakerNatChain;
  if err is Some _ then mret err else
  _ ← addJumpRules;
  mret None.

Definition FlushAll : M unit :=
  _ ← removeJumpRules;
  _ ← cleanup defaultIpTable netmakerFilterChain;
  cleanup defaultNatTable netmakerNatChain.

(** [FetchRuleTable]: the server's table, a fresh empty one when the server
    has none.  For another table name the result is the nil map, which reads
    like the empty one; no method writes to it. *)
Definition FetchRuleTable (server tableName : string) : M ruletable := λ i,
  (if decide (tableName = ingressTable)
   then default ∅ (ingRules i !! server)
   else ∅, i).

Definition SaveRules (server tableName : string) (rules : ruletable) : M unit := λ i,
  ((), if decide (tableName = ingressTable)
       then Manager (backend i) (calls i) (<[server := rules]> (ingRules i))
       else i).

(** The inner loop of the two removal methods:
    [for _, rule := range rules { err := client.DeleteIfExists(...);
    if err != nil { return fmt.Errorf(...) } }]. *)
Fixpoint deleteRules (iptablesClient : IPT.Protocol) (peerKey : string)
    (rules : list ruleInfo) : M error :=
  match rules with
  | [] => mret None
  | r :: rest =>
      a ← invoke (IPT.DeleteIfExists iptablesClient (table r) (chain r) (rule r));
      match IPT.err a with
      | Some e =>
          mret (Some ("iptables: error while removing existing " +:+ table r
                      +:+ " rules [" +:+ fmt_strings (rule r) +:+ "] for "
                      +:+ peerKey +:+ ": " +:+ e))
      | None => deleteRules iptablesClient peerKey rest
      end
  end.

(** The outer loop of [RemoveRoutingRules]:
    [for _, rules := range rulesTable[peerKey].rulesMap { ... }]. *)
Fixpoint deleteGroups (iptablesClient : IPT.Protocol) (peerKey : string)
    (groups : list (string * list ruleInfo)) : M error :=
  match groups with
  | [] => mret None
  | (_, rules) :: rest =>
      err ← deleteRules iptablesClient peerKey rules;
      if err is Some _ then mret err
      else deleteGroups iptablesClient peerKey rest
  end.

Definition acceptRule (ruleSpec : list string) : ruleInfo :=
  RuleInfo ruleSpec defaultIpTable netmakerFilterChain.

Definition masqueradeRule (ruleSpec : list string) : ruleInfo :=
  RuleInfo ruleSpec defaultNatTable netmakerNatChain.

(** [AddIngressRoutingRule].  The write
    [ruleTable[extPeerKey].rulesMap[peerInfo.PeerKey] = ...] goes to the map
    of the client's entry; for a missing client that is the nil map of the
    zero value and the write panics.  The deferred [SaveRules] runs on every
    way out, the panic included. *)
Definition AddIngressRoutingRule (server extPeerKey : string)
    (peerInfo : PeerExtInfo) : M outcome :=
  ruleTable ← FetchRuleTable server ingressTable;
  '(res, ruleTable) ←
    match ParsePrefix (IPNet_String (PeerAddr peerInfo)) with
    | inr e => mret (Returned (Some e), ruleTable)
    | inl prefix =>
        let iptablesClient :=
          if Unmap_Is6 prefix then ipv6Client else ipv4Client in
        let ruleSpec := ["-d"; IPNet_String (PeerAddr peerInfo); "-j"; "ACCEPT"] in
        _ ← invoke (IPT.Insert iptablesClient defaultIpTable netmakerFilterChain 1 ruleSpec);
        let cfg := default zeroRulesCfg (ruleTable !! extPeerKey) in
        match rulesMap cfg with
        | None => mret (Panicked "assignment to entry in nil map", ruleTable)
        | Some m =>
            mret (Returned None,
                  <[extPeerKey :=
                      RulesCfg (isIpv4 cfg)
                        (Some (<[PeerKey peerInfo := [acceptRule ruleSpec]]> m))]>
                    ruleTable)
        end
    end;
  _ ← SaveRules server ingressTable ruleTable;
  mret res.

(** The loop of [InsertIngressRoutingRules] over [extinfo.Peers], on the
    fresh [rulesMap] of the client's entry. *)
Fixpoint insertPeerRules (iptablesClient : IPT.Protocol) (extPeerAddr : string)
    (peers : list PeerExtInfo) (rulesMap : gmap string (list ruleInfo))
    : M (gmap string (list ruleInfo)) :=
  match peers with
  | [] => mret rulesMap
  | peerInfo :: rest =>
      if negb (Allow peerInfo) then
        insertPeerRules iptablesClient extPeerAddr rest rulesMap
      else
        let ruleSpec :=
          ["-s"; extPeerAddr; "-d"; IPNet_String (PeerAddr peerInfo); "-j"; "ACCEPT"] in
        _ ← invoke (IPT.Insert iptablesClient defaultIpTable netmakerFilterChain 1 ruleSpec);
        insertPeerRules iptablesClient extPeerAddr rest
          (<[PeerKey peerInfo := [acceptRule ruleSpec]]> rulesMap)
  end.

(** InsertIngressRoutingRules inserts an iptables rule pair to the netmaker
    chain and if enabled, to the nat chain *)
Definition InsertIngressRoutingRules (server : string)
    (extinfo : ExtClientInfo) : M error :=
  ruleTable ← FetchRuleTable server ingressTable;
  '(res, ruleTable) ←
    match ParsePrefix (IPNet_String (ExtPeerAddr extinfo)) with
    | inr e => mret (Some e, ruleTable)
    | inl prefix =>
        let isIpv4 := negb (Unmap_Is6 prefix) in
        let iptablesClient :=
          if Unmap_Is6 prefix then ipv6Client else ipv4Client in
        let addr := IPNet_String (ExtPeerAddr extinfo) in
        rulesMap ← insertPeerRules iptablesClient addr (Peers extinfo) ∅;
        if negb (Masquerade extinfo) then
          mret (None, <[ExtPeerKey extinfo := RulesCfg isIpv4 (Some rulesMap)]> ruleTable)
        else
          let ruleSpec := ["-s"; addr; "-o"; "netmaker"; "-j"; "MASQUERADE"] in
          _ ← invoke (IPT.Insert iptablesClient defaultNatTable netmakerNatChain 1 ruleSpec);
          let routes : list ruleInfo := default [] (rulesMap !! ExtPeerKey extinfo) in
          let routes := (routes ++ [masqueradeRule ruleSpec])%list in
          let ruleSpec := ["-d"; addr; "-o"; "netmaker"; "-j"; "MASQUERADE"] in
          _ ← invoke (IPT.Insert iptablesClient defaultNatTable netmakerNatChain 1 ruleSpec);
          let routes := (routes ++ [masqueradeRule ruleSpec])%list in
          mret (None,
                <[ExtPeerKey extinfo :=
                    RulesCfg isIpv4 (Some (<[ExtPeerKey extinfo := routes]> rulesMap))]>
                  ruleTable)
    end;
  _ ← SaveRules server ingressTable ruleTable;
  mret res.

(** RemoveRoutingRules removes an iptables rule pair from forwarding and nat
    chains *)
Definition RemoveRoutingRules (server ruletableName peerKey : string) : M error :=
  rulesTable ← FetchRuleTable server ruletableName;
  '(res, rulesTable) ←
    match rulesTable !! peerKey with
    | None => mret (Some ("peer not found in rule table: " +:+ peerKey), rulesTable)
    | Some cfg =>
        let iptablesClient := if isIpv4 cfg then ipv4Client else ipv6Client in
        err ← deleteGroups iptablesClient peerKey (range (default ∅ (rulesMap cfg)));
        if err is Some _ then mret (err, rulesTable)
        else mret (None, delete peerKey rulesTable)
    end;
  _ ← SaveRules server ruletableName rulesTable;
  mret res.

(** [DeleteRoutingRule]: the rules of one pairing. *)
Definition DeleteRoutingRule (server ruletableName srcPeerKey dstPeerKey : string)
    : M error :=
  rulesTable ← FetchRuleTable server ruletableName;
  res ←
    match rulesTable !! srcPeerKey with
    | None => mret (Some ("peer not found in rule table: " +:+ srcPeerKey))
    | Some cfg =>
        let iptablesClient := if isIpv4 cfg then ipv4Client else ipv6Client in
        match default ∅ (rulesMap cfg) !! dstPeerKey with
        | Some rules => deleteRules iptablesClient srcPeerKey rules
        | None => mret (Some ("rules not found for: " +:+ dstPeerKey))
        end
    end;
  _ ← SaveRules server ruletableName rulesTable;
  mret res.

End Manager.

(** ** What the claims speak about *)

Section Observations.
Context `{Actuator, Netip, Settings}.

(** The client entries of a server, as [FetchRuleTable] reads them. *)
Definition clientsOf (server : string) (i : iptablesManager) : ruletable :=
  default ∅ (ingRules i !! server).

(** The Rule Group recorded for [peerKey] under the entry of [clientKey]. *)
Definition groupOf (server clientKey peerKey : string) (i : iptablesManager)
    : option (list ruleInfo) :=
  cfg ← clientsOf server i !! clientKey;
  m ← rulesMap cfg;
  m !! peerKey.

(** The address arguments of a rule: what follows [-s] or [-d]. *)
Fixpoint addressArgs (ruleSpec : list string) : list string :=
  match ruleSpec with
  | [] => []
  | flag :: rest =>
      (if bool_decide (flag = "-s" ∨ flag = "-d") then take 1 rest else [])
      ++ addressArgs rest
  end%list.

(** The address is a prefix of the family that the flag [isIpv4] names. *)
Definition ofFamily (isIpv4 : bool) (addr : string) : Prop :=
  match ParsePrefix addr with
  | inl prefix => negb (Unmap_Is6 prefix) = isIpv4
  | inr _ => False
  end.

(** Every rule of every entry carries addresses of the family of the entry. *)
Definition familyConsistent (i : iptablesManager) : Prop :=
  ∀ server clientKey cfg m peerKey rules r addr,
    clientsOf server i !! clientKey = Some cfg →
    rulesMap cfg = Some m →
    m !! peerKey = Some rules →
    r ∈ rules →
    addr ∈ addressArgs (rule r) →
    ofFamily (isIpv4 cfg) addr.

(** The client that a call goes to. *)
Definition protoOf (c : IPT.call) : IPT.Protocol :=
  match c with
  | IPT.ListChains p _ | IPT.NewChain p _ _ | IPT.Append p _ _ _
  | IPT.Insert p _ _ _ _ | IPT.DeleteIfExists p _ _ _
  | IPT.ClearAndDeleteChain p _ _ => p
  end.

(** The removal call of a recorded rule. *)
Definition deleteCall (iptablesClient : IPT.Protocol) (r : ruleInfo) : IPT.call :=
  IPT.DeleteIfExists iptablesClient (table r) (chain r) (rule r).

(** The calls of [removeJumpRules] and of the two [cleanup]s, in order. *)
Definition removeJumpCalls : list IPT.call :=
  flat_map (λ r, [deleteCall ipv4Client r; deleteCall ipv6Client r])
    (filterNmJumpRules ++ natNmJumpRules)%list.

Definition cleanupCalls : list IPT.call := [
  IPT.ClearAndDeleteChain ipv4Client defaultIpTable netmakerFilterChain;
  IPT.ClearAndDeleteChain ipv6Client defaultIpTable netmakerFilterChain;
  IPT.ClearAndDeleteChain ipv4Client defaultNatTable netmakerNatChain;
  IPT.ClearAndDeleteChain ipv6Client defaultNatTable netmakerNatChain
].

(** The calls of [InsertIngressRoutingRules] for a client of protocol
    [iptablesClient]: one per allowed peer, then the two NAT rules. *)
Definition peerInsertCalls (iptablesClient : IPT.Protocol) (extinfo : ExtClientInfo)
    : list IPT.call :=
  map (λ peerInfo,
         IPT.Insert iptablesClient defaultIpTable netmakerFilterChain 1
           ["-s"; IPNet_String (ExtPeerAddr extinfo);
            "-d"; IPNet_String (PeerAddr peerInfo); "-j"; "ACCEPT"])
      (filter (λ peerInfo, Allow peerInfo = true) (Peers extinfo)).

Definition natInsertCalls (iptablesClient : IPT.Protocol) (extinfo : ExtClientInfo)
    : list IPT.call :=
  if Masquerade extinfo then
    [IPT.Insert iptablesClient defaultNatTable netmakerNatChain 1
       ["-s"; IPNet_String (ExtPeerAddr extinfo); "-o"; "netmaker"; "-j"; "MASQUERADE"];
     IPT.Insert iptablesClient defaultNatTable netmakerNatChain 1
       ["-d"; IPNet_String (ExtPeerAddr extinfo); "-o"; "netmaker"; "-j"; "MASQUERADE"]]
  else [].

(** The groups that the loop of [InsertIngressRoutingRules] leaves in the
    [rulesMap] it started from: one accept rule under the key of every
    allowed peer, a later peer replacing an earlier one of the same key. *)
Fixpoint recordedPeers (extPeerAddr : string) (peers : list PeerExtInfo)
    (m : gmap string (list ruleInfo)) : gmap string (list ruleInfo) :=
  match peers with
  | [] => m
  | peerInfo :: rest =>
      if Allow peerInfo then
        recordedPeers extPeerAddr rest
          (<[PeerKey peerInfo :=
               [acceptRule ["-s"; extPeerAddr; "-d";
                            IPNet_String (PeerAddr peerInfo); "-j"; "ACCEPT"]]]> m)
      else recordedPeers extPeerAddr rest m
  end.

(** The [rulesMap] of the client's entry after [InsertIngressRoutingRules]. *)
Definition recordedGroups (extinfo : ExtClientInfo) : gmap string (list ruleInfo) :=
  let addr := IPNet_String (ExtPeerAddr extinfo) in
  let m := recordedPeers addr (Peers extinfo) ∅ in
  if Masquerade extinfo then
    <[ExtPeerKey extinfo :=
        (default [] (m !! ExtPeerKey extinfo)
         ++ [masqueradeRule ["-s"; addr; "-o"; "netmaker"; "-j"; "MASQUERADE"];
             masqueradeRule ["-d"; addr; "-o"; "netmaker"; "-j"; "MASQUERADE"]])%list]> m
  else m.

(** The client that [InsertIngressRoutingRules] and [AddIngressRoutingRule]
    choose for a parsed prefix. *)
Definition clientFor (prefix : Prefix) : IPT.Protocol :=
  if Unmap_Is6 prefix then ipv6Client else ipv4Client.

(** From [i] to [i'] no client call was made and the client entries of every
    server are the same; the table differs at most by the entry of [server],
    written back as it was fetched. *)
Definition onlyWrittenBack (server : string) (i i' : iptablesManager) : Prop :=
  calls i' = calls i ∧
  backend i' = backend i ∧
  (∀ s, clientsOf s i' = clientsOf s i) ∧
  ingRules i' = <[server := clientsOf server i]> (ingRules i).

(** The rules recorded in a [rulesMap], in the order of a [range] over it. *)
Definition rulesInRange `{MapRange} (m : gmap string (list ruleInfo)) : list ruleInfo :=
  concat (range m).*2.

(** [i'] has made the calls of [i] and possibly more. *)
Definition extends (i i' : iptablesManager) : Prop :=
  ∃ more, calls i' = (calls i ++ more)%list.

(** The firewall after a sequence of calls. *)
Definition execAll (cs : list IPT.call) (w : firewall) : firewall :=
  foldl (λ w c, (act c w).2) w cs.

(** [m] makes exactly the calls [cs], in this order and whatever their
    answers, and does not touch the rule table. *)
Definition makesCalls {A} (m : M A) (cs : list IPT.call) : Prop :=
  ∀ i, calls (m i).2 = (calls i ++ cs)%list ∧
       backend (m i).2 = execAll cs (backend i) ∧
       ingRules (m i).2 = ingRules i.

(** The calls of [addJumpRules], in order. *)
Definition appendJumpCalls : list IPT.call :=
  flat_map (λ r, [IPT.Append ipv4Client (table r) (chain r) (rule r);
                  IPT.Append ipv6Client (table r) (chain r) (rule r)])
    (filterNmJumpRules ++ natNmJumpRules)%list.

(** The backend answers every removal call without an error. *)
Definition removalsSucceed : Prop :=
  ∀ c w, IPT.is_delete c = true → IPT.err (act c w).1 = None.

End Observations.

(** ** A model of the firewall engine

    The netfilter tables as go-iptables drives them, per protocol: a chain is
    a list of rule specifications, found under its table and name.
    - [ListChains] lists the chains of a table.
    - [NewChain] ([-N]) fails on a chain that exists.
    - [Append] ([-A]) and [Insert] ([-I pos]) add the rule as it is, whether
      or not the chain holds an equal one, and fail on a missing chain.
    - [DeleteIfExists] removes the first rule equal to the given one ([-C]
      then [-D]) and answers no error when there is none.
    - [ClearAndDeleteChain] does nothing on a missing chain; otherwise it
      flushes the chain ([-F]) and deletes it ([-X]), which fails while a
      rule of the table still jumps to it. *)
Module Netfilter.

Abbreviation chains := (gmap (string * string) (list (list string))).

Record state := State {
  v4 : chains;
  v6 : chains;
}.

#[export] Instance state_eq_dec : EqDecision state.
Proof. solve_decision. Defined.

Definition sel (proto : IPT.Protocol) (s : state) : chains :=
  match proto with
  | IPT.ProtocolIPv4 => v4 s
  | IPT.ProtocolIPv6 => v6 s
  end.

Definition upd (proto : IPT.Protocol) (cs : chains) (s : state) : state :=
  match proto with
  | IPT.ProtocolIPv4 => State cs (v6 s)
  | IPT.ProtocolIPv6 => State (v4 s) cs
  end.

Fixpoint delete_first (r : list string) (l : list (list string)) : list (list string) :=
  match l with
  | [] => []
  | x :: l' => if decide (x = r) then l' else x :: delete_first r l'
  end.

Fixpoint jumps_to (target : string) (ruleSpec : list string) : bool :=
  match ruleSpec with
  | [] => false
  | flag :: rest =>
      (bool_decide (flag = "-j") && bool_decide (head rest = Some target))
      || jumps_to target rest
  end.

Definition referenced (table chain : string) (cs : chains) : bool :=
  existsb (λ kv, bool_decide (kv.1.1 = table) && existsb (jumps_to chain) kv.2)
          (map_to_list cs).

Definition flushed (table chain : string) (cs : chains) : chains :=
  <[(table, chain) := []]> cs.

Definition insert_at (pos : nat) (r : list string) (l : list (list string))
    : list (list string) :=
  (take (pos - 1) l ++ r :: drop (pos - 1) l)%list.

(** The state of one protocol after a call. *)
Definition effect (c : IPT.call) (cs : chains) : chains :=
  match c with
  | IPT.ListChains _ _ => cs
  | IPT.NewChain _ table chain =>
      if cs !! (table, chain) is Some _ then cs else <[(table, chain) := []]> cs
  | IPT.Append _ table chain r =>
      if cs !! (table, chain) is Some l
      then <[(table, chain) := (l ++ [r])%list]> cs else cs
  | IPT.Insert _ table chain pos r =>
      if cs !! (table, chain) is Some l
      then if bool_decide (1 ≤ pos ≤ length l + 1)%nat
           then <[(table, chain) := insert_at pos r l]> cs else cs
      else cs
  | IPT.DeleteIfExists _ table chain r =>
      if cs !! (table, chain) is Some l
      then <[(table, chain) := delete_first r l]> cs else cs
  | IPT.ClearAndDeleteChain _ table chain =>
      if cs !! (table, chain) is Some _
      then if referenced table chain (flushed table chain cs)
           then flushed table chain cs
           else delete (table, chain) cs
      else cs
  end.

Definition failure (msg : string) : IPT.reply := IPT.Reply [] (Some msg).

(** The answer of a call in the state of its protocol. *)
Definition answer (c : IPT.call) (cs : chains) : IPT.reply :=
  match c with
  | IPT.ListChains _ table =>
      IPT.Reply (omap (λ kv, if decide (kv.1.1 = table) then Some kv.1.2 else None)
                      (map_to_list cs)) None
  | IPT.NewChain _ table chain =>
      if cs !! (table, chain) is Some _
      then failure "iptables: Chain already exists." else IPT.ok
  | IPT.Append _ table chain _ =>
      if cs !! (table, chain) is Some _
      then IPT.ok else failure "iptables: No chain/target/match by that name."
  | IPT.Insert _ table chain pos _ =>
      if cs !! (table, chain) is Some l
      then if bool_decide (1 ≤ pos ≤ length l + 1)%nat
           then IPT.ok else failure "iptables: Index of insertion too big."
      else failure "iptables: No chain/target/match by that name."
  | IPT.DeleteIfExists _ _ _ _ => IPT.ok
  | IPT.ClearAndDeleteChain _ table chain =>
      if cs !! (table, chain) is Some _
      then if referenced table chain (flushed table chain cs)
           then failure "iptables: Too many links." else IPT.ok
      else IPT.ok
  end.

Definition step (c : IPT.call) (s : state) : IPT.reply * state :=
  (answer c (sel (protoOf c) s), upd (protoOf c) (effect c (sel (protoOf c) s)) s).

Definition actuator : Actuator := {|
  firewall := state;
  act := step;
|}.

(** The built-in chains of the two tables, empty. *)
Definition builtin : chains :=
  list_to_map [
    (("filter", "INPUT"), []); (("filter", "FORWARD"), []); (("filter", "OUTPUT"), []);
    (("nat", "PREROUTING"), []); (("nat", "INPUT"), []);
    (("nat", "OUTPUT"), []); (("nat", "POSTROUTING"), [])
  ].

Definition pristine : state := State builtin builtin.

(** Two states hold the same chains with the same rules, counted with
    multiplicity. *)
Definition same_rules (s1 s2 : state) : Prop :=
  ∀ proto key,
    option_Forall2 (≡ₚ) (sel proto s1 !! key) (sel proto s2 !! key).

(** The state after a sequence of calls: of the whole engine, and of one
    protocol under the calls made to it. *)
Definition exec (l : list IPT.call) (s : state) : state :=
  foldl (λ s c, (step c s).2) s l.

Definition run_calls (l : list IPT.call) (cs : chains) : chains :=
  foldl (λ cs c, effect c cs) cs l.

End Netfilter.

(** The calls by which [CreateChains] changes the state of one protocol, in
    order: the removals of the jump rules, the clearing of the two custom
    chains, their creation, the appends of the jump rules.  ([createChain]
    lists the chains first and calls [NewChain] only for a missing chain;
    [NewChain] changes nothing when the chain exists.) *)
Definition bootEffects `{Settings} (proto : IPT.Protocol) : list IPT.call :=
  (map (deleteCall proto) (filterNmJumpRules ++ natNmJumpRules)
   ++ [IPT.ClearAndDeleteChain proto defaultIpTable netmakerFilterChain;
       IPT.ClearAndDeleteChain proto defaultNatTable netmakerNatChain;
       IPT.NewChain proto defaultIpTable netmakerFilterChain;
       IPT.NewChain proto defaultNatTable netmakerNatChain]
   ++ map (λ r, IPT.Append proto (table r) (chain r) (rule r))
          (filterNmJumpRules ++ natNmJumpRules))%list.

Abbreviation bootstrapped proto cs := (Netfilter.run_calls (bootEffects proto) cs).

(** On the firewall model: [m] returns nil and changes the firewall as the
    calls [cs] do. *)
Definition settles (m : @M Netfilter.actuator error) (cs : list IPT.call) : Prop :=
  ∀ i, (m i).1 = None ∧ backend (m i).2 = Netfilter.exec cs (backend i).

(** The calls by which [CreateChains] changes the firewall, in order. *)
Definition bootCalls `{Settings} : list IPT.call :=
  (removeJumpCalls
   ++ [IPT.ClearAndDeleteChain ipv4Client defaultIpTable netmakerFilterChain;
       IPT.ClearAndDeleteChain ipv6Client defaultIpTable netmakerFilterChain]
   ++ [IPT.ClearAndDeleteChain ipv4Client defaultNatTable netmakerNatChain;
       IPT.ClearAndDeleteChain ipv6Client defaultNatTable netmakerNatChain]
   ++ [IPT.NewChain ipv4Client defaultIpTable netmakerFilterChain]
   ++ [IPT.NewChain ipv4Client defaultNatTable netmakerNatChain]
   ++ [IPT.NewChain ipv6Client defaultIpTable netmakerFilterChain]
   ++ [IPT.NewChain ipv6Client defaultNatTable netmakerNatChain]
   ++ appendJumpCalls ++ [])%list.

(** ** Instances for the examples *)

(** Addresses given by their text.  As with [netip.ParsePrefix], a text
    without a slash does not parse; a text with a colon is an IPv6 prefix. *)
Definition textual_ParsePrefix (s : string) : bool + string :=
  match String.index 0 "/" s with
  | None => inr ("netip.ParsePrefix(" +:+ s +:+ "): no '/'")
  | Some _ => inl (if String.index 0 ":" s is Some _ then true else false)
  end.

Definition textual : Netip := {|
  IPNet := string;
  IPNet_String := λ s, s;
  Prefix := bool;
  ParsePrefix := textual_ParsePrefix;
  Unmap_Is6 := λ b, b;
|}.

Definition netmaker_settings : Settings := {|
  ingressTable := "ingress";
  GetInterfaceName := "netmaker";
|}.

Definition sorted_range : MapRange := {|
  range := map_to_list;
  range_perm := λ m, reflexivity (map_to_list m);
|}.

(** A manager that has made no call and recorded nothing. *)
Definition newManager `{Actuator} (w : firewall) : iptablesManager :=
  Manager w [] ∅.

(** Inputs of the examples. *)
Section ExampleInputs.
#[local] Existing Instance Netfilter.actuator.
#[local] Existing Instance textual.
#[local] Existing Instance netmaker_settings.
#[local] Existing Instance sorted_range.

Definition freshManager : iptablesManager := newManager Netfilter.pristine.

Definition nilAddrPeer : PeerExtInfo := MkPeerExtInfo "<nil>" "peerA" true.

Definition nilAddrClient : ExtClientInfo :=
  MkExtClientInfo true "<nil>" "clientC" [MkPeerExtInfo "10.0.0.7/32" "peerA" true].

(** A denied peer whose key is the client's own key, and a denied peer whose
    key is also the key of an allowed peer. *)
Definition ownKeyClient : ExtClientInfo :=
  MkExtClientInfo true "10.0.0.5/32" "clientC"
    [MkPeerExtInfo "10.0.0.7/32" "clientC" false].

Definition sharedKeyClient : ExtClientInfo :=
  MkExtClientInfo false "10.0.0.5/32" "clientC"
    [MkPeerExtInfo "10.0.0.7/32" "peerA" false;
     MkPeerExtInfo "10.0.0.8/32" "peerA" true].

(** A client with one allowed and one denied peer. *)
Definition deniedB : PeerExtInfo := MkPeerExtInfo "10.0.0.8/32" "peerB" false.

Definition mixedClient : ExtClientInfo :=
  MkExtClientInfo true "10.0.0.5/32" "clientC"
    [MkPeerExtInfo "10.0.0.7/32" "peerA" true; deniedB].

(** Two allowed peers under one key; a client key apart from it. *)
Definition twinKeyClient : ExtClientInfo :=
  MkExtClientInfo true "10.0.0.5/32" "clientC"
    [MkPeerExtInfo "10.0.0.7/32" "peerA" true;
     MkPeerExtInfo "10.0.0.8/32" "peerA" true].

(** Two allowed peers under two keys. *)
Definition twoPeerClient : ExtClientInfo :=
  MkExtClientInfo true "10.0.0.5/32" "clientC"
    [MkPeerExtInfo "10.0.0.7/32" "peerA" true;
     MkPeerExtInfo "10.0.0.8/32" "peerB" true].

(** An IPv6 peer for an IPv4 client. *)
Definition v6Peer : PeerExtInfo := MkPeerExtInfo "fd00::7/128" "peerB" true.

Definition v4Client : ExtClientInfo :=
  MkExtClientInfo false "10.0.0.5/32" "clientC" [].

(** The manager after [CreateChains] on the pristine firewall, and after one
    and two [InsertIngressRoutingRules] of the same client. *)
Definition bootedManager : iptablesManager := (CreateChains freshManager).2.

Definition authorizedOnce : iptablesManager :=
  (InsertIngressRoutingRules "server1" twoPeerClient bootedManager).2.

Definition authorizedTwice : iptablesManager :=
  (InsertIngressRoutingRules "server1" twoPeerClient authorizedOnce).2.

Definition acceptA : list string :=
  ["-s"; "10.0.0.5/32"; "-d"; "10.0.0.7/32"; "-j"; "ACCEPT"].
Definition acceptB : list string :=
  ["-s"; "10.0.0.5/32"; "-d"; "10.0.0.8/32"; "-j"; "ACCEPT"].
Definition masqueradeS : list string :=
  ["-s"; "10.0.0.5/32"; "-o"; "netmaker"; "-j"; "MASQUERADE"].
Definition masqueradeD : list string :=
  ["-d"; "10.0.0.5/32"; "-o"; "netmaker"; "-j"; "MASQUERADE"].
Definition dropRule : list string := ["-i"; "netmaker"; "-j"; "DROP"].
Definition returnRule : list string := ["-i"; "netmaker"; "-j"; "RETURN"].

End ExampleInputs.

(** A backend on which every call fails, as when the iptables binary cannot
    take its lock. *)
Definition failing : Actuator := {|
  firewall := unit;
  act := λ _ w, (IPT.Reply [] (Some "exit status 4"), w);
|}.

Section FailingInputs.
#[local] Existing Instance failing.
#[local] Existing Instance textual.
#[local] Existing Instance netmaker_settings.
#[local] Existing Instance sorted_range.

Definition authorizedOnFailing : iptablesManager :=
  (InsertIngressRoutingRules "server1" twoPeerClient (newManager ())).2.

Definition failingManager : iptablesManager := newManager ().

End FailingInputs.

(** ** The cleaning of a server's rules *)

(** The order of a [range] over the client entries of a server. *)
Class TableRange := {
  rangeClients : ruletable → list (string * rulesCfg);
  rangeClients_perm : ∀ t, rangeClients t ≡ₚ map_to_list t;
}.

Definition sorted_clients : TableRange := {|
  rangeClients := map_to_list;
  rangeClients_perm := λ t, reflexivity (map_to_list t);
|}.

Section Cleaning.
Context `{Actuator, Settings, MapRange, TableRange}.

(** CleanRoutingRules cleans existing iptables resources that we created by
    the agent.  The answers of [DeleteIfExists] are dropped, and the table is
    not saved. *)
Definition CleanRoutingRules (server ruleTableName : string) : M unit :=
  ruleTable ← FetchRuleTable server ruleTableName;
  for_each (rangeClients ruleTable) (λ entry,
    let rulesCfg := entry.2 in
    for_each (range (default ∅ (rulesMap rulesCfg))) (λ group,
      let iptablesClient :=
        if negb (isIpv4 rulesCfg) then ipv6Client else ipv4Client in
      for_each group.2 (λ r,
        _ ← invoke (IPT.DeleteIfExists iptablesClient (table r) (chain r) (rule r));
        mret ()))).

(** The calls of [CleanRoutingRules] for a table: for every client entry, in
    range order, the removal of every recorded rule on the client of the
    entry's flag. *)
Definition cleanCalls (ruleTable : ruletable) : list IPT.call :=
  flat_map (λ entry,
    flat_map (λ group,
      map (deleteCall (if negb (isIpv4 entry.2) then ipv6Client else ipv4Client))
          group.2)
      (range (default ∅ (rulesMap entry.2))))
    (rangeClients ruleTable).

(** The number of rules recorded in a table. *)
Definition ruleTotal (ruleTable : ruletable) : nat :=
  sum_list ((λ entry, length (concat (map_to_list (default ∅ (rulesMap entry.2))).*2))
              <$> map_to_list ruleTable).

End Cleaning.

Definition is_append (c : IPT.call) : bool :=
  match c with IPT.Append _ _ _ _ => true | _ => false end.

Definition is_chain_query (c : IPT.call) : bool :=
  match c with IPT.ListChains _ _ | IPT.NewChain _ _ _ => true | _ => false end.

(** The error messages of [createChain]. *)
Definition listError (proto : IPT.Protocol) (table e : string) : string :=
  "couldn't get " +:+ iptablesProtoToString proto +:+ " " +:+ table
  +:+ " table chains, error: " +:+ e.

Definition createError (proto : IPT.Protocol) (newChain table e : string) : string :=
  "couldn't create " +:+ iptablesProtoToString proto +:+ " chain " +:+ newChain
  +:+ " in " +:+ table +:+ " table, error: " +:+ e.

(** The error message of a failed removal. *)
Definition removalError (r : ruleInfo) (peerKey e : string) : string :=
  "iptables: error while removing existing " +:+ table r +:+ " rules ["
  +:+ fmt_strings (rule r) +:+ "] for " +:+ peerKey +:+ ": " +:+ e.

Section FurtherInputs.
#[local] Existing Instance Netfilter.actuator.
#[local] Existing Instance textual.
#[local] Existing Instance netmaker_settings.
#[local] Existing Instance sorted_range.
#[local] Existing Instance sorted_clients.

(** A second client, of the IPv6 family, for the server of [authorizedOnce]. *)
Definition clientD : ExtClientInfo :=
  MkExtClientInfo false "fd00::5/128" "clientD"
    [MkPeerExtInfo "fd00::7/128" "peerA" true].

Definition twoClients : iptablesManager :=
  (InsertIngressRoutingRules "server1" clientD authorizedOnce).2.

(** One more IPv4 peer for the client of [authorizedOnce]. *)
Definition peerZ : PeerExtInfo := MkPeerExtInfo "10.0.0.9/32" "peerZ" true.

End FurtherInputs.

(** ** Inserted and recorded rules *)

(** The insert call of a rule, at position 1 of its chain. *)
Definition insertCall (iptablesClient : IPT.Protocol) (r : ruleInfo) : IPT.call :=
  IPT.Insert iptablesClient (table r) (chain r) 1 (rule r).

(** The rules that one [InsertIngressRoutingRules] inserts, in order. *)
Definition insertedRules `{Netip} (extinfo : ExtClientInfo) : list ruleInfo :=
  let addr := IPNet_String (ExtPeerAddr extinfo) in
  (map (λ peerInfo,
          acceptRule ["-s"; addr; "-d"; IPNet_String (PeerAddr peerInfo);
                      "-j"; "ACCEPT"])
       (filter (λ peerInfo, Allow peerInfo = true) (Peers extinfo))
   ++ (if Masquerade extinfo then
         [masqueradeRule ["-s"; addr; "-o"; "netmaker"; "-j"; "MASQUERADE"];
          masqueradeRule ["-d"; addr; "-o"; "netmaker"; "-j"; "MASQUERADE"]]
       else []))%list.

(** The specifications of the rules of one chain among [rs], in order. *)
Definition specsAt (key : string * string) (rs : list ruleInfo) : list (list string) :=
  rule <$> filter (λ r, (table r, chain r) = key) rs.

(** The calls by which [FlushAll] changes the state of one protocol. *)
Definition flushEffects `{Settings} (proto : IPT.Protocol) : list IPT.call :=
  (map (deleteCall proto) (filterNmJumpRules ++ natNmJumpRules)
   ++ [IPT.ClearAndDeleteChain proto defaultIpTable netmakerFilterChain;
       IPT.ClearAndDeleteChain proto defaultNatTable netmakerNatChain])%list.

(** A state of one protocol that knows nothing of netmaker: the two custom
    chains do not exist and no rule jumps to them. *)
Definition withoutNetmaker (cs : Netfilter.chains) : Prop :=
  cs !! (defaultIpTable, netmakerFilterChain) = None ∧
  cs !! (defaultNatTable, netmakerNatChain) = None ∧
  Netfilter.referenced defaultIpTable netmakerFilterChain cs = false ∧
  Netfilter.referenced defaultNatTable netmakerNatChain cs = false.

(** * Properties *)

(** ** Running the monad *)

Section Running.
Context `{Actuator}.

Lemma invoke_eq (c : IPT.call) (i : iptablesManager) :
  invoke c i =
  ((act c (backend i)).1,
   Manager (act c (backend i)).2 (calls i ++ [c]) (ingRules i)).
Proof. unfold invoke. destruct (act c (backend i)); reflexivity. Qed.

Lemma bind_eq {A B} (m : M A) (f : A → M B) (i : iptablesManager) :
  (m ≫= f) i = f (m i).1 (m i).2.
Proof. unfold mbind, M_bind. destruct (m i); reflexivity. Qed.

Lemma ret_eq {A} (x : A) (i : iptablesManager) : mret (M := M) x i = (x, i).
Proof. reflexivity. Qed.

Lemma makesCalls_ret {A} (x : A) : makesCalls (mret x) [].
Proof. intros i. cbn. by rewrite app_nil_r. Qed.

Lemma makesCalls_invoke (c : IPT.call) : makesCalls (invoke c) [c].
Proof. intros i. by rewrite invoke_eq. Qed.

Lemma makesCalls_bind {A B} (m : M A) (f : A → M B) (c1 c2 : list IPT.call) :
  makesCalls m c1 → (∀ a, makesCalls (f a) c2) → makesCalls (m ≫= f) (c1 ++ c2).
Proof.
  intros Hm Hf i. rewrite bind_eq.
  destruct (Hm i) as (M1 & M2 & M3).
  destruct (Hf (m i).1 (m i).2) as (F1 & F2 & F3).
  rewrite F1, F2, F3, M1, M2, M3. unfold execAll.
  by rewrite foldl_app, (assoc_L (++)).
Qed.

Lemma makesCalls_for_each {A} (l : list A) (body : A → M unit)
    (g : A → list IPT.call) :
  (∀ x, makesCalls (body x) (g x)) → makesCalls (for_each l body) (flat_map g l).
Proof.
  intros Hbody. induction l as [|x l IH]; cbn [for_each flat_map].
  - apply makesCalls_ret.
  - apply makesCalls_bind; [apply Hbody | intros _; apply IH].
Qed.

(** Two calls whose answers are dropped. *)
Lemma makesCalls_pair (c1 c2 : IPT.call) :
  makesCalls (_ ← invoke c1; _ ← invoke c2; mret ()) [c1; c2].
Proof.
  apply (makesCalls_bind _ _ [c1] [c2]); [apply makesCalls_invoke|]. intros _.
  apply (makesCalls_bind _ _ [c2] []); [apply makesCalls_invoke|]. intros _.
  apply makesCalls_ret.
Qed.

End Running.

(** Unfolds binds and client calls into projections of the backend's
    answers. *)
Ltac run_step :=
  first [ rewrite bind_eq | rewrite invoke_eq | rewrite ret_eq ].
Ltac run := repeat (run_step; cbn [fst snd backend calls ingRules]).

Section Properties.
Context `{Actuator, Netip, Settings, MapRange}.

Lemma FetchRuleTable_ingress (server : string) (i : iptablesManager) :
  FetchRuleTable server ingressTable i = (clientsOf server i, i).
Proof. unfold FetchRuleTable, clientsOf. by rewrite decide_True. Qed.

Lemma SaveRules_ingress (server : string) (rules : ruletable) (i : iptablesManager) :
  SaveRules server ingressTable rules i =
  ((), Manager (backend i) (calls i) (<[server := rules]> (ingRules i))).
Proof. unfold SaveRules. by rewrite decide_True. Qed.

Lemma SaveRules_frame (server tableName : string) (rules : ruletable)
    (i : iptablesManager) :
  backend (SaveRules server tableName rules i).2 = backend i ∧
  calls (SaveRules server tableName rules i).2 = calls i.
Proof. unfold SaveRules. by case_decide. Qed.

(** Writing back what was fetched keeps the client entries of every server. *)
Lemma clientsOf_save_fetched (server s : string) (i : iptablesManager) :
  clientsOf s (Manager (backend i) (calls i)
                 (<[server := clientsOf server i]> (ingRules i)))
  = clientsOf s i.
Proof.
  unfold clientsOf; cbn. destruct (decide (server = s)) as [->|Hne].
  - by rewrite lookup_insert_eq.
  - by rewrite lookup_insert_ne.
Qed.

Lemma clientsOf_save (server : string) (rules : ruletable) (i : iptablesManager) :
  clientsOf server (Manager (backend i) (calls i) (<[server := rules]> (ingRules i)))
  = rules.
Proof. unfold clientsOf; cbn. by rewrite lookup_insert_eq. Qed.

Lemma removeJumpRules_calls : makesCalls removeJumpRules removeJumpCalls.
Proof.
  unfold removeJumpRules, removeJumpCalls. rewrite flat_map_app.
  apply makesCalls_bind; [|intros _];
    apply makesCalls_for_each; intros r; apply makesCalls_pair.
Qed.

Lemma addJumpRules_calls : makesCalls addJumpRules appendJumpCalls.
Proof.
  unfold addJumpRules, appendJumpCalls. rewrite flat_map_app.
  apply makesCalls_bind; [|intros _];
    apply makesCalls_for_each; intros r; apply makesCalls_pair.
Qed.

Lemma cleanup_calls (table chain : string) :
  makesCalls (cleanup table chain)
    [IPT.ClearAndDeleteChain ipv4Client table chain;
     IPT.ClearAndDeleteChain ipv6Client table chain].
Proof. apply makesCalls_pair. Qed.

Lemma FlushAll_calls : makesCalls FlushAll (removeJumpCalls ++ cleanupCalls).
Proof.
  unfold FlushAll.
  apply makesCalls_bind; [apply removeJumpRules_calls|]. intros _.
  apply (makesCalls_bind _ _
           [IPT.ClearAndDeleteChain ipv4Client defaultIpTable netmakerFilterChain;
            IPT.ClearAndDeleteChain ipv6Client defaultIpTable netmakerFilterChain]
           [IPT.ClearAndDeleteChain ipv4Client defaultNatTable netmakerNatChain;
            IPT.ClearAndDeleteChain ipv6Client defaultNatTable netmakerNatChain]).
  - apply cleanup_calls.
  - intros _. apply cleanup_calls.
Qed.

End Properties.

(** ** Removal of an unknown client, and [FlushAll] *)

Section NotFound.
Context `{Actuator, Netip, Settings, MapRange}.

(** The message of a failed removal is never the not-found message. *)
Lemma not_found_is_distinct (key key' : string) (r : ruleInfo) (e : string) :
  "peer not found in rule table: " +:+ key ≠
  "iptables: error while removing existing " +:+ table r
    +:+ " rules [" +:+ fmt_strings (rule r) +:+ "] for " +:+ key' +:+ ": " +:+ e.
Proof. cbn. discriminate. Qed.

(** C6. [RemoveRoutingRules] for a client key with no entry in the server's
    rule table returns the error "peer not found in rule table: <key>", an
    error whose message no failed removal produces, and makes no client
    call: the log of calls and the firewall are as before. *)
Theorem RemoveRoutingRules_not_found
    (server ruletableName peerKey : string) (i : iptablesManager) :
  (FetchRuleTable server ruletableName i).1 !! peerKey = None →
  (RemoveRoutingRules server ruletableName peerKey i).1
    = Some ("peer not found in rule table: " +:+ peerKey) ∧
  (RemoveRoutingRules server ruletableName peerKey i).1 ≠ None ∧
  (∀ key' r e,
     (RemoveRoutingRules server ruletableName peerKey i).1 ≠
     Some ("iptables: error while removing existing " +:+ table r
           +:+ " rules [" +:+ fmt_strings (rule r) +:+ "] for " +:+ key'
           +:+ ": " +:+ e)) ∧
  calls (RemoveRoutingRules server ruletableName peerKey i).2 = calls i ∧
  backend (RemoveRoutingRules server ruletableName peerKey i).2 = backend i.
Proof.
  intros Hnone. unfold RemoveRoutingRules.
  rewrite bind_eq.
  assert (Hf : (FetchRuleTable server ruletableName i).2 = i) by reflexivity.
  rewrite Hf, Hnone. run.
  destruct (SaveRules_frame server ruletableName
              (FetchRuleTable server ruletableName i).1 i) as [Hb Hc].
  split_and!; [done | done | | done | done].
  intros key' r e Heq.
  apply (not_found_is_distinct peerKey key' r e). congruence.
Qed.

(** C9. [FlushAll] leaves the rule table as it is; its client calls are the
    removals of the jump rules followed by the clearing and deletion of the
    two custom chains, for both protocols. *)
Theorem FlushAll_keeps_rule_table (i : iptablesManager) :
  ingRules (FlushAll i).2 = ingRules i ∧
  calls (FlushAll i).2 = (calls i ++ removeJumpCalls ++ cleanupCalls)%list.
Proof. destruct (FlushAll_calls i) as (Hcalls & _ & Hrules). done. Qed.

(** C10. When the client key has no entry in the server's rule table,
    [AddIngressRoutingRule] never returns nil: it returns the parse error of
    the address, or, the address parsed, it panics on the write to the nil
    map of the zero-value entry.  So a nil return needs an entry. *)
Theorem AddIngressRoutingRule_needs_entry
    (server extPeerKey : string) (peerInfo : PeerExtInfo) (i : iptablesManager) :
  clientsOf server i !! extPeerKey = None →
  (AddIngressRoutingRule server extPeerKey peerInfo i).1 ≠ Returned None ∧
  (∀ prefix,
     ParsePrefix (IPNet_String (PeerAddr peerInfo)) = inl prefix →
     (AddIngressRoutingRule server extPeerKey peerInfo i).1
       = Panicked "assignment to entry in nil map").
Proof.
  intros Hnone. unfold AddIngressRoutingRule.
  rewrite bind_eq, FetchRuleTable_ingress. cbn [fst snd].
  destruct (ParsePrefix (IPNet_String (PeerAddr peerInfo))) as [prefix|e].
  - rewrite Hnone. cbn [default zeroRulesCfg rulesMap]. run.
    split; [done|]. by intros ? _.
  - run. split; [done|]. by intros ? [=].
Qed.

End NotFound.

(** ** Authorizing a client *)

Section Authorize.
Context `{Actuator, Netip, Settings, MapRange}.

Lemma insertPeerRules_run (iptablesClient : IPT.Protocol) (extinfo : ExtClientInfo)
    (peers : list PeerExtInfo) (m : gmap string (list ruleInfo))
    (i : iptablesManager) :
  let addr := IPNet_String (ExtPeerAddr extinfo) in
  let out := insertPeerRules iptablesClient addr peers m i in
  out.1 = recordedPeers addr peers m ∧
  calls out.2 =
    (calls i ++
     map (λ peerInfo,
            IPT.Insert iptablesClient defaultIpTable netmakerFilterChain 1
              ["-s"; addr; "-d"; IPNet_String (PeerAddr peerInfo); "-j"; "ACCEPT"])
         (filter (λ peerInfo, Allow peerInfo = true) peers))%list ∧
  ingRules out.2 = ingRules i.
Proof.
  cbn zeta. revert m i. induction peers as [|p rest IH]; intros m i.
  - cbn. by rewrite app_nil_r.
  - cbn [insertPeerRules recordedPeers]. destruct (Allow p) eqn:Hallow; cbn [negb].
    + run. rewrite filter_cons_True by done. cbn [map].
      destruct (IH (<[PeerKey p := [acceptRule ["-s"; IPNet_String (ExtPeerAddr extinfo);
                  "-d"; IPNet_String (PeerAddr p); "-j"; "ACCEPT"]]]> m)
                  (Manager (act (IPT.Insert iptablesClient defaultIpTable
                      netmakerFilterChain 1 ["-s"; IPNet_String (ExtPeerAddr extinfo);
                        "-d"; IPNet_String (PeerAddr p); "-j"; "ACCEPT"]) (backend i)).2
                     (calls i ++ [IPT.Insert iptablesClient defaultIpTable
                      netmakerFilterChain 1 ["-s"; IPNet_String (ExtPeerAddr extinfo);
                        "-d"; IPNet_String (PeerAddr p); "-j"; "ACCEPT"]])
                     (ingRules i))) as (IH1 & IH2 & IH3).
      rewrite IH1, IH2, IH3. cbn [calls ingRules].
      by rewrite <- (assoc_L (++)).
    + rewrite filter_cons_False by (rewrite Hallow; done). apply IH.
Qed.

(** What [InsertIngressRoutingRules] does once the client's address parsed. *)
Lemma InsertIngressRoutingRules_run (server : string) (extinfo : ExtClientInfo)
    (prefix : Prefix) (i : iptablesManager) :
  ParsePrefix (IPNet_String (ExtPeerAddr extinfo)) = inl prefix →
  let out := InsertIngressRoutingRules server extinfo i in
  out.1 = None ∧
  calls out.2 =
    (calls i ++ peerInsertCalls (clientFor prefix) extinfo
             ++ natInsertCalls (clientFor prefix) extinfo)%list ∧
  ingRules out.2 =
    <[server :=
        <[ExtPeerKey extinfo :=
            RulesCfg (negb (Unmap_Is6 prefix)) (Some (recordedGroups extinfo))]>
          (clientsOf server i)]> (ingRules i).
Proof.
  intros Hparse. cbn zeta. unfold InsertIngressRoutingRules.
  rewrite bind_eq, FetchRuleTable_ingress. cbn [fst snd]. rewrite Hparse.
  fold (clientFor prefix).
  destruct (insertPeerRules_run (clientFor prefix) extinfo (Peers extinfo) ∅ i)
    as (R1 & R2 & R3). cbn zeta in R1, R2, R3.
  unfold recordedGroups, natInsertCalls, peerInsertCalls.
  destruct (Masquerade extinfo); cbn [negb].
  - run. rewrite !SaveRules_ingress. cbn [fst snd calls ingRules backend].
    rewrite R1, R2, R3, <- !(assoc_L (++)). cbn [app]. done.
  - run. rewrite !SaveRules_ingress. cbn [fst snd calls ingRules backend].
    rewrite R1, R2, R3. split_and!; [done| |done].
    by rewrite app_nil_r.
Qed.

End Authorize.

(** ** Malformed addresses and denied peers *)

Section Rejections.
Context `{Actuator, Netip, Settings, MapRange}.

Lemma onlyWrittenBack_save (server : string) (i : iptablesManager) :
  onlyWrittenBack server i
    (Manager (backend i) (calls i) (<[server := clientsOf server i]> (ingRules i))).
Proof.
  unfold onlyWrittenBack; cbn. split_and!; try done.
  intros s. apply clientsOf_save_fetched.
Qed.

(** C3 (amended). When the address does not parse, [AddIngressRoutingRule]
    and [InsertIngressRoutingRules] return the parse error, make no client
    call and leave the client entries of every server as they were; the
    deferred [SaveRules] writes the fetched table back, which gives a server
    that had no table an empty one. *)
Theorem malformed_address_keeps_entries
    (server extPeerKey : string) (peerInfo : PeerExtInfo)
    (extinfo : ExtClientInfo) (e1 e2 : string) (i : iptablesManager) :
  ParsePrefix (IPNet_String (PeerAddr peerInfo)) = inr e1 →
  ParsePrefix (IPNet_String (ExtPeerAddr extinfo)) = inr e2 →
  ((AddIngressRoutingRule server extPeerKey peerInfo i).1 = Returned (Some e1) ∧
   onlyWrittenBack server i (AddIngressRoutingRule server extPeerKey peerInfo i).2) ∧
  ((InsertIngressRoutingRules server extinfo i).1 = Some e2 ∧
   onlyWrittenBack server i (InsertIngressRoutingRules server extinfo i).2).
Proof.
  intros Hp He. split.
  - unfold AddIngressRoutingRule.
    rewrite bind_eq, FetchRuleTable_ingress. cbn [fst snd]. rewrite Hp.
    run. rewrite SaveRules_ingress. cbn [fst snd].
    split; [done|]. apply onlyWrittenBack_save.
  - unfold InsertIngressRoutingRules.
    rewrite bind_eq, FetchRuleTable_ingress. cbn [fst snd]. rewrite He.
    run. rewrite SaveRules_ingress. cbn [fst snd].
    split; [done|]. apply onlyWrittenBack_save.
Qed.

Lemma recordedPeers_lookup_None (addr key : string) (peers : list PeerExtInfo)
    (m : gmap string (list ruleInfo)) :
  m !! key = None →
  (∀ q, q ∈ peers → Allow q = true → PeerKey q ≠ key) →
  recordedPeers addr peers m !! key = None.
Proof.
  revert m. induction peers as [|p rest IH]; intros m Hm Hkeys; [done|].
  cbn [recordedPeers]. destruct (Allow p) eqn:Hallow.
  - apply IH.
    + rewrite lookup_insert_ne; [done|]. apply Hkeys; [left|done].
    + intros q Hq. apply Hkeys. by right.
  - apply IH; [done|]. intros q Hq. apply Hkeys. by right.
Qed.

Lemma groupOf_after_insert (server : string) (extinfo : ExtClientInfo)
    (prefix : Prefix) (key : string) (i : iptablesManager) :
  ParsePrefix (IPNet_String (ExtPeerAddr extinfo)) = inl prefix →
  groupOf server (ExtPeerKey extinfo) key
    (InsertIngressRoutingRules server extinfo i).2
  = recordedGroups extinfo !! key.
Proof.
  intros Hparse.
  destruct (InsertIngressRoutingRules_run server extinfo prefix i Hparse)
    as (_ & _ & Hing).
  unfold groupOf, clientsOf. cbn zeta in Hing. rewrite Hing.
  rewrite lookup_insert_eq. cbn. by rewrite lookup_insert_eq.
Qed.

(** C8 (amended). Once the client's address parsed,
    [InsertIngressRoutingRules] makes one insert call per peer entry with
    [allow = true] and, with masquerade, the two NAT inserts, so none for an
    entry with [allow = false]; and the client's entry holds no Rule Group
    under the key of such an entry, provided that key is not also the key of
    an allowed peer of the list nor, with masquerade, the client's own key. *)
Theorem denied_peer_gets_no_rule
    (server : string) (extinfo : ExtClientInfo) (peerInfo : PeerExtInfo)
    (prefix : Prefix) (i : iptablesManager) :
  ParsePrefix (IPNet_String (ExtPeerAddr extinfo)) = inl prefix →
  peerInfo ∈ Peers extinfo →
  Allow peerInfo = false →
  (∀ q, q ∈ Peers extinfo → Allow q = true → PeerKey q ≠ PeerKey peerInfo) →
  (Masquerade extinfo = true → ExtPeerKey extinfo ≠ PeerKey peerInfo) →
  (InsertIngressRoutingRules server extinfo i).1 = None ∧
  calls (InsertIngressRoutingRules server extinfo i).2 =
    (calls i ++ peerInsertCalls (clientFor prefix) extinfo
             ++ natInsertCalls (clientFor prefix) extinfo)%list ∧
  groupOf server (ExtPeerKey extinfo) (PeerKey peerInfo)
    (InsertIngressRoutingRules server extinfo i).2 = None.
Proof.
  intros Hparse Hin Hdeny Hkeys Hown.
  destruct (InsertIngressRoutingRules_run server extinfo prefix i Hparse)
    as (Hres & Hcalls & _).
  split_and!; [done|done|].
  rewrite (groupOf_after_insert _ _ prefix) by done.
  unfold recordedGroups. destruct (Masquerade extinfo).
  - rewrite lookup_insert_ne by auto.
    by apply recordedPeers_lookup_None.
  - by apply recordedPeers_lookup_None.
Qed.

End Rejections.

(** ** Removing a client session *)

Section Removal.
Context `{Actuator, Netip, Settings, MapRange}.

Lemma deleteRules_run (iptablesClient : IPT.Protocol) (peerKey : string)
    (rules : list ruleInfo) (i : iptablesManager) :
  removalsSucceed →
  (deleteRules iptablesClient peerKey rules i).1 = None ∧
  calls (deleteRules iptablesClient peerKey rules i).2 =
    (calls i ++ map (deleteCall iptablesClient) rules)%list ∧
  ingRules (deleteRules iptablesClient peerKey rules i).2 = ingRules i.
Proof.
  intros Hok. revert i. induction rules as [|r rest IH]; intros i.
  - cbn. by rewrite app_nil_r.
  - cbn [deleteRules]. run.
    rewrite (Hok (IPT.DeleteIfExists iptablesClient (table r) (chain r) (rule r)))
      by done.
    destruct (IH (Manager
                    (act (IPT.DeleteIfExists iptablesClient (table r) (chain r) (rule r))
                         (backend i)).2
                    (calls i ++ [IPT.DeleteIfExists iptablesClient (table r) (chain r) (rule r)])
                    (ingRules i))) as (IH1 & IH2 & IH3).
    rewrite IH1, IH2, IH3. cbn [calls ingRules map].
    by rewrite <- (assoc_L (++)).
Qed.

Lemma deleteGroups_run (iptablesClient : IPT.Protocol) (peerKey : string)
    (groups : list (string * list ruleInfo)) (i : iptablesManager) :
  removalsSucceed →
  (deleteGroups iptablesClient peerKey groups i).1 = None ∧
  calls (deleteGroups iptablesClient peerKey groups i).2 =
    (calls i ++ map (deleteCall iptablesClient) (concat groups.*2))%list ∧
  ingRules (deleteGroups iptablesClient peerKey groups i).2 = ingRules i.
Proof.
  intros Hok. revert i. induction groups as [|[k rules] rest IH]; intros i.
  - cbn. by rewrite app_nil_r.
  - cbn [deleteGroups]. rewrite bind_eq.
    destruct (deleteRules_run iptablesClient peerKey rules i Hok) as (D1 & D2 & D3).
    rewrite D1.
    destruct (IH (deleteRules iptablesClient peerKey rules i).2) as (IH1 & IH2 & IH3).
    rewrite IH1, IH2, IH3, D2, D3. cbn [fmap list_fmap snd concat].
    by rewrite map_app, <- (assoc_L (++)).
Qed.

(** What [RemoveRoutingRules] does for a recorded client when no removal
    fails. *)
Lemma RemoveRoutingRules_run (server peerKey : string) (cfg : rulesCfg)
    (i : iptablesManager) :
  removalsSucceed →
  clientsOf server i !! peerKey = Some cfg →
  (RemoveRoutingRules server ingressTable peerKey i).1 = None ∧
  calls (RemoveRoutingRules server ingressTable peerKey i).2 =
    (calls i ++
     map (deleteCall (if isIpv4 cfg then ipv4Client else ipv6Client))
         (rulesInRange (default ∅ (rulesMap cfg))))%list ∧
  ingRules (RemoveRoutingRules server ingressTable peerKey i).2 =
    <[server := delete peerKey (clientsOf server i)]> (ingRules i).
Proof.
  intros Hok Hcfg. unfold RemoveRoutingRules.
  rewrite bind_eq, FetchRuleTable_ingress. cbn [fst snd]. rewrite Hcfg.
  destruct (deleteGroups_run (if isIpv4 cfg then ipv4Client else ipv6Client)
              peerKey (range (default ∅ (rulesMap cfg))) i Hok) as (G1 & G2 & G3).
  run. rewrite G1. run. rewrite SaveRules_ingress. cbn [fst snd calls ingRules].
  by rewrite G2, G3.
Qed.

Lemma length_concat_Permutation {A} (l1 l2 : list (list A)) :
  l1 ≡ₚ l2 → length (concat l1) = length (concat l2).
Proof.
  induction 1 as [|x l l' _ IH|x y l|l l' l'' _ IH1 _ IH2]; cbn;
    rewrite ?length_app; lia.
Qed.

Lemma rulesInRange_length (m : gmap string (list ruleInfo)) :
  length (rulesInRange m) = length (concat (map_to_list m).*2).
Proof.
  unfold rulesInRange. apply length_concat_Permutation.
  apply fmap_Permutation, range_perm.
Qed.

Lemma rule_count_insert (key : string) (rules : list ruleInfo)
    (m : gmap string (list ruleInfo)) :
  m !! key = None →
  length (concat (map_to_list (<[key := rules]> m)).*2)
  = length rules + length (concat (map_to_list m).*2).
Proof.
  intros Hnone.
  rewrite (length_concat_Permutation _ (((key, rules) :: map_to_list m).*2)).
  - cbn. by rewrite length_app.
  - apply fmap_Permutation. by apply map_to_list_insert.
Qed.

Lemma recordedPeers_rule_count (addr : string) (peers : list PeerExtInfo)
    (m : gmap string (list ruleInfo)) :
  Forall (λ q, Allow q = true) peers →
  NoDup (PeerKey <$> peers) →
  (∀ q, q ∈ peers → m !! PeerKey q = None) →
  length (concat (map_to_list (recordedPeers addr peers m)).*2)
  = length (concat (map_to_list m).*2) + length peers.
Proof.
  revert m. induction peers as [|p rest IH]; intros m Hallow Hnodup Hfresh.
  - cbn. lia.
  - cbn [recordedPeers]. apply Forall_cons in Hallow as [Hp Hrest].
    rewrite Hp. cbn [fmap list_fmap] in Hnodup.
    apply NoDup_cons in Hnodup as [Hnotin Hnodup].
    rewrite IH; [|done|done|].
    + rewrite rule_count_insert by (apply Hfresh; left). cbn. lia.
    + intros q Hq. rewrite lookup_insert_ne.
      * apply Hfresh. by right.
      * intros Heq. apply Hnotin. rewrite Heq. by apply list_elem_of_fmap_2.
Qed.

(** C5 (amended). After [InsertIngressRoutingRules] for a client whose
    address parses, with masquerade, every peer allowed, the peer keys
    pairwise distinct and none of them the client's key, a
    [RemoveRoutingRules] of that client on a backend that fails no removal
    returns nil, leaves no entry for the client, and makes exactly one
    removal call per recorded rule, [|P| + 2] calls in all. *)
Theorem authorize_then_remove
    (server : string) (extinfo : ExtClientInfo) (prefix : Prefix)
    (i : iptablesManager) :
  ParsePrefix (IPNet_String (ExtPeerAddr extinfo)) = inl prefix →
  Masquerade extinfo = true →
  Forall (λ q, Allow q = true) (Peers extinfo) →
  NoDup (PeerKey <$> Peers extinfo) →
  ExtPeerKey extinfo ∉ PeerKey <$> Peers extinfo →
  removalsSucceed →
  (InsertIngressRoutingRules server extinfo i).1 = None ∧
  (RemoveRoutingRules server ingressTable (ExtPeerKey extinfo)
     (InsertIngressRoutingRules server extinfo i).2).1 = None ∧
  clientsOf server
    (RemoveRoutingRules server ingressTable (ExtPeerKey extinfo)
       (InsertIngressRoutingRules server extinfo i).2).2
    !! ExtPeerKey extinfo = None ∧
  calls
    (RemoveRoutingRules server ingressTable (ExtPeerKey extinfo)
       (InsertIngressRoutingRules server extinfo i).2).2
  = (calls (InsertIngressRoutingRules server extinfo i).2 ++
     map (deleteCall (clientFor prefix)) (rulesInRange (recordedGroups extinfo)))%list ∧
  length (map (deleteCall (clientFor prefix)) (rulesInRange (recordedGroups extinfo)))
  = length (Peers extinfo) + 2.
Proof.
  intros Hparse Hmasq Hallow Hnodup Hown Hok.
  destruct (InsertIngressRoutingRules_run server extinfo prefix i Hparse)
    as (I1 & _ & I3). cbn zeta in I3.
  set (i1 := (InsertIngressRoutingRules server extinfo i).2) in *.
  assert (Hcfg : clientsOf server i1 !! ExtPeerKey extinfo
                 = Some (RulesCfg (negb (Unmap_Is6 prefix))
                           (Some (recordedGroups extinfo)))).
  { unfold clientsOf. rewrite I3, lookup_insert_eq. cbn.
    by rewrite lookup_insert_eq. }
  destruct (RemoveRoutingRules_run server (ExtPeerKey extinfo) _ i1 Hok Hcfg)
    as (R1 & R2 & R3).
  cbn [isIpv4 rulesMap default] in R2.
  assert (Hcli : (if negb (Unmap_Is6 prefix) then ipv4Client else ipv6Client)
                 = clientFor prefix).
  { unfold clientFor. by destruct (Unmap_Is6 prefix). }
  rewrite Hcli in R2.
  split_and!; [done|done| |done|].
  - unfold clientsOf at 1. rewrite R3, lookup_insert_eq. cbn.
    by rewrite lookup_delete_eq.
  - rewrite length_map, rulesInRange_length.
    unfold recordedGroups. rewrite Hmasq.
    assert (Hfresh : recordedPeers (IPNet_String (ExtPeerAddr extinfo))
                       (Peers extinfo) ∅ !! ExtPeerKey extinfo = None).
    { apply recordedPeers_lookup_None; [done|].
      intros q Hq _ Heq. apply Hown. rewrite <- Heq.
      by apply list_elem_of_fmap_2. }
    rewrite Hfresh, rule_count_insert by done.
    rewrite recordedPeers_rule_count; [|done|done|done].
    rewrite map_to_list_empty. cbn. lia.
Qed.

End Removal.

(** ** Removing one pairing, and adding one *)

Section Pairings.
Context `{Actuator, Netip, Settings, MapRange}.

Lemma groupOf_Some (server clientKey peerKey : string) (rules : list ruleInfo)
    (i : iptablesManager) :
  groupOf server clientKey peerKey i = Some rules ↔
  ∃ cfg m, clientsOf server i !! clientKey = Some cfg ∧
           rulesMap cfg = Some m ∧ m !! peerKey = Some rules.
Proof.
  unfold groupOf. split.
  - destruct (clientsOf server i !! clientKey) as [cfg|]; [|done]. cbn.
    destruct (rulesMap cfg) as [m|] eqn:Hm; [|done]. cbn. eauto.
  - intros (cfg & m & -> & Hm & Hg). cbn. by rewrite Hm.
Qed.

(** C1. For a pairing recorded under the client's entry and a backend that
    fails no removal, [DeleteRoutingRule] returns nil and makes exactly the
    removal calls of the rules of that pairing, on the client of the entry's
    family; the client entries of every server stay as they were.  So the
    Rule Group of the pairing is still recorded afterwards: the method has no
    statement that deletes it from the entry. *)
Theorem DeleteRoutingRule_keeps_group
    (server srcPeerKey dstPeerKey : string) (cfg : rulesCfg)
    (rules : list ruleInfo) (i : iptablesManager) :
  removalsSucceed →
  clientsOf server i !! srcPeerKey = Some cfg →
  groupOf server srcPeerKey dstPeerKey i = Some rules →
  (DeleteRoutingRule server ingressTable srcPeerKey dstPeerKey i).1 = None ∧
  calls (DeleteRoutingRule server ingressTable srcPeerKey dstPeerKey i).2 =
    (calls i ++
     map (deleteCall (if isIpv4 cfg then ipv4Client else ipv6Client)) rules)%list ∧
  (∀ s, clientsOf s (DeleteRoutingRule server ingressTable srcPeerKey dstPeerKey i).2
        = clientsOf s i) ∧
  groupOf server srcPeerKey dstPeerKey
    (DeleteRoutingRule server ingressTable srcPeerKey dstPeerKey i).2 = Some rules.
Proof.
  intros Hok Hcfg Hgroup.
  assert (Hm : default ∅ (rulesMap cfg) !! dstPeerKey = Some rules).
  { apply groupOf_Some in Hgroup as (cfg' & m & Hcfg' & Hm & Hg).
    rewrite Hcfg in Hcfg'. injection Hcfg' as <-. by rewrite Hm. }
  unfold DeleteRoutingRule.
  rewrite bind_eq, FetchRuleTable_ingress. cbn [fst snd]. rewrite Hcfg, Hm.
  destruct (deleteRules_run (if isIpv4 cfg then ipv4Client else ipv6Client)
              srcPeerKey rules i Hok) as (D1 & D2 & D3).
  run. rewrite SaveRules_ingress. cbn [fst snd calls].
  assert (Hsame : ∀ s,
            clientsOf s
              (Manager
                 (backend (deleteRules (if isIpv4 cfg then ipv4Client else ipv6Client)
                             srcPeerKey rules i).2)
                 (calls (deleteRules (if isIpv4 cfg then ipv4Client else ipv6Client)
                           srcPeerKey rules i).2)
                 (<[server := clientsOf server i]>
                    (ingRules (deleteRules (if isIpv4 cfg then ipv4Client else ipv6Client)
                                 srcPeerKey rules i).2)))
            = clientsOf s i).
  { intros s. unfold clientsOf at 1. cbn [ingRules]. rewrite D3.
    destruct (decide (server = s)) as [->|Hne].
    - by rewrite lookup_insert_eq.
    - by rewrite lookup_insert_ne. }
  split_and!; [done|done|done|].
  unfold groupOf. rewrite Hsame. exact Hgroup.
Qed.

(** X20. Without the client, or without the pairing, [DeleteRoutingRule] answers
    a not-found error and makes no call. *)
Lemma DeleteRoutingRule_not_found
    (server srcPeerKey dstPeerKey : string) (i : iptablesManager) :
  groupOf server srcPeerKey dstPeerKey i = None →
  (DeleteRoutingRule server ingressTable srcPeerKey dstPeerKey i).1 =
    Some (if clientsOf server i !! srcPeerKey is Some _
          then "rules not found for: " +:+ dstPeerKey
          else "peer not found in rule table: " +:+ srcPeerKey) ∧
  calls (DeleteRoutingRule server ingressTable srcPeerKey dstPeerKey i).2 = calls i.
Proof.
  intros Hnone. unfold DeleteRoutingRule.
  rewrite bind_eq, FetchRuleTable_ingress. cbn [fst snd].
  unfold groupOf in Hnone.
  destruct (clientsOf server i !! srcPeerKey) as [cfg|]; cbn in Hnone.
  - assert (Hm : default ∅ (rulesMap cfg) !! dstPeerKey = None)
      by by destruct (rulesMap cfg).
    rewrite Hm. run. by rewrite SaveRules_ingress.
  - run. by rewrite SaveRules_ingress.
Qed.

(** What [AddIngressRoutingRule] does for a recorded client once the peer's
    address parsed. *)
Lemma AddIngressRoutingRule_run (server extPeerKey : string)
    (peerInfo : PeerExtInfo) (prefix : Prefix) (cfg : rulesCfg)
    (m : gmap string (list ruleInfo)) (i : iptablesManager) :
  ParsePrefix (IPNet_String (PeerAddr peerInfo)) = inl prefix →
  clientsOf server i !! extPeerKey = Some cfg →
  rulesMap cfg = Some m →
  let ruleSpec := ["-d"; IPNet_String (PeerAddr peerInfo); "-j"; "ACCEPT"] in
  let out := AddIngressRoutingRule server extPeerKey peerInfo i in
  out.1 = Returned None ∧
  calls out.2 =
    (calls i ++ [IPT.Insert (clientFor prefix) defaultIpTable netmakerFilterChain 1
                   ruleSpec])%list ∧
  ingRules out.2 =
    <[server :=
        <[extPeerKey :=
            RulesCfg (isIpv4 cfg)
              (Some (<[PeerKey peerInfo := [acceptRule ruleSpec]]> m))]>
          (clientsOf server i)]> (ingRules i).
Proof.
  intros Hparse Hcfg Hm. cbn zeta. unfold AddIngressRoutingRule.
  rewrite bind_eq, FetchRuleTable_ingress. cbn [fst snd].
  rewrite Hparse, Hcfg. cbn [default from_option id]. rewrite Hm.
  fold (clientFor prefix). run. by rewrite SaveRules_ingress.
Qed.

(** C2. A client of one family and a peer of the other: after
    [InsertIngressRoutingRules] has recorded the client with the flag of its
    own address, [AddIngressRoutingRule] sends the peer's rule to the client
    of the peer's family and records it under the entry flagged with the
    other family.  The table is then not family-consistent. *)
Theorem family_flag_mismatch
    (server : string) (extinfo : ExtClientInfo) (peerInfo : PeerExtInfo)
    (prefix4 prefix6 : Prefix) (i : iptablesManager) :
  ParsePrefix (IPNet_String (ExtPeerAddr extinfo)) = inl prefix4 →
  Unmap_Is6 prefix4 = false →
  ParsePrefix (IPNet_String (PeerAddr peerInfo)) = inl prefix6 →
  Unmap_Is6 prefix6 = true →
  (AddIngressRoutingRule server (ExtPeerKey extinfo) peerInfo
     (InsertIngressRoutingRules server extinfo i).2).1 = Returned None ∧
  calls (AddIngressRoutingRule server (ExtPeerKey extinfo) peerInfo
           (InsertIngressRoutingRules server extinfo i).2).2 =
    (calls (InsertIngressRoutingRules server extinfo i).2 ++
     [IPT.Insert ipv6Client defaultIpTable netmakerFilterChain 1
        ["-d"; IPNet_String (PeerAddr peerInfo); "-j"; "ACCEPT"]])%list ∧
  (∃ cfg,
     clientsOf server
       (AddIngressRoutingRule server (ExtPeerKey extinfo) peerInfo
          (InsertIngressRoutingRules server extinfo i).2).2
       !! ExtPeerKey extinfo = Some cfg ∧
     isIpv4 cfg = true) ∧
  groupOf server (ExtPeerKey extinfo) (PeerKey peerInfo)
    (AddIngressRoutingRule server (ExtPeerKey extinfo) peerInfo
       (InsertIngressRoutingRules server extinfo i).2).2 =
    Some [acceptRule ["-d"; IPNet_String (PeerAddr peerInfo); "-j"; "ACCEPT"]] ∧
  ¬ familyConsistent
      (AddIngressRoutingRule server (ExtPeerKey extinfo) peerInfo
         (InsertIngressRoutingRules server extinfo i).2).2.
Proof.
  intros Hp4 H4 Hp6 H6.
  destruct (InsertIngressRoutingRules_run server extinfo prefix4 i Hp4)
    as (_ & _ & I3). cbn zeta in I3.
  set (i1 := (InsertIngressRoutingRules server extinfo i).2) in *.
  assert (Hcfg : clientsOf server i1 !! ExtPeerKey extinfo
                 = Some (RulesCfg true (Some (recordedGroups extinfo)))).
  { unfold clientsOf. rewrite I3, lookup_insert_eq. cbn.
    by rewrite lookup_insert_eq, H4. }
  destruct (AddIngressRoutingRule_run server (ExtPeerKey extinfo) peerInfo prefix6
              _ _ i1 Hp6 Hcfg eq_refl) as (A1 & A2 & A3).
  cbn zeta in A1, A2, A3.
  set (i2 := (AddIngressRoutingRule server (ExtPeerKey extinfo) peerInfo i1).2) in *.
  assert (Hcli : clientFor prefix6 = ipv6Client) by (unfold clientFor; by rewrite H6).
  rewrite Hcli in A2.
  assert (Hentry : clientsOf server i2 !! ExtPeerKey extinfo
            = Some (RulesCfg true
                      (Some (<[PeerKey peerInfo :=
                                 [acceptRule ["-d"; IPNet_String (PeerAddr peerInfo);
                                              "-j"; "ACCEPT"]]]>
                               (recordedGroups extinfo))))).
  { unfold clientsOf. rewrite A3, lookup_insert_eq. cbn.
    by rewrite lookup_insert_eq. }
  assert (Hgroup : groupOf server (ExtPeerKey extinfo) (PeerKey peerInfo) i2
            = Some [acceptRule ["-d"; IPNet_String (PeerAddr peerInfo); "-j"; "ACCEPT"]]).
  { unfold groupOf. rewrite Hentry. cbn. by rewrite lookup_insert_eq. }
  split_and!; [done|done|by eexists|done|].
  intros Hcons.
  specialize (Hcons server (ExtPeerKey extinfo) _ _ (PeerKey peerInfo) _
                (acceptRule ["-d"; IPNet_String (PeerAddr peerInfo); "-j"; "ACCEPT"])
                (IPNet_String (PeerAddr peerInfo))
                Hentry eq_refl (lookup_insert_eq _ _ _)).
  unfold ofFamily in Hcons. rewrite Hp6, H6 in Hcons. cbn in Hcons.
  assert (false = true); [|done].
  apply Hcons; [by left | cbn; left].
Qed.

End Pairings.

(** ** The firewall model: what a call does to one chain *)

Section NetfilterLookups.
Import Netfilter.

Implicit Types (cs : chains) (key : string * string) (r : list string).

Lemma lookup_delete_rule_eq proto table chain r cs :
  effect (IPT.DeleteIfExists proto table chain r) cs !! (table, chain)
  = delete_first r <$> cs !! (table, chain).
Proof.
  cbn. destruct (cs !! (table, chain)) as [l|] eqn:Hl; cbn.
  - by rewrite lookup_insert_eq.
  - by rewrite Hl.
Qed.

Lemma lookup_delete_rule_ne proto table chain r cs key :
  key ≠ (table, chain) →
  effect (IPT.DeleteIfExists proto table chain r) cs !! key = cs !! key.
Proof.
  intros Hne. cbn. destruct (cs !! (table, chain)); [|done].
  by rewrite lookup_insert_ne.
Qed.

Lemma lookup_append_eq proto table chain r cs :
  effect (IPT.Append proto table chain r) cs !! (table, chain)
  = (λ l, l ++ [r])%list <$> cs !! (table, chain).
Proof.
  cbn. destruct (cs !! (table, chain)) as [l|] eqn:Hl; cbn.
  - by rewrite lookup_insert_eq.
  - by rewrite Hl.
Qed.

Lemma lookup_append_ne proto table chain r cs key :
  key ≠ (table, chain) →
  effect (IPT.Append proto table chain r) cs !! key = cs !! key.
Proof.
  intros Hne. cbn. destruct (cs !! (table, chain)); [|done].
  by rewrite lookup_insert_ne.
Qed.

Lemma lookup_new_chain_eq proto table chain cs :
  effect (IPT.NewChain proto table chain) cs !! (table, chain)
  = Some (default [] (cs !! (table, chain))).
Proof.
  cbn. destruct (cs !! (table, chain)) as [l|] eqn:Hl; cbn.
  - by rewrite Hl.
  - by rewrite lookup_insert_eq.
Qed.

Lemma lookup_new_chain_ne proto table chain cs key :
  key ≠ (table, chain) →
  effect (IPT.NewChain proto table chain) cs !! key = cs !! key.
Proof.
  intros Hne. cbn. destruct (cs !! (table, chain)); [done|].
  by rewrite lookup_insert_ne.
Qed.

(** Cleared and deleted, or only cleared because a rule still jumps to it:
    either way the chain holds no rule afterwards. *)
Lemma lookup_clear_eq proto table chain cs :
  default [] (effect (IPT.ClearAndDeleteChain proto table chain) cs !! (table, chain))
  = [].
Proof.
  cbn. destruct (cs !! (table, chain)) as [l|] eqn:Hl.
  - destruct (referenced table chain (flushed table chain cs)).
    + unfold flushed. by rewrite lookup_insert_eq.
    + by rewrite lookup_delete_eq.
  - by rewrite Hl.
Qed.

Lemma lookup_clear_ne proto table chain cs key :
  key ≠ (table, chain) →
  effect (IPT.ClearAndDeleteChain proto table chain) cs !! key = cs !! key.
Proof.
  intros Hne. cbn. destruct (cs !! (table, chain)); [|done].
  destruct (referenced table chain (flushed table chain cs)).
  - unfold flushed. by rewrite lookup_insert_ne.
  - by rewrite lookup_delete_ne.
Qed.

Lemma delete_first_cons_Permutation r (l : list (list string)) :
  r ∈ l → r :: delete_first r l ≡ₚ l.
Proof.
  induction l as [|x l IH]; intros Hin; [by apply elem_of_nil in Hin|].
  cbn. destruct (decide (x = r)) as [->|Hne]; [done|].
  apply elem_of_cons in Hin as [->|Hin]; [done|].
  rewrite Permutation_swap. by rewrite IH.
Qed.

(** Removing a rule and appending it again, twice over, leaves what doing it
    once leaves, up to the order of the rules. *)
Lemma readd_twice_Permutation r (l : list (list string)) :
  delete_first r (delete_first r l ++ [r]) ++ [r] ≡ₚ delete_first r l ++ [r].
Proof.
  rewrite <- Permutation_cons_append.
  apply delete_first_cons_Permutation.
  apply elem_of_app. right. by left.
Qed.

Lemma sel_step proto c s :
  sel proto (step c s).2
  = if decide (protoOf c = proto) then effect c (sel proto s) else sel proto s.
Proof.
  unfold step. cbn [snd]. case_decide as Hp.
  - subst proto. by destruct (protoOf c).
  - destruct (protoOf c), proto; done.
Qed.

Lemma sel_exec proto (l : list IPT.call) s :
  sel proto (exec l s)
  = run_calls (filter (λ c, protoOf c = proto) l) (sel proto s).
Proof.
  unfold exec, run_calls. revert s. induction l as [|c l IH]; intros s; [done|].
  cbn [foldl]. rewrite IH, sel_step.
  case_decide.
  - by rewrite filter_cons_True.
  - by rewrite filter_cons_False.
Qed.

Lemma exec_app (l1 l2 : list IPT.call) s :
  exec (l1 ++ l2) s = exec l2 (exec l1 s).
Proof. unfold exec. apply foldl_app. Qed.

Lemma state_eq (s1 s2 : state) :
  (∀ proto, sel proto s1 = sel proto s2) → s1 = s2.
Proof.
  intros Hsel. destruct s1 as [a1 b1], s2 as [a2 b2].
  f_equal; [apply (Hsel IPT.ProtocolIPv4) | apply (Hsel IPT.ProtocolIPv6)].
Qed.

End NetfilterLookups.

(** ** Chain bootstrap *)

Section BootstrapCalls.
Context `{Actuator, Settings}.

Lemma extends_refl (i : iptablesManager) : extends i i.
Proof. exists []. by rewrite app_nil_r. Qed.

Lemma extends_trans (i1 i2 i3 : iptablesManager) :
  extends i1 i2 → extends i2 i3 → extends i1 i3.
Proof.
  intros [m1 H1] [m2 H2]. exists (m1 ++ m2)%list.
  by rewrite H2, H1, (assoc_L (++)).
Qed.

Lemma extends_invoke (c : IPT.call) (i : iptablesManager) :
  extends i (invoke c i).2.
Proof. rewrite invoke_eq. by exists [c]. Qed.

Lemma createChain_extends (iptables : IPT.Protocol) (table newChain : string)
    (i : iptablesManager) :
  extends i (createChain iptables table newChain i).2.
Proof.
  unfold createChain. rewrite bind_eq.
  pose proof (extends_invoke (IPT.ListChains iptables table) i) as H1.
  destruct (IPT.err (invoke (IPT.ListChains iptables table) i).1); [done|].
  destruct (foldl _ _ _); [|done].
  rewrite bind_eq.
  pose proof (extends_invoke (IPT.NewChain iptables table newChain)
                (invoke (IPT.ListChains iptables table) i).2) as H2.
  destruct (IPT.err _); cbn; by eapply extends_trans.
Qed.

Lemma addJumpRules_extends (i : iptablesManager) :
  extends i (addJumpRules i).2.
Proof. destruct (addJumpRules_calls i) as (Hcalls & _). by eexists. Qed.

(** Every [CreateChains] starts with the calls of [FlushAll]. *)
Lemma CreateChains_after_flush (i : iptablesManager) :
  extends (FlushAll i).2 (CreateChains i).2.
Proof.
  unfold CreateChains, FlushAll.
  rewrite !bind_eq.
  set (i3 := (cleanup defaultNatTable netmakerNatChain
                (cleanup defaultIpTable netmakerFilterChain
                   (removeJumpRules i).2).2).2).
  pose proof (createChain_extends ipv4Client defaultIpTable netmakerFilterChain i3) as E1.
  set (i4 := (createChain ipv4Client defaultIpTable netmakerFilterChain i3).2) in *.
  destruct ((createChain ipv4Client defaultIpTable netmakerFilterChain i3).1); [done|].
  rewrite bind_eq.
  pose proof (createChain_extends ipv4Client defaultNatTable netmakerNatChain i4) as E2.
  set (i5 := (createChain ipv4Client defaultNatTable netmakerNatChain i4).2) in *.
  destruct ((createChain ipv4Client defaultNatTable netmakerNatChain i4).1);
    [by eapply extends_trans|].
  rewrite bind_eq.
  pose proof (createChain_extends ipv6Client defaultIpTable netmakerFilterChain i5) as E3.
  set (i6 := (createChain ipv6Client defaultIpTable netmakerFilterChain i5).2) in *.
  destruct ((createChain ipv6Client defaultIpTable netmakerFilterChain i5).1);
    [eauto using extends_trans|].
  rewrite bind_eq.
  pose proof (createChain_extends ipv6Client defaultNatTable netmakerNatChain i6) as E4.
  set (i7 := (createChain ipv6Client defaultNatTable netmakerNatChain i6).2) in *.
  destruct ((createChain ipv6Client defaultNatTable netmakerNatChain i6).1);
    [eauto using extends_trans|].
  rewrite bind_eq. cbn [snd].
  pose proof (addJumpRules_extends i7) as E5.
  eauto using extends_trans.
Qed.

End BootstrapCalls.

Section Bootstrap.
Context `{Settings}.
#[local] Existing Instance Netfilter.actuator.
Import Netfilter.

(** Side conditions of the lookup lemmas: two chains differ. *)
Ltac other_chain :=
  solve [ assumption
        | let Heq := fresh in intros Heq; vm_compute in Heq; discriminate Heq ].

Ltac peel :=
  repeat first
    [ rewrite lookup_append_eq | rewrite lookup_append_ne by other_chain
    | rewrite lookup_new_chain_eq | rewrite lookup_new_chain_ne by other_chain
    | rewrite lookup_clear_eq | rewrite lookup_clear_ne by other_chain
    | rewrite lookup_delete_rule_eq | rewrite lookup_delete_rule_ne by other_chain ].

Ltac open_boot :=
  unfold bootEffects, run_calls, filterNmJumpRules,
         natNmJumpRules, deleteCall;
  cbn [map app foldl table chain rule].

(** After a bootstrap the two custom chains hold their static rules only. *)
Lemma bootstrapped_filter_chain (proto : IPT.Protocol) (cs : chains) :
  bootstrapped proto cs !! (defaultIpTable, netmakerFilterChain)
  = Some [["-i"; GetInterfaceName; "-j"; "DROP"];
          ["-i"; GetInterfaceName; "-j"; "RETURN"]].
Proof. open_boot. peel. reflexivity. Qed.

Lemma bootstrapped_nat_chain (proto : IPT.Protocol) (cs : chains) :
  bootstrapped proto cs !! (defaultNatTable, netmakerNatChain)
  = Some [["-j"; "RETURN"]].
Proof. open_boot. peel. reflexivity. Qed.

(** In the built-in chains one copy of the jump rule is removed and one is
    appended. *)
Lemma bootstrapped_forward (proto : IPT.Protocol) (cs : chains) :
  bootstrapped proto cs !! (defaultIpTable, iptableFWDChain)
  = (λ l, delete_first ["-i"; GetInterfaceName; "-j"; netmakerFilterChain] l
          ++ [["-i"; GetInterfaceName; "-j"; netmakerFilterChain]])%list
    <$> cs !! (defaultIpTable, iptableFWDChain).
Proof. open_boot. peel. by destruct (cs !! _). Qed.

Lemma bootstrapped_postrouting (proto : IPT.Protocol) (cs : chains) :
  bootstrapped proto cs !! (defaultNatTable, nattablePRTChain)
  = (λ l, delete_first ["-o"; GetInterfaceName; "-j"; netmakerNatChain] l
          ++ [["-o"; GetInterfaceName; "-j"; netmakerNatChain]])%list
    <$> cs !! (defaultNatTable, nattablePRTChain).
Proof. open_boot. peel. by destruct (cs !! _). Qed.

Lemma bootstrapped_other (proto : IPT.Protocol) (cs : chains) (key : string * string) :
  key ≠ (defaultIpTable, netmakerFilterChain) →
  key ≠ (defaultNatTable, netmakerNatChain) →
  key ≠ (defaultIpTable, iptableFWDChain) →
  key ≠ (defaultNatTable, nattablePRTChain) →
  bootstrapped proto cs !! key = cs !! key.
Proof. intros ????. open_boot. peel. reflexivity. Qed.

(** A second bootstrap leaves every chain with the rules of the first. *)
Lemma bootstrapped_twice (proto : IPT.Protocol) (cs : chains) (key : string * string) :
  option_Forall2 (≡ₚ) (bootstrapped proto (bootstrapped proto cs) !! key)
                      (bootstrapped proto cs !! key).
Proof.
  destruct (decide (key = (defaultIpTable, netmakerFilterChain))) as [->|?].
  { rewrite !bootstrapped_filter_chain. by constructor. }
  destruct (decide (key = (defaultNatTable, netmakerNatChain))) as [->|?].
  { rewrite !bootstrapped_nat_chain. by constructor. }
  destruct (decide (key = (defaultIpTable, iptableFWDChain))) as [->|?].
  { rewrite !bootstrapped_forward.
    destruct (cs !! (defaultIpTable, iptableFWDChain)); cbn; constructor.
    apply readd_twice_Permutation. }
  destruct (decide (key = (defaultNatTable, nattablePRTChain))) as [->|?].
  { rewrite !bootstrapped_postrouting.
    destruct (cs !! (defaultNatTable, nattablePRTChain)); cbn; constructor.
    apply readd_twice_Permutation. }
  rewrite !bootstrapped_other by done.
  destruct (cs !! key); by constructor.
Qed.

End Bootstrap.

Section BootstrapRun.
Context `{Settings}.
#[local] Existing Instance Netfilter.actuator.
Import Netfilter.

Lemma upd_sel (proto : IPT.Protocol) (s : state) : upd proto (sel proto s) s = s.
Proof. by destruct proto, s. Qed.

(** [shouldCreateChain] of [createChain]: the chain is not among the listed. *)
Lemma shouldCreateChain_spec (newChain : string) (l : list string) (b : bool) :
  foldl (λ b chain, if decide (chain = newChain) then false else b) b l
  = b && bool_decide (newChain ∉ l).
Proof.
  revert b. induction l as [|x l IH]; intros b; cbn [foldl].
  - rewrite bool_decide_true; [by destruct b | by apply not_elem_of_nil].
  - rewrite IH. destruct (decide (x = newChain)) as [->|Hx].
    + rewrite (bool_decide_false (newChain ∉ newChain :: l)).
      * by destruct b.
      * intros Hn. apply Hn. by left.
    + destruct b; [|done]. cbn. apply bool_decide_ext.
      rewrite not_elem_of_cons.
      split; [intros Hn; split; [congruence | exact Hn] | by intros [_ Hn]].
Qed.

Lemma listed_chain (table chain : string) (cs : chains) :
  chain ∈ IPT.chains (answer (IPT.ListChains IPT.ProtocolIPv4 table) cs)
  ↔ is_Some (cs !! (table, chain)).
Proof.
  cbn. rewrite list_elem_of_omap. split.
  - intros ([[t c] l] & Hin & Hsome). cbn in Hsome.
    case_decide; [|done]. simplify_eq.
    apply elem_of_map_to_list in Hin. by eexists.
  - intros [l Hl]. exists ((table, chain), l). split.
    + by apply elem_of_map_to_list.
    + cbn. by rewrite decide_True.
Qed.

Lemma createChain_netfilter (proto : IPT.Protocol) (table newChain : string)
    (i : iptablesManager) :
  (createChain proto table newChain i).1 = None ∧
  backend (createChain proto table newChain i).2
  = exec [IPT.NewChain proto table newChain] (backend i).
Proof.
  unfold createChain. run.
  cbn [act actuator step fst snd answer effect protoOf IPT.err IPT.chains].
  rewrite upd_sel, shouldCreateChain_spec. cbn [andb].
  pose proof (listed_chain table newChain (sel proto (backend i))) as Hl.
  cbn [answer IPT.chains] in Hl.
  unfold exec. cbn [foldl step snd protoOf effect].
  destruct (sel proto (backend i) !! (table, newChain)) as [l|] eqn:Hlook.
  - rewrite bool_decide_false by (intros Hn; apply Hn, Hl; by eexists).
    run. by rewrite upd_sel.
  - rewrite bool_decide_true
      by (intros Hin; apply Hl in Hin; destruct Hin; congruence).
    run. cbn [act actuator step fst snd answer effect protoOf IPT.err].
    by rewrite Hlook.
Qed.

Lemma settles_ret : settles (mret None) [].
Proof. by intros i. Qed.

Lemma settles_after (m : M unit) (k : M error) (c1 c2 : list IPT.call) :
  makesCalls m c1 → settles k c2 → settles (m ≫= λ _, k) (c1 ++ c2).
Proof.
  intros Hm Hk i. rewrite bind_eq.
  destruct (Hm i) as (_ & M2 & _). destruct (Hk (m i).2) as [K1 K2].
  split; [done|]. rewrite K2, M2. symmetry. apply exec_app.
Qed.

Lemma settles_then (m k : M error) (c1 c2 : list IPT.call) :
  settles m c1 → settles k c2 →
  settles (m ≫= λ err, if err is Some _ then mret err else k) (c1 ++ c2).
Proof.
  intros Hm Hk i. rewrite bind_eq.
  destruct (Hm i) as [M1 M2]. rewrite M1.
  destruct (Hk (m i).2) as [K1 K2].
  split; [done|]. rewrite K2, M2. symmetry. apply exec_app.
Qed.

Lemma createChain_settles (proto : IPT.Protocol) (table newChain : string) :
  settles (createChain proto table newChain) [IPT.NewChain proto table newChain].
Proof. intros i. apply createChain_netfilter. Qed.

Lemma CreateChains_settles : settles CreateChains bootCalls.
Proof.
  unfold CreateChains, bootCalls.
  apply settles_after; [apply removeJumpRules_calls|].
  apply settles_after; [apply cleanup_calls|].
  apply settles_after; [apply cleanup_calls|].
  apply settles_then; [apply createChain_settles|].
  apply settles_then; [apply createChain_settles|].
  apply settles_then; [apply createChain_settles|].
  apply settles_then; [apply createChain_settles|].
  apply settles_after; [apply addJumpRules_calls|].
  apply settles_ret.
Qed.

Lemma bootCalls_of_proto (proto : IPT.Protocol) :
  filter (λ c, protoOf c = proto) bootCalls = bootEffects proto.
Proof. by destruct proto. Qed.

(** On the firewall model [CreateChains] returns nil and leaves each
    protocol bootstrapped. *)
Lemma CreateChains_netfilter (i : iptablesManager) :
  (CreateChains i).1 = None ∧
  ∀ proto, sel proto (backend (CreateChains i).2)
           = bootstrapped proto (sel proto (backend i)).
Proof.
  destruct (CreateChains_settles i) as [R B]. split; [done|]. intros proto.
  rewrite B, sel_exec, bootCalls_of_proto. reflexivity.
Qed.

(** Two bootstraps in a row, on any three states they link. *)
Lemma bootstrapped_states (s0 s1 s2 : state) :
  (∀ proto, sel proto s1 = bootstrapped proto (sel proto s0)) →
  (∀ proto, sel proto s2 = bootstrapped proto (sel proto s1)) →
  same_rules s2 s1 ∧
  (∀ proto,
     sel proto s2 !! (defaultIpTable, netmakerFilterChain)
     = sel proto s1 !! (defaultIpTable, netmakerFilterChain) ∧
     sel proto s2 !! (defaultNatTable, netmakerNatChain)
     = sel proto s1 !! (defaultNatTable, netmakerNatChain)).
Proof.
  intros B1 B2. split.
  - intros proto key. rewrite B2, B1. apply bootstrapped_twice.
  - intros proto. rewrite B2, B1.
    by rewrite !bootstrapped_filter_chain, !bootstrapped_nat_chain.
Qed.

Lemma CreateChains_calls (i : iptablesManager) :
  ∃ more, calls (CreateChains i).2
          = (calls i ++ removeJumpCalls ++ cleanupCalls ++ more)%list.
Proof.
  destruct (CreateChains_after_flush i) as [more Hmore].
  destruct (FlushAll_calls i) as (Hflush & _).
  exists more. rewrite Hmore, Hflush. by rewrite <- !(assoc_L (++)).
Qed.

(** C7. On the firewall model, for every state of the firewall and every
    interface name: [CreateChains] returns nil, a second [CreateChains]
    right after it returns nil and leaves every chain of both protocols with
    the rules the first left, counted with multiplicity, so no jump rule is
    added a second time; the two custom chains hold exactly their static
    rules after either call.  Whatever the backend, the calls of
    [CreateChains] start with the removals of all jump rules and the
    clearing and deletion of both custom chains. *)
Theorem CreateChains_idempotent (i : iptablesManager) :
  (CreateChains i).1 = None ∧
  (CreateChains (CreateChains i).2).1 = None ∧
  same_rules (backend (CreateChains (CreateChains i).2).2)
             (backend (CreateChains i).2) ∧
  (∀ proto,
     sel proto (backend (CreateChains (CreateChains i).2).2)
       !! (defaultIpTable, netmakerFilterChain)
     = sel proto (backend (CreateChains i).2) !! (defaultIpTable, netmakerFilterChain) ∧
     sel proto (backend (CreateChains (CreateChains i).2).2)
       !! (defaultNatTable, netmakerNatChain)
     = sel proto (backend (CreateChains i).2) !! (defaultNatTable, netmakerNatChain)) ∧
  (∃ more, calls (CreateChains i).2
           = (calls i ++ removeJumpCalls ++ cleanupCalls ++ more)%list).
Proof.
  pose proof (CreateChains_netfilter i) as [R1 B1].
  pose proof (CreateChains_netfilter (CreateChains i).2) as [R2 B2].
  pose proof (bootstrapped_states _ _ _ B1 B2) as [S1 S2].
  exact (conj R1 (conj R2 (conj S1 (conj S2 (CreateChains_calls i))))).
Qed.

End BootstrapRun.

(** ** The theorems at concrete inputs *)

Section Examples.
#[local] Existing Instance Netfilter.actuator.
#[local] Existing Instance textual.
#[local] Existing Instance netmaker_settings.
#[local] Existing Instance sorted_range.
Import Netfilter.

Lemma netfilter_removalsSucceed : removalsSucceed.
Proof. intros c w Hc. by destruct c. Qed.

Lemma RemoveRoutingRules_not_found_witness :
  (FetchRuleTable "server1" "ingress" freshManager).1 !! "clientC" = None ∧
  (RemoveRoutingRules "server1" "ingress" "clientC" freshManager).1
    = Some "peer not found in rule table: clientC" ∧
  calls (RemoveRoutingRules "server1" "ingress" "clientC" freshManager).2 = [].
Proof.
  split; [reflexivity|].
  destruct (RemoveRoutingRules_not_found "server1" "ingress" "clientC" freshManager)
    as (Herr & _ & _ & Hcalls & _); [reflexivity|].
  split; [exact Herr | exact Hcalls].
Defined.

Lemma AddIngressRoutingRule_needs_entry_witness :
  clientsOf "server1" freshManager !! "clientC" = None ∧
  (AddIngressRoutingRule "server1" "clientC" v6Peer freshManager).1
    = Panicked "assignment to entry in nil map".
Proof.
  split; [reflexivity|].
  destruct (AddIngressRoutingRule_needs_entry "server1" "clientC" v6Peer freshManager)
    as [_ Hpanic]; [reflexivity|].
  apply (Hpanic true). reflexivity.
Defined.

(** C3, as stated, fails: on a manager with no table for the server, an
    address that does not parse leaves the server with a new, empty table. *)
Lemma malformed_address_creates_server_entry :
  ParsePrefix (IPNet_String (PeerAddr nilAddrPeer))
    = inr "netip.ParsePrefix(<nil>): no '/'" ∧
  ParsePrefix (IPNet_String (ExtPeerAddr nilAddrClient))
    = inr "netip.ParsePrefix(<nil>): no '/'" ∧
  ingRules freshManager !! "server1" = None ∧
  ingRules (AddIngressRoutingRule "server1" "clientC" nilAddrPeer freshManager).2
    !! "server1" = Some ∅ ∧
  ingRules (InsertIngressRoutingRules "server1" nilAddrClient freshManager).2
    !! "server1" = Some ∅.
Proof. split_and!; vm_compute; reflexivity. Qed.

Lemma malformed_address_keeps_entries_witness :
  ParsePrefix (IPNet_String (PeerAddr nilAddrPeer))
    = inr "netip.ParsePrefix(<nil>): no '/'" ∧
  ParsePrefix (IPNet_String (ExtPeerAddr nilAddrClient))
    = inr "netip.ParsePrefix(<nil>): no '/'" ∧
  onlyWrittenBack "server1" authorizedOnce
    (AddIngressRoutingRule "server1" "clientC" nilAddrPeer authorizedOnce).2 ∧
  onlyWrittenBack "server1" authorizedOnce
    (InsertIngressRoutingRules "server1" nilAddrClient authorizedOnce).2.
Proof.
  split; [reflexivity|]. split; [reflexivity|].
  destruct (malformed_address_keeps_entries "server1" "clientC" nilAddrPeer
              nilAddrClient _ _ authorizedOnce eq_refl eq_refl)
    as [[_ Hadd] [_ Hins]].
  split; [exact Hadd | exact Hins].
Defined.

(** C8, as stated, fails: the key of a denied peer holds a Rule Group when it
    is the client's own key (the NAT rules) or the key of an allowed peer. *)
Lemma denied_peer_key_holds_group :
  Forall (λ q, Allow q = false) (Peers ownKeyClient) ∧
  groupOf "server1" "clientC" "clientC"
    (InsertIngressRoutingRules "server1" ownKeyClient freshManager).2
    = Some [masqueradeRule masqueradeS; masqueradeRule masqueradeD] ∧
  Peers sharedKeyClient !! 0 = Some (MkPeerExtInfo "10.0.0.7/32" "peerA" false) ∧
  groupOf "server1" "clientC" "peerA"
    (InsertIngressRoutingRules "server1" sharedKeyClient freshManager).2
    = Some [acceptRule acceptB].
Proof.
  split_and!; [|vm_compute; reflexivity|reflexivity|vm_compute; reflexivity].
  repeat constructor.
Qed.

Lemma denied_peer_gets_no_rule_witness :
  ParsePrefix (IPNet_String (ExtPeerAddr mixedClient)) = inl false ∧
  deniedB ∈ Peers mixedClient ∧
  calls (InsertIngressRoutingRules "server1" mixedClient freshManager).2 =
    [IPT.Insert ipv4Client defaultIpTable netmakerFilterChain 1 acceptA;
     IPT.Insert ipv4Client defaultNatTable netmakerNatChain 1 masqueradeS;
     IPT.Insert ipv4Client defaultNatTable netmakerNatChain 1 masqueradeD] ∧
  groupOf "server1" "clientC" "peerB"
    (InsertIngressRoutingRules "server1" mixedClient freshManager).2 = None.
Proof.
  assert (Hin : deniedB ∈ Peers mixedClient)
    by (right; left).
  split; [reflexivity|]. split; [exact Hin|].
  destruct (denied_peer_gets_no_rule "server1" mixedClient
              deniedB false freshManager)
    as (_ & Hcalls & Hgroup).
  - reflexivity.
  - exact Hin.
  - reflexivity.
  - intros q Hq Hallow.
    apply elem_of_cons in Hq as [->|Hq]; [by vm_compute|].
    apply elem_of_cons in Hq as [->|Hq]; [by vm_compute in Hallow|].
    by apply elem_of_nil in Hq.
  - intros _. by vm_compute.
  - split; [exact Hcalls | exact Hgroup].
Defined.

(** C5, as stated, fails: with two allowed peers under one key, a key apart
    from the client's, the removal makes three calls, not [|P| + 2 = 4]. *)
Lemma twin_keys_three_removals :
  Masquerade twinKeyClient = true ∧
  Forall (λ q, Allow q = true) (Peers twinKeyClient) ∧
  (ExtPeerKey twinKeyClient ∉ (PeerKey <$> Peers twinKeyClient)) ∧
  length (Peers twinKeyClient) + 2 = 4 ∧
  (RemoveRoutingRules "server1" "ingress" "clientC"
     (InsertIngressRoutingRules "server1" twinKeyClient freshManager).2).1 = None ∧
  calls (RemoveRoutingRules "server1" "ingress" "clientC"
           (InsertIngressRoutingRules "server1" twinKeyClient freshManager).2).2
  = (calls (InsertIngressRoutingRules "server1" twinKeyClient freshManager).2
     ++ [IPT.DeleteIfExists ipv4Client defaultNatTable netmakerNatChain masqueradeS;
         IPT.DeleteIfExists ipv4Client defaultNatTable netmakerNatChain masqueradeD;
         IPT.DeleteIfExists ipv4Client defaultIpTable netmakerFilterChain acceptB])%list.
Proof.
  split_and!; [reflexivity| | |reflexivity|vm_compute; reflexivity|vm_compute; reflexivity].
  - repeat constructor.
  - intros Hin. vm_compute in Hin.
    apply elem_of_cons in Hin as [Hin|Hin]; [discriminate|].
    apply elem_of_cons in Hin as [Hin|Hin]; [discriminate|].
    by apply elem_of_nil in Hin.
Qed.

Lemma authorize_then_remove_witness :
  ParsePrefix (IPNet_String (ExtPeerAddr twoPeerClient)) = inl false ∧
  Masquerade twoPeerClient = true ∧
  Forall (λ q, Allow q = true) (Peers twoPeerClient) ∧
  NoDup (PeerKey <$> Peers twoPeerClient) ∧
  (ExtPeerKey twoPeerClient ∉ (PeerKey <$> Peers twoPeerClient)) ∧
  clientsOf "server1"
    (RemoveRoutingRules "server1" "ingress" "clientC"
       (InsertIngressRoutingRules "server1" twoPeerClient freshManager).2).2
    !! "clientC" = None ∧
  length (map (deleteCall ipv4Client) (rulesInRange (recordedGroups twoPeerClient)))
  = 4.
Proof.
  assert (Hallow : Forall (λ q, Allow q = true) (Peers twoPeerClient))
    by (repeat constructor).
  assert (Hnodup : NoDup (PeerKey <$> Peers twoPeerClient))
    by (apply (bool_decide_unpack _); vm_compute; exact I).
  assert (Hown : ExtPeerKey twoPeerClient ∉ (PeerKey <$> Peers twoPeerClient))
    by (apply (bool_decide_unpack _); vm_compute; exact I).
  split; [reflexivity|]. split; [reflexivity|].
  split; [exact Hallow|]. split; [exact Hnodup|]. split; [exact Hown|].
  destruct (authorize_then_remove "server1" twoPeerClient false freshManager
              eq_refl eq_refl Hallow Hnodup Hown netfilter_removalsSucceed)
    as (_ & _ & Hentry & _ & Hlen).
  split; [exact Hentry | exact Hlen].
Defined.

Lemma DeleteRoutingRule_keeps_group_witness :
  clientsOf "server1" authorizedOnce !! "clientC"
    = Some (RulesCfg true (Some (recordedGroups twoPeerClient))) ∧
  groupOf "server1" "clientC" "peerA" authorizedOnce = Some [acceptRule acceptA] ∧
  (DeleteRoutingRule "server1" "ingress" "clientC" "peerA" authorizedOnce).1 = None ∧
  groupOf "server1" "clientC" "peerA"
    (DeleteRoutingRule "server1" "ingress" "clientC" "peerA" authorizedOnce).2
    = Some [acceptRule acceptA].
Proof.
  assert (Hcfg : clientsOf "server1" authorizedOnce !! "clientC"
                 = Some (RulesCfg true (Some (recordedGroups twoPeerClient))))
    by (vm_compute; reflexivity).
  assert (Hgroup : groupOf "server1" "clientC" "peerA" authorizedOnce
                   = Some [acceptRule acceptA])
    by (vm_compute; reflexivity).
  split; [exact Hcfg|]. split; [exact Hgroup|].
  destruct (DeleteRoutingRule_keeps_group "server1" "clientC" "peerA" _ _
              authorizedOnce netfilter_removalsSucceed Hcfg Hgroup)
    as (Hres & _ & _ & Hkept).
  split; [exact Hres | exact Hkept].
Defined.

Lemma family_flag_mismatch_witness :
  ParsePrefix (IPNet_String (ExtPeerAddr v4Client)) = inl false ∧
  ParsePrefix (IPNet_String (PeerAddr v6Peer)) = inl true ∧
  ¬ familyConsistent
      (AddIngressRoutingRule "server1" (ExtPeerKey v4Client) v6Peer
         (InsertIngressRoutingRules "server1" v4Client bootedManager).2).2.
Proof.
  split; [reflexivity|]. split; [reflexivity|].
  destruct (family_flag_mismatch "server1" v4Client v6Peer false true bootedManager
              eq_refl eq_refl eq_refl eq_refl) as (_ & _ & _ & _ & Hbad).
  exact Hbad.
Defined.

(** The rule of the IPv6 peer, recorded under the IPv4 client, outlives the
    removal of the client: the removal goes to the IPv4 client of iptables,
    the rule stays in the IPv6 chain, and the table no longer knows it. *)
Lemma family_mismatch_leaks_rule :
  (RemoveRoutingRules "server1" "ingress" "clientC"
     (AddIngressRoutingRule "server1" "clientC" v6Peer
        (InsertIngressRoutingRules "server1" v4Client bootedManager).2).2).1 = None ∧
  clientsOf "server1"
    (RemoveRoutingRules "server1" "ingress" "clientC"
       (AddIngressRoutingRule "server1" "clientC" v6Peer
          (InsertIngressRoutingRules "server1" v4Client bootedManager).2).2).2
    !! "clientC" = None ∧
  sel ipv6Client
    (backend
       (RemoveRoutingRules "server1" "ingress" "clientC"
          (AddIngressRoutingRule "server1" "clientC" v6Peer
             (InsertIngressRoutingRules "server1" v4Client bootedManager).2).2).2)
    !! (defaultIpTable, netmakerFilterChain)
  = Some [["-d"; "fd00::7/128"; "-j"; "ACCEPT"]; dropRule; returnRule].
Proof. split_and!; vm_compute; reflexivity. Qed.

(** C4. On the firewall model, after [CreateChains] on the pristine
    firewall: one [InsertIngressRoutingRules] puts each rule of the client
    into its chain once, the same call again puts each of them there a second
    time, while the client's entry in the rule table is the same as after one
    call; a [RemoveRoutingRules] then returns nil, drops the entry, and
    leaves one copy of every rule in the firewall. *)
Theorem reapplied_rules_are_duplicated :
  sel ipv4Client (backend authorizedOnce) !! (defaultIpTable, netmakerFilterChain)
    = Some [acceptB; acceptA; dropRule; returnRule] ∧
  sel ipv4Client (backend authorizedTwice) !! (defaultIpTable, netmakerFilterChain)
    = Some [acceptB; acceptA; acceptB; acceptA; dropRule; returnRule] ∧
  sel ipv4Client (backend authorizedTwice) !! (defaultNatTable, netmakerNatChain)
    = Some [masqueradeD; masqueradeS; masqueradeD; masqueradeS; ["-j"; "RETURN"]] ∧
  clientsOf "server1" authorizedTwice = clientsOf "server1" authorizedOnce ∧
  (RemoveRoutingRules "server1" "ingress" "clientC" authorizedTwice).1 = None ∧
  clientsOf "server1"
    (RemoveRoutingRules "server1" "ingress" "clientC" authorizedTwice).2
    !! "clientC" = None ∧
  sel ipv4Client
    (backend (RemoveRoutingRules "server1" "ingress" "clientC" authorizedTwice).2)
    !! (defaultIpTable, netmakerFilterChain)
  = Some [acceptB; acceptA; dropRule; returnRule].
Proof. split_and!; vm_compute; reflexivity. Qed.

(** From the pristine firewall, one and two [CreateChains] leave exactly one
    jump rule in each built-in chain. *)
Lemma CreateChains_twice_pristine :
  backend (CreateChains (CreateChains freshManager).2).2
    = backend (CreateChains freshManager).2 ∧
  sel ipv4Client (backend (CreateChains freshManager).2)
    !! (defaultIpTable, iptableFWDChain)
  = Some [["-i"; "netmaker"; "-j"; "netmakerfilter"]].
Proof. split; vm_compute; reflexivity. Qed.

End Examples.

Section FailingExamples.
#[local] Existing Instance failing.
#[local] Existing Instance textual.
#[local] Existing Instance netmaker_settings.
#[local] Existing Instance sorted_range.

(** On a backend that fails the removal, [RemoveRoutingRules] stops at the
    first call, returns its error and keeps the client's entry. *)
Lemma failed_removal_keeps_entry :
  (RemoveRoutingRules "server1" "ingress" "clientC" authorizedOnFailing).1
    = Some ("iptables: error while removing existing nat rules "
            +:+ "[[-s 10.0.0.5/32 -o netmaker -j MASQUERADE]] for clientC: "
            +:+ "exit status 4") ∧
  length (calls (RemoveRoutingRules "server1" "ingress" "clientC"
                   authorizedOnFailing).2)
    = length (calls authorizedOnFailing) + 1 ∧
  is_Some (clientsOf "server1"
             (RemoveRoutingRules "server1" "ingress" "clientC"
                authorizedOnFailing).2 !! "clientC").
Proof.
  split_and!; [vm_compute; reflexivity | vm_compute; reflexivity |].
  apply (bool_decide_unpack _). vm_compute. exact I.
Qed.

End FailingExamples.

(** * Further properties of the manager *)

(** ** [createChain] and [CreateChains] on any backend *)

Section ChainCreation.
Context `{Actuator, Settings}.

Lemma createChain_on_list_error
    (proto : IPT.Protocol) (table newChain e : string) (i : iptablesManager) :
  IPT.err (act (IPT.ListChains proto table) (backend i)).1 = Some e →
  (createChain proto table newChain i).1 = Some (listError proto table e) ∧
  calls (createChain proto table newChain i).2
    = (calls i ++ [IPT.ListChains proto table])%list ∧
  ingRules (createChain proto table newChain i).2 = ingRules i.
Proof.
  intros Herr. unfold createChain. run. rewrite Herr. by run.
Qed.

(** X1. When listing the chains fails, [createChain] returns the wrapped error
    and stops: the listing is its only call. *)
Theorem createChain_list_failure
    (proto : IPT.Protocol) (table newChain e : string) (i : iptablesManager) :
  IPT.err (act (IPT.ListChains proto table) (backend i)).1 = Some e →
  (createChain proto table newChain i).1 = Some (listError proto table e) ∧
  calls (createChain proto table newChain i).2
    = (calls i ++ [IPT.ListChains proto table])%list ∧
  ingRules (createChain proto table newChain i).2 = ingRules i.
Proof. apply createChain_on_list_error. Qed.

Lemma createChain_on_listing
    (proto : IPT.Protocol) (table newChain : string) (i : iptablesManager) :
  IPT.err (act (IPT.ListChains proto table) (backend i)).1 = None →
  calls (createChain proto table newChain i).2
    = (calls i ++ IPT.ListChains proto table ::
        (if bool_decide (newChain ∈ IPT.chains (act (IPT.ListChains proto table)
                                                   (backend i)).1)
         then [] else [IPT.NewChain proto table newChain]))%list ∧
  (createChain proto table newChain i).1
    = (if bool_decide (newChain ∈ IPT.chains (act (IPT.ListChains proto table)
                                                 (backend i)).1)
       then None
       else createError proto newChain table <$>
              IPT.err (act (IPT.NewChain proto table newChain)
                           (act (IPT.ListChains proto table) (backend i)).2).1) ∧
  ingRules (createChain proto table newChain i).2 = ingRules i.
Proof.
  intros Herr. unfold createChain. run. rewrite Herr.
  rewrite shouldCreateChain_spec. cbn [andb].
  destruct (decide (newChain ∈ IPT.chains (act (IPT.ListChains proto table)
                                              (backend i)).1)) as [Hin|Hnin].
  - rewrite (bool_decide_true _ Hin), bool_decide_false by auto. by run.
  - rewrite (bool_decide_false _ Hnin), bool_decide_true by done. run.
    destruct (IPT.err (act (IPT.NewChain proto table newChain) _).1);
      cbn [fmap option_fmap option_map];
      rewrite ret_eq; cbn [fst snd calls ingRules];
      by rewrite <- (assoc_L (++)).
Qed.

(** X2. When the listing succeeds, [createChain] calls [NewChain] exactly when
    the chain is not among the listed ones: a listed chain gives nil after
    the listing alone, a missing one gives what [NewChain] answers. *)
Theorem createChain_creates_missing_only
    (proto : IPT.Protocol) (table newChain : string) (i : iptablesManager) :
  IPT.err (act (IPT.ListChains proto table) (backend i)).1 = None →
  calls (createChain proto table newChain i).2
    = (calls i ++ IPT.ListChains proto table ::
        (if bool_decide (newChain ∈ IPT.chains (act (IPT.ListChains proto table)
                                                   (backend i)).1)
         then [] else [IPT.NewChain proto table newChain]))%list ∧
  (createChain proto table newChain i).1
    = (if bool_decide (newChain ∈ IPT.chains (act (IPT.ListChains proto table)
                                                 (backend i)).1)
       then None
       else createError proto newChain table <$>
              IPT.err (act (IPT.NewChain proto table newChain)
                           (act (IPT.ListChains proto table) (backend i)).2).1) ∧
  ingRules (createChain proto table newChain i).2 = ingRules i.
Proof. apply createChain_on_listing. Qed.

(** The calls of one [createChain] are chain queries, and it keeps the rule
    table. *)
Lemma createChain_queries (proto : IPT.Protocol) (table newChain : string)
    (i : iptablesManager) :
  ∃ q, Forall (λ c, is_chain_query c = true) q ∧
       calls (createChain proto table newChain i).2 = (calls i ++ q)%list ∧
       ingRules (createChain proto table newChain i).2 = ingRules i.
Proof.
  destruct (IPT.err (act (IPT.ListChains proto table) (backend i)).1) as [e|] eqn:Herr.
  - destruct (createChain_on_list_error proto table newChain e i Herr) as (_ & Hc & Hr).
    eexists. split; [|by split]. by repeat constructor.
  - destruct (createChain_on_listing proto table newChain i Herr)
      as (Hc & _ & Hr).
    eexists. split; [|by split].
    case_bool_decide; by repeat constructor.
Qed.

Lemma CreateChains_shape (i : iptablesManager) :
  ingRules (CreateChains i).2 = ingRules i ∧
  ∃ mid, Forall (λ c, is_chain_query c = true) mid ∧
         calls (CreateChains i).2
         = (calls i ++ removeJumpCalls ++ cleanupCalls ++ mid ++
            (if (CreateChains i).1 is None then appendJumpCalls else []))%list.
Proof.
  unfold CreateChains. rewrite !bind_eq.
  destruct (FlushAll_calls i) as (F1 & _ & F3).
  unfold FlushAll in F1, F3. rewrite !bind_eq in F1, F3.
  set (i3 := (cleanup defaultNatTable netmakerNatChain
                (cleanup defaultIpTable netmakerFilterChain
                   (removeJumpRules i).2).2).2) in *.
  destruct (createChain_queries ipv4Client defaultIpTable netmakerFilterChain i3)
    as (q4 & Q4 & C4 & R4).
  set (i4 := (createChain ipv4Client defaultIpTable netmakerFilterChain i3).2) in *.
  destruct ((createChain ipv4Client defaultIpTable netmakerFilterChain i3).1).
  { cbn. split; [congruence|]. exists q4. split; [done|].
    by rewrite C4, F1, app_nil_r, <- !(assoc_L (++)). }
  rewrite bind_eq.
  destruct (createChain_queries ipv4Client defaultNatTable netmakerNatChain i4)
    as (q5 & Q5 & C5 & R5).
  set (i5 := (createChain ipv4Client defaultNatTable netmakerNatChain i4).2) in *.
  destruct ((createChain ipv4Client defaultNatTable netmakerNatChain i4).1).
  { cbn. split; [congruence|]. exists (q4 ++ q5)%list. split; [by apply Forall_app|].
    by rewrite C5, C4, F1, app_nil_r, <- !(assoc_L (++)). }
  rewrite bind_eq.
  destruct (createChain_queries ipv6Client defaultIpTable netmakerFilterChain i5)
    as (q6 & Q6 & C6 & R6).
  set (i6 := (createChain ipv6Client defaultIpTable netmakerFilterChain i5).2) in *.
  destruct ((createChain ipv6Client defaultIpTable netmakerFilterChain i5).1).
  { cbn. split; [congruence|]. exists (q4 ++ q5 ++ q6)%list.
    split; [by repeat apply Forall_app_2|].
    by rewrite C6, C5, C4, F1, app_nil_r, <- !(assoc_L (++)). }
  rewrite bind_eq.
  destruct (createChain_queries ipv6Client defaultNatTable netmakerNatChain i6)
    as (q7 & Q7 & C7 & R7).
  set (i7 := (createChain ipv6Client defaultNatTable netmakerNatChain i6).2) in *.
  destruct ((createChain ipv6Client defaultNatTable netmakerNatChain i6).1).
  { cbn. split; [congruence|]. exists (q4 ++ q5 ++ q6 ++ q7)%list.
    split; [by repeat apply Forall_app_2|].
    by rewrite C7, C6, C5, C4, F1, app_nil_r, <- !(assoc_L (++)). }
  rewrite bind_eq. cbn [fst snd mret M_ret].
  destruct (addJumpRules_calls i7) as (A1 & _ & A3).
  split; [congruence|]. exists (q4 ++ q5 ++ q6 ++ q7)%list.
  split; [by repeat apply Forall_app_2|].
  by rewrite A1, C7, C6, C5, C4, F1, <- !(assoc_L (++)).
Qed.

(** X3. [CreateChains] first removes the jump rules and clears both custom
    chains, then makes chain queries only, and appends the jump rules exactly
    when it returns nil: after an error return no jump rule has been added
    back.  The rule table is never touched. *)
Theorem CreateChains_appends_on_success_only (i : iptablesManager) :
  ingRules (CreateChains i).2 = ingRules i ∧
  ∃ mid, Forall (λ c, is_chain_query c = true) mid ∧
         calls (CreateChains i).2
         = (calls i ++ removeJumpCalls ++ cleanupCalls ++ mid ++
            (if (CreateChains i).1 is None then appendJumpCalls else []))%list.
Proof. apply CreateChains_shape. Qed.

End ChainCreation.

(** ** The outcomes of [RemoveRoutingRules] on any backend *)

Section RemovalOutcomes.
Context `{Actuator, Netip, Settings, MapRange}.

(** The inner loop makes the removal calls of the rules in order and stops
    at the first that fails. *)
Lemma deleteRules_prefix (iptablesClient : IPT.Protocol) (peerKey : string)
    (rules : list ruleInfo) (i : iptablesManager) :
  ∃ n, calls (deleteRules iptablesClient peerKey rules i).2
       = (calls i ++ map (deleteCall iptablesClient) (take n rules))%list ∧
       ingRules (deleteRules iptablesClient peerKey rules i).2 = ingRules i ∧
       ((deleteRules iptablesClient peerKey rules i).1 = None → take n rules = rules) ∧
       (∀ e, (deleteRules iptablesClient peerKey rules i).1 = Some e →
             ∃ r e', r ∈ rules ∧ e = removalError r peerKey e').
Proof.
  revert i. induction rules as [|r rest IH]; intros i.
  - exists 0. cbn. rewrite app_nil_r. by split_and!.
  - cbn [deleteRules]. rewrite bind_eq, invoke_eq. cbn [fst snd].
    destruct (IPT.err (act (IPT.DeleteIfExists iptablesClient (table r) (chain r) (rule r))
                           (backend i)).1) as [e'|].
    + exists 1. rewrite ret_eq. cbn. split_and!; [done|done|done|].
      intros e [= <-]. exists r, e'. split; [by left|done].
    + destruct (IH (Manager
                      (act (IPT.DeleteIfExists iptablesClient (table r) (chain r) (rule r))
                           (backend i)).2
                      (calls i ++ [IPT.DeleteIfExists iptablesClient (table r) (chain r) (rule r)])
                      (ingRules i))) as (n & C & R & Hnone & Hsome).
      exists (S n). rewrite C, R. cbn [calls ingRules take map].
      split_and!; [by rewrite <- (assoc_L (++)) | done | |].
      * intros Hres. by rewrite (Hnone Hres).
      * intros e He. destruct (Hsome e He) as (r' & e' & Hin & ->).
        exists r', e'. split; [by right|done].
Qed.

Lemma deleteGroups_prefix (iptablesClient : IPT.Protocol) (peerKey : string)
    (groups : list (string * list ruleInfo)) (i : iptablesManager) :
  ∃ n, calls (deleteGroups iptablesClient peerKey groups i).2
       = (calls i ++ map (deleteCall iptablesClient) (take n (concat groups.*2)))%list ∧
       ingRules (deleteGroups iptablesClient peerKey groups i).2 = ingRules i ∧
       ((deleteGroups iptablesClient peerKey groups i).1 = None →
        take n (concat groups.*2) = concat groups.*2) ∧
       (∀ e, (deleteGroups iptablesClient peerKey groups i).1 = Some e →
             ∃ r e', r ∈ concat groups.*2 ∧ e = removalError r peerKey e').
Proof.
  revert i. induction groups as [|[k rules] rest IH]; intros i.
  - exists 0. cbn. rewrite app_nil_r. by split_and!.
  - cbn [deleteGroups fmap list_fmap snd concat]. rewrite bind_eq.
    destruct (deleteRules_prefix iptablesClient peerKey rules i)
      as (n & C & R & Hnone & Hsome).
    destruct ((deleteRules iptablesClient peerKey rules i).1) as [e|] eqn:Hres.
    + exists (length (take n rules)). rewrite ret_eq. cbn [fst snd].
      assert (Htake : take (length (take n rules)) (rules ++ concat rest.*2)
                      = take n rules).
      { rewrite <- (take_drop n rules) at 2. rewrite <- (assoc_L (++)).
        apply take_app_length. }
      rewrite C, R, Htake. split_and!; [done|done|done|].
      intros e0 [= <-]. destruct (Hsome e eq_refl) as (r & e' & Hin & ->).
      exists r, e'. split; [|done]. apply elem_of_app. by left.
    + destruct (IH (deleteRules iptablesClient peerKey rules i).2)
        as (m & C' & R' & Hnone' & Hsome').
      exists (length rules + m). rewrite C', R', C, R, (Hnone eq_refl).
      rewrite take_app_add. rewrite map_app, <- (assoc_L (++)).
      split_and!; [done|done| |].
      * intros Hn. by rewrite (Hnone' Hn).
      * intros e He. destruct (Hsome' e He) as (r & e' & Hin & ->).
        exists r, e'. split; [|done]. apply elem_of_app. by right.
Qed.

(** X4. A nil return of [RemoveRoutingRules] means: the client had an entry,
    every rule recorded in it got its removal call on the client of the
    entry's flag, the entry is gone, and no other entry of any server
    changed. *)
Theorem RemoveRoutingRules_nil_return
    (server peerKey : string) (i : iptablesManager) :
  (RemoveRoutingRules server ingressTable peerKey i).1 = None →
  ∃ cfg,
    clientsOf server i !! peerKey = Some cfg ∧
    calls (RemoveRoutingRules server ingressTable peerKey i).2
    = (calls i ++
       map (deleteCall (if isIpv4 cfg then ipv4Client else ipv6Client))
           (rulesInRange (default ∅ (rulesMap cfg))))%list ∧
    clientsOf server (RemoveRoutingRules server ingressTable peerKey i).2
    = delete peerKey (clientsOf server i) ∧
    (∀ s, s ≠ server →
          clientsOf s (RemoveRoutingRules server ingressTable peerKey i).2
          = clientsOf s i).
Proof.
  unfold RemoveRoutingRules.
  rewrite bind_eq, FetchRuleTable_ingress. cbn [fst snd].
  destruct (clientsOf server i !! peerKey) as [cfg|]; [|by run].
  rewrite !bind_eq.
  destruct (deleteGroups_prefix (if isIpv4 cfg then ipv4Client else ipv6Client)
              peerKey (range (default ∅ (rulesMap cfg))) i)
    as (n & C & R & Hnone & _).
  destruct ((deleteGroups (if isIpv4 cfg then ipv4Client else ipv6Client)
               peerKey (range (default ∅ (rulesMap cfg))) i).1) eqn:Hres.
  { rewrite ret_eq. cbn [fst snd]. rewrite bind_eq, ret_eq. done. }
  rewrite ret_eq. cbn [fst snd]. rewrite bind_eq, ret_eq, SaveRules_ingress.
  cbn [fst snd]. intros _. exists cfg.
  split; [done|]. split; [|split].
  - cbn [calls]. rewrite C, (Hnone eq_refl). done.
  - unfold clientsOf at 1. cbn [ingRules]. by rewrite lookup_insert_eq.
  - intros s Hs. unfold clientsOf at 1. cbn [ingRules].
    rewrite lookup_insert_ne by done. by rewrite R.
Qed.

(** X5. An error return of [RemoveRoutingRules] changes no entry of any server:
    after a failed removal the client's entry still lists all its groups,
    those whose rules were already removed included.  The calls made are
    removal calls, and the error is the not-found message or names a
    recorded rule of the client. *)
Theorem RemoveRoutingRules_error_return
    (server peerKey e : string) (i : iptablesManager) :
  (RemoveRoutingRules server ingressTable peerKey i).1 = Some e →
  (∀ s, clientsOf s (RemoveRoutingRules server ingressTable peerKey i).2
        = clientsOf s i) ∧
  (∃ more, calls (RemoveRoutingRules server ingressTable peerKey i).2
           = (calls i ++ more)%list ∧
           Forall (λ c, IPT.is_delete c = true) more) ∧
  (e = "peer not found in rule table: " +:+ peerKey ∨
   ∃ cfg r e', clientsOf server i !! peerKey = Some cfg ∧
               r ∈ rulesInRange (default ∅ (rulesMap cfg)) ∧
               e = removalError r peerKey e').
Proof.
  unfold RemoveRoutingRules.
  rewrite bind_eq, FetchRuleTable_ingress. cbn [fst snd].
  destruct (clientsOf server i !! peerKey) as [cfg|] eqn:Hcfg.
  - rewrite !bind_eq.
    destruct (deleteGroups_prefix (if isIpv4 cfg then ipv4Client else ipv6Client)
                peerKey (range (default ∅ (rulesMap cfg))) i)
      as (n & C & R & _ & Hsome).
    destruct ((deleteGroups (if isIpv4 cfg then ipv4Client else ipv6Client)
                 peerKey (range (default ∅ (rulesMap cfg))) i).1) as [e0|] eqn:Hres.
    + rewrite ret_eq. cbn [fst snd]. rewrite bind_eq, ret_eq, SaveRules_ingress.
      cbn [fst snd]. intros [= <-]. split_and!.
      * intros s. unfold clientsOf at 1. cbn [ingRules]. rewrite R.
        destruct (decide (server = s)) as [->|Hne].
        -- by rewrite lookup_insert_eq.
        -- by rewrite lookup_insert_ne.
      * eexists. split; [exact C|]. apply Forall_forall.
        intros c Hc. apply list_elem_of_fmap in Hc as (r & -> & _). done.
      * right. destruct (Hsome e0 eq_refl) as (r & e' & Hin & ->).
        by exists cfg, r, e'.
    + rewrite ret_eq. cbn [fst snd]. rewrite bind_eq, ret_eq. done.
  - run. rewrite SaveRules_ingress. cbn [fst snd]. intros [= <-]. split_and!.
    + intros s. apply clientsOf_save_fetched.
    + exists []. by rewrite app_nil_r.
    + by left.
Qed.

End RemovalOutcomes.

(** ** What the two authorizing methods record and call *)

Section Recording.
Context `{Actuator, Netip, Settings, MapRange}.

(** X6. [InsertIngressRoutingRules] replaces the client's entry wholesale: after
    it the entry holds the groups of this call, whatever was recorded for the
    client before; every other client of the server and every other server
    keep their entries.  Its calls are inserts at position 1 on the one
    client chosen from the client's address: no rule of a previous entry is
    removed from the firewall. *)
Theorem InsertIngressRoutingRules_replaces_entry
    (server : string) (extinfo : ExtClientInfo) (prefix : Prefix)
    (i : iptablesManager) :
  ParsePrefix (IPNet_String (ExtPeerAddr extinfo)) = inl prefix →
  clientsOf server (InsertIngressRoutingRules server extinfo i).2
    !! ExtPeerKey extinfo
  = Some (RulesCfg (negb (Unmap_Is6 prefix)) (Some (recordedGroups extinfo))) ∧
  (∀ key, key ≠ ExtPeerKey extinfo →
     clientsOf server (InsertIngressRoutingRules server extinfo i).2 !! key
     = clientsOf server i !! key) ∧
  (∀ s, s ≠ server →
     clientsOf s (InsertIngressRoutingRules server extinfo i).2 = clientsOf s i) ∧
  (∃ more,
     calls (InsertIngressRoutingRules server extinfo i).2 = (calls i ++ more)%list ∧
     Forall (λ c, ∃ table chain ruleSpec,
                    c = IPT.Insert (clientFor prefix) table chain 1 ruleSpec) more).
Proof.
  intros Hparse.
  destruct (InsertIngressRoutingRules_run server extinfo prefix i Hparse)
    as (_ & Hcalls & Hing). cbn zeta in Hing.
  split_and!.
  - unfold clientsOf. rewrite Hing, lookup_insert_eq. cbn.
    by rewrite lookup_insert_eq.
  - intros key Hkey. unfold clientsOf at 1. rewrite Hing, lookup_insert_eq. cbn.
    by rewrite lookup_insert_ne.
  - intros s Hs. unfold clientsOf at 1. rewrite Hing.
    by rewrite lookup_insert_ne.
  - eexists. split; [exact Hcalls|]. apply Forall_app. split.
    + unfold peerInsertCalls. apply Forall_forall. intros c Hc.
      apply list_elem_of_fmap in Hc as (q & -> & _). by eexists _, _, _.
    + unfold natInsertCalls. destruct (Masquerade extinfo); [|done].
      repeat constructor; by eexists _, _, _.
Qed.

(** X7. [AddIngressRoutingRule] inserts the rule into the firewall, on the client
    of the peer's family, before it looks at the table: the call is made
    whether or not the client has an entry.  Without an entry (the method
    then panics) no entry of any server changes, so the inserted rule is
    recorded nowhere. *)
Theorem AddIngressRoutingRule_inserts_first
    (server extPeerKey : string) (peerInfo : PeerExtInfo) (prefix : Prefix)
    (i : iptablesManager) :
  ParsePrefix (IPNet_String (PeerAddr peerInfo)) = inl prefix →
  calls (AddIngressRoutingRule server extPeerKey peerInfo i).2
  = (calls i ++
     [IPT.Insert (clientFor prefix) defaultIpTable netmakerFilterChain 1
        ["-d"; IPNet_String (PeerAddr peerInfo); "-j"; "ACCEPT"]])%list ∧
  (clientsOf server i !! extPeerKey = None →
   ∀ s, clientsOf s (AddIngressRoutingRule server extPeerKey peerInfo i).2
        = clientsOf s i).
Proof.
  intros Hparse. unfold AddIngressRoutingRule.
  rewrite bind_eq, FetchRuleTable_ingress. cbn [fst snd]. rewrite Hparse.
  fold (clientFor prefix).
  destruct (clientsOf server i !! extPeerKey) as [cfg|] eqn:Hcfg;
    cbn [default from_option id zeroRulesCfg rulesMap].
  - destruct (rulesMap cfg); run; rewrite SaveRules_ingress; by cbn.
  - run. rewrite SaveRules_ingress. cbn [fst snd calls]. split; [done|].
    intros _ s. unfold clientsOf at 1. cbn [ingRules].
    destruct (decide (server = s)) as [->|Hne].
    + by rewrite lookup_insert_eq.
    + by rewrite lookup_insert_ne.
Qed.

(** X8. For a recorded client and a parsed address, [AddIngressRoutingRule]
    returns nil and records the one-rule group under the peer's key,
    replacing a group recorded there; the other groups of the client, the
    flag of its entry, the other clients and the other servers stay as they
    were. *)
Theorem AddIngressRoutingRule_records
    (server extPeerKey : string) (peerInfo : PeerExtInfo) (prefix : Prefix)
    (cfg : rulesCfg) (m : gmap string (list ruleInfo)) (i : iptablesManager) :
  ParsePrefix (IPNet_String (PeerAddr peerInfo)) = inl prefix →
  clientsOf server i !! extPeerKey = Some cfg →
  rulesMap cfg = Some m →
  (AddIngressRoutingRule server extPeerKey peerInfo i).1 = Returned None ∧
  groupOf server extPeerKey (PeerKey peerInfo)
    (AddIngressRoutingRule server extPeerKey peerInfo i).2
  = Some [acceptRule ["-d"; IPNet_String (PeerAddr peerInfo); "-j"; "ACCEPT"]] ∧
  (∀ key, key ≠ PeerKey peerInfo →
     groupOf server extPeerKey key
       (AddIngressRoutingRule server extPeerKey peerInfo i).2
     = m !! key) ∧
  isIpv4 <$> clientsOf server
               (AddIngressRoutingRule server extPeerKey peerInfo i).2 !! extPeerKey
  = Some (isIpv4 cfg) ∧
  (∀ key, key ≠ extPeerKey →
     clientsOf server (AddIngressRoutingRule server extPeerKey peerInfo i).2 !! key
     = clientsOf server i !! key) ∧
  (∀ s, s ≠ server →
     clientsOf s (AddIngressRoutingRule server extPeerKey peerInfo i).2
     = clientsOf s i).
Proof.
  intros Hparse Hcfg Hm.
  destruct (AddIngressRoutingRule_run server extPeerKey peerInfo prefix cfg m i
              Hparse Hcfg Hm) as (Hres & _ & Hing). cbn zeta in Hres, Hing.
  assert (Hentry :
    clientsOf server (AddIngressRoutingRule server extPeerKey peerInfo i).2
      !! extPeerKey
    = Some (RulesCfg (isIpv4 cfg)
              (Some (<[PeerKey peerInfo :=
                         [acceptRule ["-d"; IPNet_String (PeerAddr peerInfo);
                                      "-j"; "ACCEPT"]]]> m)))).
  { unfold clientsOf. rewrite Hing, lookup_insert_eq. cbn.
    by rewrite lookup_insert_eq. }
  split_and!.
  - done.
  - unfold groupOf. rewrite Hentry. cbn. by rewrite lookup_insert_eq.
  - intros key Hkey. unfold groupOf. rewrite Hentry. cbn.
    by rewrite lookup_insert_ne.
  - by rewrite Hentry.
  - intros key Hkey. unfold clientsOf at 1. rewrite Hing, lookup_insert_eq. cbn.
    by rewrite lookup_insert_ne.
  - intros s Hs. unfold clientsOf at 1. rewrite Hing.
    by rewrite lookup_insert_ne.
Qed.

(** X9. Under a table name other than the ingress table, [FetchRuleTable] answers
    the nil table and [SaveRules] does nothing: both removal methods return
    the not-found error of the client and leave the manager as it was. *)
Theorem foreign_table_name_not_found
    (server ruletableName srcPeerKey dstPeerKey : string) (i : iptablesManager) :
  ruletableName ≠ ingressTable →
  RemoveRoutingRules server ruletableName srcPeerKey i
  = (Some ("peer not found in rule table: " +:+ srcPeerKey), i) ∧
  DeleteRoutingRule server ruletableName srcPeerKey dstPeerKey i
  = (Some ("peer not found in rule table: " +:+ srcPeerKey), i).
Proof.
  intros Hname.
  assert (Hfetch : FetchRuleTable server ruletableName i = (∅, i)).
  { unfold FetchRuleTable. by rewrite decide_False. }
  assert (Hsave : ∀ t, SaveRules server ruletableName t i = ((), i)).
  { intros t. unfold SaveRules. by rewrite decide_False. }
  split.
  - unfold RemoveRoutingRules. rewrite bind_eq, Hfetch. cbn [fst snd].
    rewrite lookup_empty. run. by rewrite Hsave.
  - unfold DeleteRoutingRule. rewrite bind_eq, Hfetch. cbn [fst snd].
    rewrite lookup_empty. run. by rewrite Hsave.
Qed.

End Recording.

(** ** [CleanRoutingRules] *)

Section CleaningProperties.
Context `{Actuator, Settings, MapRange, TableRange}.

Lemma removal_dropped (iptablesClient : IPT.Protocol) (r : ruleInfo) :
  makesCalls (_ ← invoke (IPT.DeleteIfExists iptablesClient (table r) (chain r) (rule r));
              mret ())
             [deleteCall iptablesClient r].
Proof.
  apply (makesCalls_bind _ _ [deleteCall iptablesClient r] []).
  - apply makesCalls_invoke.
  - intros _. apply makesCalls_ret.
Qed.

Lemma flat_map_singleton {A B} (f : A → B) (l : list A) :
  flat_map (λ x, [f x]) l = map f l.
Proof. induction l as [|x l IH]; cbn; by rewrite ?IH. Qed.

Lemma length_flat_map_Permutation {A} (f : A → list IPT.call) (l1 l2 : list A) :
  l1 ≡ₚ l2 → length (flat_map f l1) = length (flat_map f l2).
Proof.
  induction 1 as [|x l l' _ IH|x y l|l l' l'' _ IH1 _ IH2]; cbn;
    rewrite ?length_app; lia.
Qed.

Lemma cleanCalls_length (ruleTable : ruletable) :
  length (cleanCalls ruleTable) = ruleTotal ruleTable.
Proof.
  unfold cleanCalls, ruleTotal.
  rewrite (length_flat_map_Permutation _ _ _ (rangeClients_perm ruleTable)).
  induction (map_to_list ruleTable) as [|entry l IH]; [done|].
  cbn [flat_map fmap list_fmap sum_list]. rewrite length_app, IH. f_equal.
  rewrite (length_flat_map_Permutation _ _ _ (range_perm _)).
  induction (map_to_list (default ∅ (rulesMap entry.2))) as [|g gs IHg]; [done|].
  cbn [flat_map fmap list_fmap concat]. by rewrite !length_app, length_map, IHg.
Qed.

(** X10. [CleanRoutingRules] makes one removal call for every rule recorded for
    the server, on the client of the flag of the rule's entry, whatever the
    calls answer, and leaves the rule table exactly as it was: the entries it
    cleaned from the firewall stay recorded. *)
Theorem CleanRoutingRules_removes_all_keeps_table
    (server : string) (i : iptablesManager) :
  calls (CleanRoutingRules server ingressTable i).2
  = (calls i ++ cleanCalls (clientsOf server i))%list ∧
  length (cleanCalls (clientsOf server i)) = ruleTotal (clientsOf server i) ∧
  Forall (λ c, IPT.is_delete c = true) (cleanCalls (clientsOf server i)) ∧
  ingRules (CleanRoutingRules server ingressTable i).2 = ingRules i.
Proof.
  assert (Hclean : makesCalls
            (for_each (rangeClients (clientsOf server i)) (λ entry,
               for_each (range (default ∅ (rulesMap entry.2))) (λ group,
                 for_each group.2 (λ r,
                   _ ← invoke (IPT.DeleteIfExists
                                 (if negb (isIpv4 entry.2) then ipv6Client else ipv4Client)
                                 (table r) (chain r) (rule r));
                   mret ()))))
            (cleanCalls (clientsOf server i))).
  { unfold cleanCalls. apply makesCalls_for_each. intros entry.
    apply makesCalls_for_each. intros group.
    rewrite <- flat_map_singleton. apply makesCalls_for_each.
    intros r. apply removal_dropped. }
  unfold CleanRoutingRules.
  rewrite bind_eq, FetchRuleTable_ingress. cbn [fst snd].
  destruct (Hclean i) as (Hcalls & _ & Hrules).
  split_and!; [exact Hcalls | apply cleanCalls_length | | exact Hrules].
  unfold cleanCalls. apply Forall_forall. intros c Hc.
  apply list_elem_of_In, in_flat_map in Hc as (entry & _ & Hc).
  apply in_flat_map in Hc as (group & _ & Hc).
  apply in_map_iff in Hc as (r & <- & _). done.
Qed.

End CleaningProperties.

(** ** The firewall model: chains under inserts and removals *)

Section NetfilterChains.
Import Netfilter.
Local Open Scope list_scope.

Implicit Types (cs : chains) (key : string * string).

Lemma lookup_insert_rule_eq (proto : IPT.Protocol) (table chain : string)
    (r : list string) cs :
  effect (IPT.Insert proto table chain 1 r) cs !! (table, chain)
  = (λ l, r :: l) <$> cs !! (table, chain).
Proof.
  cbn. destruct (cs !! (table, chain)) as [l|] eqn:Hl; cbn.
  - rewrite bool_decide_true by lia. by rewrite lookup_insert_eq.
  - by rewrite Hl.
Qed.

Lemma lookup_insert_rule_ne (proto : IPT.Protocol) (table chain : string)
    (pos : nat) (r : list string) cs key :
  key ≠ (table, chain) →
  effect (IPT.Insert proto table chain pos r) cs !! key = cs !! key.
Proof.
  intros Hne. cbn. destruct (cs !! (table, chain)); [|done].
  case_bool_decide; [|done]. by rewrite lookup_insert_ne.
Qed.

(** After the inserts of [rs], every chain holds its rules among [rs] in
    front, the last inserted first, then the rules it held. *)
Lemma run_inserts_lookup (proto : IPT.Protocol) (rs : list ruleInfo) cs key :
  run_calls (map (insertCall proto) rs) cs !! key
  = (λ l, rev (specsAt key rs) ++ l)%list <$> cs !! key.
Proof.
  unfold run_calls. revert cs. induction rs as [|r rs IH]; intros cs.
  - cbn. by destruct (cs !! key).
  - cbn [map foldl]. rewrite IH. unfold specsAt, insertCall.
    destruct (decide ((table r, chain r) = key)) as [<-|Hne].
    + rewrite filter_cons_True by done. rewrite lookup_insert_rule_eq.
      destruct (cs !! (table r, chain r)); [|done]. cbn.
      by rewrite <- (assoc_L (++)).
    + rewrite filter_cons_False by done. by rewrite lookup_insert_rule_ne.
Qed.

(** After the removals of [rs], every chain has lost, for each of its rules
    among [rs] in turn, the first equal rule it held. *)
Lemma run_deletes_lookup (proto : IPT.Protocol) (rs : list ruleInfo) cs key :
  run_calls (map (deleteCall proto) rs) cs !! key
  = (λ l, foldl (λ l s, delete_first s l) l (specsAt key rs)) <$> cs !! key.
Proof.
  unfold run_calls. revert cs. induction rs as [|r rs IH]; intros cs.
  - cbn. by destruct (cs !! key).
  - cbn [map foldl]. rewrite IH. unfold specsAt, deleteCall.
    destruct (decide ((table r, chain r) = key)) as [<-|Hne].
    + rewrite filter_cons_True by done. rewrite lookup_delete_rule_eq.
      by destruct (cs !! (table r, chain r)).
    + rewrite filter_cons_False by done. by rewrite lookup_delete_rule_ne.
Qed.

Lemma delete_first_app_front (s : list string) (front l : list (list string)) :
  s ∈ front → delete_first s (front ++ l) = delete_first s front ++ l.
Proof.
  induction front as [|x front IH]; intros Hin; [by apply elem_of_nil in Hin|].
  cbn. destruct (decide (x = s)); [done|].
  apply elem_of_cons in Hin as [->|Hin]; [done|]. by rewrite IH.
Qed.

(** Removing, one by one and in any order, the rules put in front of a chain
    gives the chain back. *)
Lemma delete_front_rules (dels front l : list (list string)) :
  front ≡ₚ dels → foldl (λ l s, delete_first s l) (front ++ l) dels = l.
Proof.
  revert front. induction dels as [|d dels IH]; intros front Hperm.
  - apply Permutation_nil_r in Hperm. by subst front.
  - cbn [foldl]. assert (Hin : d ∈ front) by (rewrite Hperm; by left).
    rewrite delete_first_app_front by done. apply IH.
    apply (Permutation_cons_inv (a := d)).
    rewrite delete_first_cons_Permutation by done. done.
Qed.

Lemma specsAt_Permutation key (rs rs' : list ruleInfo) :
  rs ≡ₚ rs' → specsAt key rs ≡ₚ specsAt key rs'.
Proof. intros Hperm. unfold specsAt. by rewrite Hperm. Qed.

(** Inserts followed by the removals of the same rules, in any order, leave
    the chains of the protocol as they were. *)
Lemma inserts_then_deletes (proto : IPT.Protocol) (ins dels : list ruleInfo) cs :
  ins ≡ₚ dels →
  run_calls (map (insertCall proto) ins ++ map (deleteCall proto) dels) cs = cs.
Proof.
  intros Hperm. apply map_eq. intros key.
  unfold run_calls. rewrite foldl_app.
  fold (run_calls (map (insertCall proto) ins) cs).
  fold (run_calls (map (deleteCall proto) dels)
          (run_calls (map (insertCall proto) ins) cs)).
  rewrite run_deletes_lookup, run_inserts_lookup.
  destruct (cs !! key) as [l|]; [|done]. cbn. f_equal.
  apply delete_front_rules.
  rewrite <- Permutation_rev. by apply specsAt_Permutation.
Qed.

Lemma filter_proto_same (proto : IPT.Protocol) (f : ruleInfo → IPT.call)
    (rs : list ruleInfo) :
  (∀ r, protoOf (f r) = proto) →
  filter (λ c, protoOf c = proto) (map f rs) = map f rs.
Proof.
  intros Hf. induction rs as [|r rs IH]; [done|].
  cbn [map]. rewrite filter_cons_True by apply Hf. by rewrite IH.
Qed.

Lemma filter_proto_other (proto proto' : IPT.Protocol) (f : ruleInfo → IPT.call)
    (rs : list ruleInfo) :
  proto' ≠ proto →
  (∀ r, protoOf (f r) = proto') →
  filter (λ c, protoOf c = proto) (map f rs) = [].
Proof.
  intros Hne Hf. induction rs as [|r rs IH]; [done|].
  cbn [map]. rewrite filter_cons_False by (rewrite Hf; done). exact IH.
Qed.

(** On the whole engine: the calls reach the chains of their protocol only. *)
Lemma exec_inserts_then_deletes (proto : IPT.Protocol) (ins dels : list ruleInfo)
    (s : state) :
  ins ≡ₚ dels →
  exec (map (insertCall proto) ins ++ map (deleteCall proto) dels) s = s.
Proof.
  intros Hperm. apply state_eq. intros p. rewrite sel_exec, filter_app.
  destruct (decide (p = proto)) as [->|Hne].
  - rewrite !filter_proto_same by done. by apply inserts_then_deletes.
  - rewrite !(filter_proto_other p proto) by done. done.
Qed.

End NetfilterChains.

(** ** Inserted rules and recorded rules *)

Section Bookkeeping.
Context `{Actuator, Netip, Settings, MapRange}.
Local Open Scope list_scope.

Lemma concat_Permutation {A} (l1 l2 : list (list A)) :
  l1 ≡ₚ l2 → concat l1 ≡ₚ concat l2.
Proof.
  induction 1 as [|x l l' _ IH|x y l|l l' l'' _ IH1 _ IH2]; cbn.
  - done.
  - by rewrite IH.
  - rewrite !(assoc_L (++)). by rewrite (Permutation_app_comm y x).
  - by rewrite IH1.
Qed.

Lemma rules_of_insert_fresh (key : string) (rules : list ruleInfo)
    (m : gmap string (list ruleInfo)) :
  m !! key = None →
  concat (map_to_list (<[key := rules]> m)).*2
  ≡ₚ rules ++ concat (map_to_list m).*2.
Proof.
  intros Hnone.
  rewrite (concat_Permutation _ (((key, rules) :: map_to_list m).*2)); [done|].
  apply fmap_Permutation. by apply map_to_list_insert.
Qed.

(** Appending to the group of a key, recorded or not, adds the appended
    rules to the recorded ones. *)
Lemma rules_of_insert_append (key : string) (extra : list ruleInfo)
    (m : gmap string (list ruleInfo)) :
  concat (map_to_list (<[key := default [] (m !! key) ++ extra]> m)).*2
  ≡ₚ concat (map_to_list m).*2 ++ extra.
Proof.
  destruct (m !! key) as [g|] eqn:Hg; cbn [default from_option id].
  - rewrite <- (insert_delete_eq m key (g ++ extra)).
    rewrite rules_of_insert_fresh by apply lookup_delete_eq.
    rewrite <- (insert_delete_id m key g Hg) at 2.
    rewrite rules_of_insert_fresh by apply lookup_delete_eq.
    rewrite <- !(assoc_L (++)). apply Permutation_app_head, Permutation_app_comm.
  - rewrite rules_of_insert_fresh by done. cbn. apply Permutation_app_comm.
Qed.

Lemma recordedPeers_rules (addr : string) (peers : list PeerExtInfo)
    (m : gmap string (list ruleInfo)) :
  NoDup (PeerKey <$> filter (λ q, Allow q = true) peers) →
  (∀ q, q ∈ filter (λ q, Allow q = true) peers → m !! PeerKey q = None) →
  concat (map_to_list (recordedPeers addr peers m)).*2
  ≡ₚ concat (map_to_list m).*2 ++
     map (λ q, acceptRule ["-s"; addr; "-d"; IPNet_String (PeerAddr q); "-j"; "ACCEPT"])
         (filter (λ q, Allow q = true) peers).
Proof.
  revert m. induction peers as [|p rest IH]; intros m Hnodup Hfresh.
  - cbn. by rewrite app_nil_r.
  - cbn [recordedPeers]. destruct (Allow p) eqn:Hallow.
    + rewrite filter_cons_True in Hnodup, Hfresh |- * by done.
      cbn [fmap list_fmap map] in Hnodup |- *.
      apply NoDup_cons in Hnodup as [Hnotin Hnodup].
      rewrite IH; [|done|].
      * rewrite rules_of_insert_fresh by (apply Hfresh; left).
        cbn [app]. by rewrite <- Permutation_middle.
      * intros q Hq. rewrite lookup_insert_ne.
        -- apply Hfresh. by right.
        -- intros Heq. apply Hnotin. rewrite Heq. by apply list_elem_of_fmap_2.
    + rewrite filter_cons_False in Hnodup, Hfresh |- * by (rewrite Hallow; done).
      by apply IH.
Qed.

Lemma recorded_rules_Permutation (extinfo : ExtClientInfo) :
  NoDup (PeerKey <$> filter (λ q, Allow q = true) (Peers extinfo)) →
  rulesInRange (recordedGroups extinfo) ≡ₚ insertedRules extinfo.
Proof.
  intros Hnodup. unfold rulesInRange.
  rewrite (concat_Permutation _ ((map_to_list (recordedGroups extinfo)).*2))
    by apply fmap_Permutation, range_perm.
  unfold recordedGroups, insertedRules. cbn zeta.
  pose proof (recordedPeers_rules (IPNet_String (ExtPeerAddr extinfo))
                (Peers extinfo) ∅ Hnodup (λ q _, lookup_empty _)) as Hpeers.
  rewrite map_to_list_empty in Hpeers. cbn [fmap list_fmap concat app] in Hpeers.
  destruct (Masquerade extinfo).
  - rewrite (rules_of_insert_append (ExtPeerKey extinfo)
               [masqueradeRule ["-s"; IPNet_String (ExtPeerAddr extinfo); "-o";
                                "netmaker"; "-j"; "MASQUERADE"];
                masqueradeRule ["-d"; IPNet_String (ExtPeerAddr extinfo); "-o";
                                "netmaker"; "-j"; "MASQUERADE"]]).
    by rewrite Hpeers.
  - by rewrite app_nil_r.
Qed.


Lemma insert_calls_of_rules (iptablesClient : IPT.Protocol) (extinfo : ExtClientInfo) :
  peerInsertCalls iptablesClient extinfo ++ natInsertCalls iptablesClient extinfo
  = map (insertCall iptablesClient) (insertedRules extinfo).
Proof.
  unfold peerInsertCalls, natInsertCalls, insertedRules. cbn zeta.
  rewrite map_app, map_map. f_equal. by destruct (Masquerade extinfo).
Qed.

Lemma insertPeerRules_backend (iptablesClient : IPT.Protocol) (addr : string)
    (peers : list PeerExtInfo) (m : gmap string (list ruleInfo))
    (i : iptablesManager) :
  backend (insertPeerRules iptablesClient addr peers m i).2
  = execAll (map (λ q, IPT.Insert iptablesClient defaultIpTable netmakerFilterChain 1
                         ["-s"; addr; "-d"; IPNet_String (PeerAddr q); "-j"; "ACCEPT"])
                 (filter (λ q, Allow q = true) peers))
            (backend i).
Proof.
  revert m i. induction peers as [|p rest IH]; intros m i; [done|].
  cbn [insertPeerRules]. destruct (Allow p) eqn:Hallow; cbn [negb].
  - rewrite filter_cons_True by done. rewrite bind_eq, invoke_eq. cbn [fst snd].
    by rewrite IH.
  - rewrite filter_cons_False by (rewrite Hallow; done). apply IH.
Qed.

(** The firewall after [InsertIngressRoutingRules] is the firewall after
    the insert calls of the inserted rules. *)
Lemma InsertIngressRoutingRules_backend (server : string) (extinfo : ExtClientInfo)
    (prefix : Prefix) (i : iptablesManager) :
  ParsePrefix (IPNet_String (ExtPeerAddr extinfo)) = inl prefix →
  backend (InsertIngressRoutingRules server extinfo i).2
  = execAll (map (insertCall (clientFor prefix)) (insertedRules extinfo)) (backend i).
Proof.
  intros Hparse. unfold InsertIngressRoutingRules.
  rewrite bind_eq, FetchRuleTable_ingress. cbn [fst snd]. rewrite Hparse.
  fold (clientFor prefix).
  pose proof (insertPeerRules_backend (clientFor prefix)
                (IPNet_String (ExtPeerAddr extinfo)) (Peers extinfo) ∅ i) as Hb.
  unfold insertedRules. cbn zeta. rewrite map_app, map_map.
  unfold execAll in *. rewrite foldl_app.
  destruct (Masquerade extinfo); cbn [negb].
  - run. rewrite !SaveRules_ingress. cbn [fst snd backend]. by rewrite Hb.
  - run. rewrite !SaveRules_ingress. cbn [fst snd backend]. by rewrite Hb.
Qed.

Lemma deleteRules_backend (iptablesClient : IPT.Protocol) (peerKey : string)
    (rules : list ruleInfo) (i : iptablesManager) :
  removalsSucceed →
  backend (deleteRules iptablesClient peerKey rules i).2
  = execAll (map (deleteCall iptablesClient) rules) (backend i).
Proof.
  intros Hok. revert i. induction rules as [|r rest IH]; intros i; [done|].
  cbn [deleteRules]. rewrite bind_eq, invoke_eq. cbn [fst snd].
  rewrite (Hok (IPT.DeleteIfExists iptablesClient (table r) (chain r) (rule r)))
    by done.
  by rewrite IH.
Qed.

Lemma deleteGroups_backend (iptablesClient : IPT.Protocol) (peerKey : string)
    (groups : list (string * list ruleInfo)) (i : iptablesManager) :
  removalsSucceed →
  backend (deleteGroups iptablesClient peerKey groups i).2
  = execAll (map (deleteCall iptablesClient) (concat groups.*2)) (backend i).
Proof.
  intros Hok. revert i. induction groups as [|[k rules] rest IH]; intros i; [done|].
  cbn [deleteGroups fmap list_fmap snd concat]. rewrite bind_eq.
  destruct (deleteRules_run iptablesClient peerKey rules i Hok) as (D1 & _ & _).
  rewrite D1, IH, deleteRules_backend by done.
  unfold execAll. by rewrite map_app, foldl_app.
Qed.

Lemma RemoveRoutingRules_backend (server peerKey : string) (cfg : rulesCfg)
    (i : iptablesManager) :
  removalsSucceed →
  clientsOf server i !! peerKey = Some cfg →
  backend (RemoveRoutingRules server ingressTable peerKey i).2
  = execAll (map (deleteCall (if isIpv4 cfg then ipv4Client else ipv6Client))
                 (rulesInRange (default ∅ (rulesMap cfg))))
            (backend i).
Proof.
  intros Hok Hcfg. unfold RemoveRoutingRules.
  rewrite bind_eq, FetchRuleTable_ingress. cbn [fst snd]. rewrite Hcfg.
  destruct (deleteGroups_run (if isIpv4 cfg then ipv4Client else ipv6Client)
              peerKey (range (default ∅ (rulesMap cfg))) i Hok) as (G1 & _ & _).
  run. rewrite G1. run. rewrite SaveRules_ingress. cbn [fst snd backend].
  by apply deleteGroups_backend.
Qed.

End Bookkeeping.

Section RoundTrip.
Context `{Netip, Settings, MapRange}.
#[local] Existing Instance Netfilter.actuator.
Import Netfilter.

(** X12. On the firewall model, for every state of the firewall: authorizing a
    client whose allowed peers have pairwise distinct keys and then removing
    it returns nil, leaves no entry for the client, and leaves the firewall
    exactly as it was before the authorization, rule for rule and in the same
    order. *)
Theorem authorize_then_remove_restores_firewall
    (server : string) (extinfo : ExtClientInfo) (prefix : Prefix)
    (i : iptablesManager) :
  ParsePrefix (IPNet_String (ExtPeerAddr extinfo)) = inl prefix →
  NoDup (PeerKey <$> filter (λ q, Allow q = true) (Peers extinfo)) →
  (RemoveRoutingRules server ingressTable (ExtPeerKey extinfo)
     (InsertIngressRoutingRules server extinfo i).2).1 = None ∧
  clientsOf server
    (RemoveRoutingRules server ingressTable (ExtPeerKey extinfo)
       (InsertIngressRoutingRules server extinfo i).2).2
    !! ExtPeerKey extinfo = None ∧
  backend
    (RemoveRoutingRules server ingressTable (ExtPeerKey extinfo)
       (InsertIngressRoutingRules server extinfo i).2).2
  = backend i.
Proof.
  intros Hparse Hnodup.
  destruct (InsertIngressRoutingRules_run server extinfo prefix i Hparse)
    as (_ & _ & Hing). cbn zeta in Hing.
  assert (Hentry :
    clientsOf server (InsertIngressRoutingRules server extinfo i).2
      !! ExtPeerKey extinfo
    = Some (RulesCfg (negb (Unmap_Is6 prefix)) (Some (recordedGroups extinfo)))).
  { unfold clientsOf. rewrite Hing, lookup_insert_eq. cbn.
    by rewrite lookup_insert_eq. }
  clear Hing.
  pose proof (InsertIngressRoutingRules_backend server extinfo prefix i Hparse) as Hb1.
  set (i1 := (InsertIngressRoutingRules server extinfo i).2) in *.
  destruct (RemoveRoutingRules_run server (ExtPeerKey extinfo) _ i1
              netfilter_removalsSucceed Hentry) as (R1 & _ & R3).
  pose proof (RemoveRoutingRules_backend server (ExtPeerKey extinfo) _ i1
                netfilter_removalsSucceed Hentry) as Hb2.
  cbn [isIpv4 rulesMap default from_option id] in Hb2.
  assert (Hcli : (if negb (Unmap_Is6 prefix) then ipv4Client else ipv6Client)
                 = clientFor prefix).
  { unfold clientFor. by destruct (Unmap_Is6 prefix). }
  rewrite Hcli in Hb2.
  split_and!; [done| |].
  - unfold clientsOf at 1. rewrite R3, lookup_insert_eq. cbn.
    by rewrite lookup_delete_eq.
  - rewrite Hb2, Hb1.
    change (exec (map (deleteCall (clientFor prefix))
                      (rulesInRange (recordedGroups extinfo)))
                 (exec (map (insertCall (clientFor prefix)) (insertedRules extinfo))
                       (backend i)) = backend i).
    rewrite <- exec_app. apply exec_inserts_then_deletes.
    symmetry. by apply recorded_rules_Permutation.
Qed.

End RoundTrip.

(** ** Chains on the firewall model *)

Section NetfilterManager.
Context `{Netip, Settings, MapRange}.
#[local] Existing Instance Netfilter.actuator.
Import Netfilter.
Local Open Scope list_scope.

Ltac other_chain :=
  solve [ assumption
        | let Heq := fresh in intros Heq; vm_compute in Heq; discriminate Heq ].

Ltac peel :=
  repeat first
    [ rewrite lookup_append_eq | rewrite lookup_append_ne by other_chain
    | rewrite lookup_new_chain_eq | rewrite lookup_new_chain_ne by other_chain
    | rewrite lookup_clear_eq | rewrite lookup_clear_ne by other_chain
    | rewrite lookup_delete_rule_eq | rewrite lookup_delete_rule_ne by other_chain ].

(** X13. On the firewall model [createChain] returns nil; a missing chain is
    created empty, an existing chain keeps its rules, and nothing else
    changes: no other chain of the protocol, and no chain of the other
    protocol. *)
Theorem createChain_ensures_chain
    (proto : IPT.Protocol) (table newChain : string) (i : iptablesManager) :
  (createChain proto table newChain i).1 = None ∧
  sel proto (backend (createChain proto table newChain i).2) !! (table, newChain)
  = Some (default [] (sel proto (backend i) !! (table, newChain))) ∧
  (∀ key, key ≠ (table, newChain) →
     sel proto (backend (createChain proto table newChain i).2) !! key
     = sel proto (backend i) !! key) ∧
  (∀ proto', proto' ≠ proto →
     sel proto' (backend (createChain proto table newChain i).2)
     = sel proto' (backend i)).
Proof.
  destruct (createChain_netfilter proto table newChain i) as [Hres Hb].
  rewrite Hb. unfold exec. cbn [foldl]. split_and!; [done| | |].
  - rewrite sel_step, decide_True by done. apply lookup_new_chain_eq.
  - intros key Hkey. rewrite sel_step, decide_True by done.
    by apply lookup_new_chain_ne.
  - intros proto' Hne. rewrite sel_step, decide_False; [done|].
    cbn. congruence.
Qed.

(** X14. On the firewall model [CreateChains] resets the two custom chains to
    their static rules, whatever they held, rules of authorized clients
    included, while the rule table keeps recording those rules. *)
Theorem CreateChains_resets_custom_chains (i : iptablesManager) (proto : IPT.Protocol) :
  sel proto (backend (CreateChains i).2) !! (defaultIpTable, netmakerFilterChain)
  = Some [["-i"; GetInterfaceName; "-j"; "DROP"];
          ["-i"; GetInterfaceName; "-j"; "RETURN"]] ∧
  sel proto (backend (CreateChains i).2) !! (defaultNatTable, netmakerNatChain)
  = Some [["-j"; "RETURN"]] ∧
  ingRules (CreateChains i).2 = ingRules i.
Proof.
  destruct (CreateChains_netfilter i) as [_ Hb]. rewrite Hb.
  rewrite bootstrapped_filter_chain, bootstrapped_nat_chain.
  split_and!; [done|done|]. apply CreateChains_shape.
Qed.

Lemma flushCalls_of_proto (proto : IPT.Protocol) :
  filter (λ c, protoOf c = proto) (removeJumpCalls ++ cleanupCalls)
  = flushEffects proto.
Proof. by destruct proto. Qed.

Lemma FlushAll_netfilter (i : iptablesManager) (proto : IPT.Protocol) :
  sel proto (backend (FlushAll i).2)
  = run_calls (flushEffects proto) (sel proto (backend i)).
Proof.
  destruct (FlushAll_calls i) as (_ & Hb & _). rewrite Hb.
  change (sel proto (exec (removeJumpCalls ++ cleanupCalls) (backend i))
          = run_calls (flushEffects proto) (sel proto (backend i))).
  by rewrite sel_exec, flushCalls_of_proto.
Qed.

(** X15. On the firewall model, after [FlushAll] the two custom chains hold no
    rule (they are deleted, or only cleared while a rule still jumps to
    them), each built-in chain has lost one copy of its jump rule, and every
    other chain is as before. *)
Theorem FlushAll_empties_custom_chains (i : iptablesManager) (proto : IPT.Protocol) :
  default [] (sel proto (backend (FlushAll i).2)
                !! (defaultIpTable, netmakerFilterChain)) = [] ∧
  default [] (sel proto (backend (FlushAll i).2)
                !! (defaultNatTable, netmakerNatChain)) = [] ∧
  sel proto (backend (FlushAll i).2) !! (defaultIpTable, iptableFWDChain)
  = delete_first ["-i"; GetInterfaceName; "-j"; netmakerFilterChain]
      <$> sel proto (backend i) !! (defaultIpTable, iptableFWDChain) ∧
  sel proto (backend (FlushAll i).2) !! (defaultNatTable, nattablePRTChain)
  = delete_first ["-o"; GetInterfaceName; "-j"; netmakerNatChain]
      <$> sel proto (backend i) !! (defaultNatTable, nattablePRTChain) ∧
  (∀ key, key ≠ (defaultIpTable, netmakerFilterChain) →
          key ≠ (defaultNatTable, netmakerNatChain) →
          key ≠ (defaultIpTable, iptableFWDChain) →
          key ≠ (defaultNatTable, nattablePRTChain) →
          sel proto (backend (FlushAll i).2) !! key = sel proto (backend i) !! key).
Proof.
  rewrite FlushAll_netfilter.
  unfold flushEffects, run_calls, filterNmJumpRules, natNmJumpRules, deleteCall.
  cbn [map app foldl table chain rule].
  split_and!.
  - peel. reflexivity.
  - peel. reflexivity.
  - peel. reflexivity.
  - peel. reflexivity.
  - intros key ? ? ? ?. peel. reflexivity.
Qed.

(** X16. On the firewall model, [InsertIngressRoutingRules] puts the rules of the
    client in front of the rules their chains held, the last inserted first:
    the accept rules come before every earlier rule of the filter chain, the
    drop and return rules at its end included.  The chains of the other
    protocol are not touched. *)
Theorem InsertIngressRoutingRules_puts_rules_first
    (server : string) (extinfo : ExtClientInfo) (prefix : Prefix)
    (i : iptablesManager) :
  ParsePrefix (IPNet_String (ExtPeerAddr extinfo)) = inl prefix →
  (∀ key,
     sel (clientFor prefix) (backend (InsertIngressRoutingRules server extinfo i).2)
       !! key
     = (λ l, rev (specsAt key (insertedRules extinfo)) ++ l)
         <$> sel (clientFor prefix) (backend i) !! key) ∧
  (∀ proto, proto ≠ clientFor prefix →
     sel proto (backend (InsertIngressRoutingRules server extinfo i).2)
     = sel proto (backend i)).
Proof.
  intros Hparse.
  rewrite (InsertIngressRoutingRules_backend server extinfo prefix i Hparse).
  change (execAll (map (insertCall (clientFor prefix)) (insertedRules extinfo))
                  (backend i))
    with (exec (map (insertCall (clientFor prefix)) (insertedRules extinfo))
               (backend i)).
  split.
  - intros key. rewrite sel_exec, filter_proto_same by done.
    apply run_inserts_lookup.
  - intros proto Hne. rewrite sel_exec.
    by rewrite (filter_proto_other proto (clientFor prefix)).
Qed.

End NetfilterManager.

(** ** One pairing on the firewall model *)

Section PairingBackend.
Context `{Actuator, Netip, Settings, MapRange}.

Lemma DeleteRoutingRule_backend (server srcPeerKey dstPeerKey : string)
    (cfg : rulesCfg) (rules : list ruleInfo) (i : iptablesManager) :
  removalsSucceed →
  clientsOf server i !! srcPeerKey = Some cfg →
  groupOf server srcPeerKey dstPeerKey i = Some rules →
  backend (DeleteRoutingRule server ingressTable srcPeerKey dstPeerKey i).2
  = execAll (map (deleteCall (if isIpv4 cfg then ipv4Client else ipv6Client)) rules)
            (backend i).
Proof.
  intros Hok Hcfg Hgroup.
  assert (Hm : default ∅ (rulesMap cfg) !! dstPeerKey = Some rules).
  { apply groupOf_Some in Hgroup as (cfg' & m & Hcfg' & Hm & Hg).
    rewrite Hcfg in Hcfg'. injection Hcfg' as <-. by rewrite Hm. }
  unfold DeleteRoutingRule.
  rewrite bind_eq, FetchRuleTable_ingress. cbn [fst snd]. rewrite Hcfg, Hm.
  run. rewrite SaveRules_ingress. cbn [fst snd backend].
  by apply deleteRules_backend.
Qed.

Lemma DeleteRoutingRule_succeeds (server srcPeerKey dstPeerKey : string)
    (cfg : rulesCfg) (rules : list ruleInfo) (i : iptablesManager) :
  removalsSucceed →
  clientsOf server i !! srcPeerKey = Some cfg →
  groupOf server srcPeerKey dstPeerKey i = Some rules →
  (DeleteRoutingRule server ingressTable srcPeerKey dstPeerKey i).1 = None.
Proof.
  intros Hok Hcfg Hgroup.
  assert (Hm : default ∅ (rulesMap cfg) !! dstPeerKey = Some rules).
  { apply groupOf_Some in Hgroup as (cfg' & m & Hcfg' & Hm & Hg).
    rewrite Hcfg in Hcfg'. injection Hcfg' as <-. by rewrite Hm. }
  unfold DeleteRoutingRule.
  rewrite bind_eq, FetchRuleTable_ingress. cbn [fst snd]. rewrite Hcfg, Hm.
  destruct (deleteRules_run (if isIpv4 cfg then ipv4Client else ipv6Client)
              srcPeerKey rules i Hok) as (D1 & _). by run.
Qed.

Lemma AddIngressRoutingRule_backend (server extPeerKey : string)
    (peerInfo : PeerExtInfo) (prefix : Prefix) (i : iptablesManager) :
  ParsePrefix (IPNet_String (PeerAddr peerInfo)) = inl prefix →
  backend (AddIngressRoutingRule server extPeerKey peerInfo i).2
  = execAll [insertCall (clientFor prefix)
               (acceptRule ["-d"; IPNet_String (PeerAddr peerInfo); "-j"; "ACCEPT"])]
            (backend i).
Proof.
  intros Hparse. unfold AddIngressRoutingRule.
  rewrite bind_eq, FetchRuleTable_ingress. cbn [fst snd]. rewrite Hparse.
  fold (clientFor prefix).
  destruct (rulesMap (default zeroRulesCfg (clientsOf server i !! extPeerKey)));
    run; rewrite SaveRules_ingress; reflexivity.
Qed.

End PairingBackend.

Section PairingRoundTrip.
Context `{Netip, Settings, MapRange}.
#[local] Existing Instance Netfilter.actuator.
Import Netfilter.
Local Open Scope list_scope.

(** X17. On the firewall model, [DeleteRoutingRule] for a recorded pairing removes
    from each chain, for each rule of the pairing in turn, the first equal
    rule, on the client of the entry's flag; it changes nothing on the other
    protocol. *)
Theorem DeleteRoutingRule_removes_from_chains
    (server srcPeerKey dstPeerKey : string) (cfg : rulesCfg)
    (rules : list ruleInfo) (i : iptablesManager) :
  clientsOf server i !! srcPeerKey = Some cfg →
  groupOf server srcPeerKey dstPeerKey i = Some rules →
  (∀ key,
     sel (if isIpv4 cfg then ipv4Client else ipv6Client)
         (backend (DeleteRoutingRule server ingressTable srcPeerKey dstPeerKey i).2)
       !! key
     = (λ l, foldl (λ l s, delete_first s l) l (specsAt key rules))
         <$> sel (if isIpv4 cfg then ipv4Client else ipv6Client) (backend i) !! key) ∧
  (∀ proto, proto ≠ (if isIpv4 cfg then ipv4Client else ipv6Client) →
     sel proto (backend (DeleteRoutingRule server ingressTable srcPeerKey dstPeerKey i).2)
     = sel proto (backend i)).
Proof.
  intros Hcfg Hgroup.
  rewrite (DeleteRoutingRule_backend server srcPeerKey dstPeerKey cfg rules i
             netfilter_removalsSucceed Hcfg Hgroup).
  set (cli := if isIpv4 cfg then ipv4Client else ipv6Client).
  change (execAll (map (deleteCall cli) rules) (backend i))
    with (exec (map (deleteCall cli) rules) (backend i)).
  split.
  - intros key. rewrite sel_exec, filter_proto_same by done.
    apply run_deletes_lookup.
  - intros proto Hne. rewrite sel_exec.
    by rewrite (filter_proto_other proto cli).
Qed.

(** X18. On the firewall model, when the family of the peer's address is the
    family of the client's entry, adding a pairing with
    [AddIngressRoutingRule] and removing it with [DeleteRoutingRule] leaves
    the firewall exactly as it was. *)
Theorem add_then_delete_restores_firewall
    (server extPeerKey : string) (peerInfo : PeerExtInfo) (prefix : Prefix)
    (cfg : rulesCfg) (m : gmap string (list ruleInfo)) (i : iptablesManager) :
  ParsePrefix (IPNet_String (PeerAddr peerInfo)) = inl prefix →
  clientsOf server i !! extPeerKey = Some cfg →
  rulesMap cfg = Some m →
  isIpv4 cfg = negb (Unmap_Is6 prefix) →
  (DeleteRoutingRule server ingressTable extPeerKey (PeerKey peerInfo)
     (AddIngressRoutingRule server extPeerKey peerInfo i).2).1 = None ∧
  backend
    (DeleteRoutingRule server ingressTable extPeerKey (PeerKey peerInfo)
       (AddIngressRoutingRule server extPeerKey peerInfo i).2).2
  = backend i.
Proof.
  intros Hparse Hcfg Hm Hfam.
  destruct (AddIngressRoutingRule_run server extPeerKey peerInfo prefix cfg m i
              Hparse Hcfg Hm) as (_ & _ & Hing). cbn zeta in Hing.
  pose proof (AddIngressRoutingRule_backend server extPeerKey peerInfo prefix i Hparse)
    as Hb1.
  set (i1 := (AddIngressRoutingRule server extPeerKey peerInfo i).2) in *.
  set (cfg1 := RulesCfg (isIpv4 cfg)
                 (Some (<[PeerKey peerInfo :=
                            [acceptRule ["-d"; IPNet_String (PeerAddr peerInfo);
                                         "-j"; "ACCEPT"]]]> m))).
  assert (Hcfg1 : clientsOf server i1 !! extPeerKey = Some cfg1).
  { unfold clientsOf. rewrite Hing, lookup_insert_eq. cbn.
    by rewrite lookup_insert_eq. }
  assert (Hgroup : groupOf server extPeerKey (PeerKey peerInfo) i1
            = Some [acceptRule ["-d"; IPNet_String (PeerAddr peerInfo); "-j"; "ACCEPT"]]).
  { unfold groupOf. rewrite Hcfg1. cbn. by rewrite lookup_insert_eq. }
  assert (Hflag : isIpv4 cfg1 = isIpv4 cfg) by done.
  clearbody cfg1. clear Hing.
  split; [by apply (DeleteRoutingRule_succeeds server extPeerKey (PeerKey peerInfo)
                      cfg1 _ i1 netfilter_removalsSucceed Hcfg1 Hgroup)|].
  rewrite (DeleteRoutingRule_backend server extPeerKey (PeerKey peerInfo) cfg1 _ i1
             netfilter_removalsSucceed Hcfg1 Hgroup), Hb1.
  assert (Hcli : (if isIpv4 cfg1 then ipv4Client else ipv6Client) = clientFor prefix).
  { rewrite Hflag, Hfam. unfold clientFor. by destruct (Unmap_Is6 prefix). }
  rewrite Hcli.
  exact (exec_inserts_then_deletes (clientFor prefix)
           [acceptRule ["-d"; IPNet_String (PeerAddr peerInfo); "-j"; "ACCEPT"]]
           [acceptRule ["-d"; IPNet_String (PeerAddr peerInfo); "-j"; "ACCEPT"]]
           (backend i) (reflexivity _)).
Qed.

End PairingRoundTrip.

(** ** Bootstrap and teardown on the firewall model *)

Section Teardown.
Context `{Settings}.
#[local] Existing Instance Netfilter.actuator.
Import Netfilter.
Local Open Scope list_scope.

Implicit Types (cs : chains) (key : string * string).

Ltac other_chain :=
  solve [ assumption
        | let Heq := fresh in intros Heq; vm_compute in Heq; discriminate Heq ].

Ltac peel :=
  repeat first
    [ rewrite lookup_append_eq | rewrite lookup_append_ne by other_chain
    | rewrite lookup_new_chain_eq | rewrite lookup_new_chain_ne by other_chain
    | rewrite lookup_clear_eq | rewrite lookup_clear_ne by other_chain
    | rewrite lookup_delete_rule_eq | rewrite lookup_delete_rule_ne by other_chain ].

Lemma referenced_false (table chain : string) cs :
  referenced table chain cs = false ↔
  ∀ key l r, cs !! key = Some l → key.1 = table → r ∈ l → jumps_to chain r = false.
Proof.
  unfold referenced. split.
  - intros Hex [t c] l r Hl Ht Hr. cbn in Ht. subst t.
    destruct (jumps_to chain r) eqn:Hj; [|done].
    assert (Htrue : existsb (λ kv, bool_decide (kv.1.1 = table)
                                   && existsb (jumps_to chain) kv.2)
                      (map_to_list cs) = true); [|congruence].
    apply existsb_exists. exists ((table, c), l). split.
    + apply list_elem_of_In. by apply elem_of_map_to_list.
    + cbn. rewrite bool_decide_true by done. cbn.
      apply existsb_exists. exists r. split; [by apply list_elem_of_In|done].
  - intros Hall. apply not_true_is_false. intros Hex.
    apply existsb_exists in Hex as ([[t c] l] & Hin & Hb). cbn in Hb.
    apply andb_true_iff in Hb as [Ht Hl].
    apply bool_decide_eq_true in Ht. subst t.
    apply existsb_exists in Hl as (r & Hr & Hj).
    apply list_elem_of_In, elem_of_map_to_list in Hin.
    rewrite (Hall (table, c) l r Hin eq_refl) in Hj; [done|].
    by apply list_elem_of_In.
Qed.

Lemma lookup_clear_unreferenced (proto : IPT.Protocol) (table chain : string) cs :
  referenced table chain (flushed table chain cs) = false →
  effect (IPT.ClearAndDeleteChain proto table chain) cs !! (table, chain) = None.
Proof.
  intros Href. cbn. destruct (cs !! (table, chain)) eqn:Hl.
  - rewrite Href. apply lookup_delete_eq.
  - done.
Qed.

Lemma run_calls_app (l1 l2 : list IPT.call) cs :
  run_calls (l1 ++ l2) cs = run_calls l2 (run_calls l1 cs).
Proof. unfold run_calls. apply foldl_app. Qed.

Lemma delete_first_head (r : list string) (l : list (list string)) :
  delete_first r (r :: l) = l.
Proof. cbn. by rewrite decide_True. Qed.

Lemma delete_first_notin (r : list string) (l : list (list string)) :
  r ∉ l → delete_first r l = l.
Proof.
  induction l as [|x l IH]; intros Hnotin; [done|]. cbn.
  apply not_elem_of_cons in Hnotin as [Hne Hnotin].
  rewrite decide_False by done. by rewrite IH.
Qed.

Lemma delete_first_readded (r : list string) (l : list (list string)) :
  r ∉ l → delete_first r (delete_first r l ++ [r]) = l.
Proof.
  intros Hnotin. rewrite (delete_first_notin r l) by done.
  induction l as [|x l IH]; cbn.
  - by rewrite decide_True.
  - apply not_elem_of_cons in Hnotin as [Hne Hnotin].
    rewrite decide_False by done. by rewrite IH.
Qed.

Lemma jump_rule_jumps (flag target : string) :
  jumps_to target [flag; GetInterfaceName; "-j"; target] = true.
Proof.
  cbn. rewrite (bool_decide_true ("-j" = "-j")) by done.
  rewrite (bool_decide_true (Some target = Some target)) by done.
  cbn. by rewrite !orb_true_r.
Qed.

(** The state of a protocol between the removals of [FlushAll] and its two
    clearings, after a bootstrap of a state without netmaker: the custom
    chains are empty, every other chain is as before the bootstrap. *)
Lemma flush_removals_after_bootstrap (proto : IPT.Protocol) cs key :
  withoutNetmaker cs →
  run_calls (map (deleteCall proto) (filterNmJumpRules ++ natNmJumpRules))
            (bootstrapped proto cs) !! key
  = if decide (key = (defaultIpTable, netmakerFilterChain)) then Some []
    else if decide (key = (defaultNatTable, netmakerNatChain)) then Some []
    else cs !! key.
Proof.
  intros (_ & _ & Hf & Hn).
  pose proof (bootstrapped_filter_chain proto cs) as Bf.
  pose proof (bootstrapped_nat_chain proto cs) as Bn.
  pose proof (bootstrapped_forward proto cs) as BF.
  pose proof (bootstrapped_postrouting proto cs) as BP.
  pose proof (bootstrapped_other proto cs) as Bo.
  remember (bootstrapped proto cs) as B eqn:HB. clear HB.
  unfold run_calls at 1.
  unfold filterNmJumpRules, natNmJumpRules, deleteCall.
  cbn [map app foldl table chain rule].
  destruct (decide (key = (defaultIpTable, netmakerFilterChain))) as [->|?].
  { peel. rewrite Bf. cbn [fmap option_fmap option_map].
    by rewrite !delete_first_head. }
  destruct (decide (key = (defaultNatTable, netmakerNatChain))) as [->|?].
  { peel. rewrite Bn. cbn [fmap option_fmap option_map].
    by rewrite !delete_first_head. }
  destruct (decide (key = (defaultIpTable, iptableFWDChain))) as [->|?].
  { peel. rewrite BF.
    destruct (cs !! (defaultIpTable, iptableFWDChain)) as [l|] eqn:Hl; [|done].
    cbn. f_equal. apply delete_first_readded. intros Hin.
    pose proof (proj1 (referenced_false _ _ _) Hf _ _ _ Hl eq_refl Hin) as Hj.
    by rewrite jump_rule_jumps in Hj. }
  destruct (decide (key = (defaultNatTable, nattablePRTChain))) as [->|?].
  { peel. rewrite BP.
    destruct (cs !! (defaultNatTable, nattablePRTChain)) as [l|] eqn:Hl; [|done].
    cbn. f_equal. apply delete_first_readded. intros Hin.
    pose proof (proj1 (referenced_false _ _ _) Hn _ _ _ Hl eq_refl Hin) as Hj.
    by rewrite jump_rule_jumps in Hj. }
  peel. by apply Bo.
Qed.

(** The two clearings of [FlushAll] on a state whose custom chains are empty
    and whose other chains are those of a state without netmaker. *)
Lemma clearings_restore (proto : IPT.Protocol) cs (X : chains) :
  withoutNetmaker cs →
  (∀ key, X !! key
          = if decide (key = (defaultIpTable, netmakerFilterChain)) then Some []
            else if decide (key = (defaultNatTable, netmakerNatChain)) then Some []
            else cs !! key) →
  run_calls [IPT.ClearAndDeleteChain proto defaultIpTable netmakerFilterChain;
             IPT.ClearAndDeleteChain proto defaultNatTable netmakerNatChain] X
  = cs.
Proof.
  intros (Hkf & Hkn & Hf & Hn) HX.
  change (effect (IPT.ClearAndDeleteChain proto defaultNatTable netmakerNatChain)
            (effect (IPT.ClearAndDeleteChain proto defaultIpTable netmakerFilterChain) X)
          = cs).
  assert (Href1 : referenced defaultIpTable netmakerFilterChain
                    (flushed defaultIpTable netmakerFilterChain X) = false).
  { apply referenced_false. intros key l r Hl Ht Hr. unfold flushed in Hl.
    destruct (decide (key = (defaultIpTable, netmakerFilterChain))) as [->|Hne].
    - rewrite lookup_insert_eq in Hl. injection Hl as <-.
      by apply elem_of_nil in Hr.
    - rewrite lookup_insert_ne, HX in Hl by done.
      rewrite decide_False in Hl by done.
      case_decide.
      + injection Hl as <-. by apply elem_of_nil in Hr.
      + by apply (proj1 (referenced_false _ _ _) Hf key l r). }
  set (Y := effect (IPT.ClearAndDeleteChain proto defaultIpTable netmakerFilterChain) X).
  assert (HY : ∀ key, Y !! key
             = if decide (key = (defaultIpTable, netmakerFilterChain)) then None
               else if decide (key = (defaultNatTable, netmakerNatChain)) then Some []
               else cs !! key).
  { intros key. unfold Y. case_decide as Hk.
    - subst key. by apply lookup_clear_unreferenced.
    - rewrite lookup_clear_ne by done. rewrite HX. by rewrite decide_False. }
  clearbody Y.
  assert (Href2 : referenced defaultNatTable netmakerNatChain
                    (flushed defaultNatTable netmakerNatChain Y) = false).
  { apply referenced_false. intros key l r Hl Ht Hr. unfold flushed in Hl.
    destruct (decide (key = (defaultNatTable, netmakerNatChain))) as [->|Hne].
    - rewrite lookup_insert_eq in Hl. injection Hl as <-.
      by apply elem_of_nil in Hr.
    - rewrite lookup_insert_ne, HY in Hl by done.
      case_decide; [done|]. rewrite decide_False in Hl by done.
      by apply (proj1 (referenced_false _ _ _) Hn key l r). }
  apply map_eq. intros key.
  destruct (decide (key = (defaultNatTable, netmakerNatChain))) as [->|Hne].
  - rewrite lookup_clear_unreferenced by done. by rewrite Hkn.
  - rewrite lookup_clear_ne by done. rewrite HY.
    case_decide as Hk; [subst key; by rewrite Hkf|]. by rewrite decide_False.
Qed.

(** A bootstrap followed by a teardown gives back a state without netmaker. *)
Lemma bootstrap_then_flush (proto : IPT.Protocol) cs :
  withoutNetmaker cs →
  run_calls (flushEffects proto) (bootstrapped proto cs) = cs.
Proof.
  intros Hclean. unfold flushEffects.
  rewrite (run_calls_app
             (map (deleteCall proto) (filterNmJumpRules ++ natNmJumpRules))
             [IPT.ClearAndDeleteChain proto defaultIpTable netmakerFilterChain;
              IPT.ClearAndDeleteChain proto defaultNatTable netmakerNatChain]).
  apply clearings_restore; [done|].
  intros key. by apply flush_removals_after_bootstrap.
Qed.

(** X19. On the firewall model, from a firewall that knows nothing of netmaker
    (no custom chain, no rule jumping to one), [CreateChains] followed by
    [FlushAll] leaves the firewall exactly as it was: the teardown undoes the
    bootstrap. *)
Theorem bootstrap_then_teardown_restores_firewall (i : iptablesManager) :
  (∀ proto, withoutNetmaker (sel proto (backend i))) →
  (CreateChains i).1 = None ∧
  backend (FlushAll (CreateChains i).2).2 = backend i.
Proof.
  intros Hclean. destruct (CreateChains_netfilter i) as [Hres Hb].
  split; [done|]. apply state_eq. intros proto.
  rewrite FlushAll_netfilter, Hb. by apply bootstrap_then_flush.
Qed.

End Teardown.

(** ** The further theorems at concrete inputs *)

Section FurtherExamples.
#[local] Existing Instance Netfilter.actuator.
#[local] Existing Instance textual.
#[local] Existing Instance netmaker_settings.
#[local] Existing Instance sorted_range.
#[local] Existing Instance sorted_clients.
Import Netfilter.

Lemma createChain_creates_missing_only_witness :
  IPT.err (act (IPT.ListChains ipv4Client "filter") (backend freshManager)).1 = None ∧
  calls (createChain ipv4Client "filter" "netmakerfilter" freshManager).2
  = [IPT.ListChains ipv4Client "filter";
     IPT.NewChain ipv4Client "filter" "netmakerfilter"] ∧
  (createChain ipv4Client "filter" "netmakerfilter" freshManager).1 = None.
Proof.
  split; [reflexivity|].
  destruct (createChain_creates_missing_only ipv4Client "filter" "netmakerfilter"
              freshManager eq_refl) as (Hcalls & Hres & _).
  split.
  - rewrite Hcalls. vm_compute. reflexivity.
  - rewrite Hres. vm_compute. reflexivity.
Defined.

Lemma RemoveRoutingRules_nil_return_witness :
  (RemoveRoutingRules "server1" "ingress" "clientC" authorizedOnce).1 = None ∧
  clientsOf "server1"
    (RemoveRoutingRules "server1" "ingress" "clientC" authorizedOnce).2
  = delete "clientC" (clientsOf "server1" authorizedOnce).
Proof.
  assert (Hres : (RemoveRoutingRules "server1" "ingress" "clientC" authorizedOnce).1
                 = None) by (vm_compute; reflexivity).
  split; [exact Hres|].
  destruct (RemoveRoutingRules_nil_return "server1" "clientC" authorizedOnce Hres)
    as (cfg & _ & _ & Hentries & _).
  exact Hentries.
Defined.

Lemma InsertIngressRoutingRules_replaces_entry_witness :
  ParsePrefix (IPNet_String (ExtPeerAddr mixedClient)) = inl false ∧
  clientsOf "server1" (InsertIngressRoutingRules "server1" mixedClient authorizedOnce).2
    !! "clientC"
  = Some (RulesCfg true (Some (recordedGroups mixedClient))).
Proof.
  split; [reflexivity|].
  destruct (InsertIngressRoutingRules_replaces_entry "server1" mixedClient false
              authorizedOnce eq_refl) as (Hentry & _).
  exact Hentry.
Defined.

Lemma AddIngressRoutingRule_inserts_first_witness :
  ParsePrefix (IPNet_String (PeerAddr v6Peer)) = inl true ∧
  clientsOf "server1" freshManager !! "clientC" = None ∧
  calls (AddIngressRoutingRule "server1" "clientC" v6Peer freshManager).2
  = [IPT.Insert ipv6Client defaultIpTable netmakerFilterChain 1
       ["-d"; "fd00::7/128"; "-j"; "ACCEPT"]] ∧
  clientsOf "server1" (AddIngressRoutingRule "server1" "clientC" v6Peer freshManager).2
  = clientsOf "server1" freshManager.
Proof.
  split; [reflexivity|]. split; [reflexivity|].
  destruct (AddIngressRoutingRule_inserts_first "server1" "clientC" v6Peer true
              freshManager eq_refl) as (Hcalls & Hsame).
  split; [exact Hcalls | exact (Hsame eq_refl "server1")].
Defined.

Lemma AddIngressRoutingRule_records_witness :
  ParsePrefix (IPNet_String (PeerAddr peerZ)) = inl false ∧
  clientsOf "server1" authorizedOnce !! "clientC"
  = Some (RulesCfg true (Some (recordedGroups twoPeerClient))) ∧
  groupOf "server1" "clientC" "peerZ"
    (AddIngressRoutingRule "server1" "clientC" peerZ authorizedOnce).2
  = Some [acceptRule ["-d"; "10.0.0.9/32"; "-j"; "ACCEPT"]] ∧
  groupOf "server1" "clientC" "peerA"
    (AddIngressRoutingRule "server1" "clientC" peerZ authorizedOnce).2
  = recordedGroups twoPeerClient !! "peerA".
Proof.
  assert (Hcfg : clientsOf "server1" authorizedOnce !! "clientC"
                 = Some (RulesCfg true (Some (recordedGroups twoPeerClient))))
    by (vm_compute; reflexivity).
  split; [reflexivity|]. split; [exact Hcfg|].
  destruct (AddIngressRoutingRule_records "server1" "clientC" peerZ false _ _
              authorizedOnce eq_refl Hcfg eq_refl) as (_ & Hnew & Hold & _).
  split; [exact Hnew|]. apply Hold. discriminate.
Defined.

Lemma foreign_table_name_not_found_witness :
  "egress" ≠ ingressTable ∧
  RemoveRoutingRules "server1" "egress" "clientC" authorizedOnce
  = (Some "peer not found in rule table: clientC", authorizedOnce).
Proof.
  assert (Hname : "egress" ≠ ingressTable) by discriminate.
  split; [exact Hname|].
  destruct (foreign_table_name_not_found "server1" "egress" "clientC" "peerA"
              authorizedOnce Hname) as [Hrem _].
  exact Hrem.
Defined.


Lemma authorize_then_remove_restores_firewall_witness :
  ParsePrefix (IPNet_String (ExtPeerAddr mixedClient)) = inl false ∧
  NoDup (PeerKey <$> filter (λ q, Allow q = true) (Peers mixedClient)) ∧
  backend
    (RemoveRoutingRules "server1" "ingress" "clientC"
       (InsertIngressRoutingRules "server1" mixedClient bootedManager).2).2
  = backend bootedManager.
Proof.
  assert (Hnodup : NoDup (PeerKey <$> filter (λ q, Allow q = true) (Peers mixedClient)))
    by (apply (bool_decide_unpack _); vm_compute; exact I).
  split; [reflexivity|]. split; [exact Hnodup|].
  destruct (authorize_then_remove_restores_firewall "server1" mixedClient false
              bootedManager eq_refl Hnodup) as (_ & _ & Hb).
  exact Hb.
Defined.

Lemma InsertIngressRoutingRules_puts_rules_first_witness :
  ParsePrefix (IPNet_String (ExtPeerAddr twoPeerClient)) = inl false ∧
  sel ipv4Client (backend (InsertIngressRoutingRules "server1" twoPeerClient
                             bootedManager).2)
    !! (defaultIpTable, netmakerFilterChain)
  = (λ l, rev (specsAt (defaultIpTable, netmakerFilterChain)
                 (insertedRules twoPeerClient)) ++ l)%list
      <$> sel ipv4Client (backend bootedManager) !! (defaultIpTable, netmakerFilterChain).
Proof.
  split; [reflexivity|].
  destruct (InsertIngressRoutingRules_puts_rules_first "server1" twoPeerClient false
              bootedManager eq_refl) as (Hfront & _).
  exact (Hfront (defaultIpTable, netmakerFilterChain)).
Defined.

Lemma DeleteRoutingRule_removes_from_chains_witness :
  clientsOf "server1" authorizedOnce !! "clientC"
  = Some (RulesCfg true (Some (recordedGroups twoPeerClient))) ∧
  groupOf "server1" "clientC" "peerA" authorizedOnce = Some [acceptRule acceptA] ∧
  sel ipv6Client
    (backend (DeleteRoutingRule "server1" "ingress" "clientC" "peerA" authorizedOnce).2)
  = sel ipv6Client (backend authorizedOnce).
Proof.
  assert (Hcfg : clientsOf "server1" authorizedOnce !! "clientC"
                 = Some (RulesCfg true (Some (recordedGroups twoPeerClient))))
    by (vm_compute; reflexivity).
  assert (Hgroup : groupOf "server1" "clientC" "peerA" authorizedOnce
                   = Some [acceptRule acceptA])
    by (vm_compute; reflexivity).
  split; [exact Hcfg|]. split; [exact Hgroup|].
  destruct (DeleteRoutingRule_removes_from_chains "server1" "clientC" "peerA" _ _
              authorizedOnce Hcfg Hgroup) as (_ & Hother).
  apply Hother. discriminate.
Defined.

Lemma add_then_delete_restores_firewall_witness :
  ParsePrefix (IPNet_String (PeerAddr peerZ)) = inl false ∧
  clientsOf "server1" authorizedOnce !! "clientC"
  = Some (RulesCfg true (Some (recordedGroups twoPeerClient))) ∧
  backend
    (DeleteRoutingRule "server1" "ingress" "clientC" "peerZ"
       (AddIngressRoutingRule "server1" "clientC" peerZ authorizedOnce).2).2
  = backend authorizedOnce.
Proof.
  assert (Hcfg : clientsOf "server1" authorizedOnce !! "clientC"
                 = Some (RulesCfg true (Some (recordedGroups twoPeerClient))))
    by (vm_compute; reflexivity).
  split; [reflexivity|]. split; [exact Hcfg|].
  destruct (add_then_delete_restores_firewall "server1" "clientC" peerZ false _ _
              authorizedOnce eq_refl Hcfg eq_refl eq_refl) as (_ & Hb).
  exact Hb.
Defined.

Lemma bootstrap_then_teardown_restores_firewall_witness :
  (∀ proto, withoutNetmaker (sel proto (backend freshManager))) ∧
  backend (FlushAll (CreateChains freshManager).2).2 = backend freshManager.
Proof.
  assert (Hclean : ∀ proto, withoutNetmaker (sel proto (backend freshManager)))
    by (intros []; split_and!; vm_compute; reflexivity).
  split; [exact Hclean|].
  destruct (bootstrap_then_teardown_restores_firewall freshManager Hclean) as (_ & Hb).
  exact Hb.
Defined.

(** The whole table of a server with two clients of two families is cleaned
    by calls on both clients of iptables, and stays recorded. *)
Lemma CleanRoutingRules_two_clients :
  calls (CleanRoutingRules "server1" "ingress" twoClients).2
  = (calls twoClients ++
     [IPT.DeleteIfExists ipv4Client defaultNatTable netmakerNatChain masqueradeS;
      IPT.DeleteIfExists ipv4Client defaultNatTable netmakerNatChain masqueradeD;
      IPT.DeleteIfExists ipv4Client defaultIpTable netmakerFilterChain acceptA;
      IPT.DeleteIfExists ipv4Client defaultIpTable netmakerFilterChain acceptB;
      IPT.DeleteIfExists ipv6Client defaultIpTable netmakerFilterChain
        ["-s"; "fd00::5/128"; "-d"; "fd00::7/128"; "-j"; "ACCEPT"]])%list ∧
  ingRules (CleanRoutingRules "server1" "ingress" twoClients).2 = ingRules twoClients.
Proof. split; vm_compute; reflexivity. Qed.

End FurtherExamples.

Section FurtherFailingExamples.
#[local] Existing Instance failing.
#[local] Existing Instance textual.
#[local] Existing Instance netmaker_settings.
#[local] Existing Instance sorted_range.

Lemma createChain_list_failure_witness :
  IPT.err (act (IPT.ListChains ipv4Client "filter") (backend failingManager)).1
  = Some "exit status 4" ∧
  (createChain ipv4Client "filter" "netmakerfilter" failingManager).1
  = Some "couldn't get ipv4 filter table chains, error: exit status 4" ∧
  calls (createChain ipv4Client "filter" "netmakerfilter" failingManager).2
  = [IPT.ListChains ipv4Client "filter"].
Proof.
  split; [reflexivity|].
  destruct (createChain_list_failure ipv4Client "filter" "netmakerfilter"
              "exit status 4" failingManager eq_refl) as (Hres & Hcalls & _).
  split; [exact Hres | exact Hcalls].
Defined.

Lemma RemoveRoutingRules_error_return_witness :
  (RemoveRoutingRules "server1" "ingress" "clientC" authorizedOnFailing).1
  = Some (removalError (masqueradeRule masqueradeS) "clientC" "exit status 4") ∧
  clientsOf "server1"
    (RemoveRoutingRules "server1" "ingress" "clientC" authorizedOnFailing).2
  = clientsOf "server1" authorizedOnFailing.
Proof.
  assert (Hres : (RemoveRoutingRules "server1" "ingress" "clientC" authorizedOnFailing).1
            = Some (removalError (masqueradeRule masqueradeS) "clientC" "exit status 4"))
    by (vm_compute; reflexivity).
  split; [exact Hres|].
  destruct (RemoveRoutingRules_error_return "server1" "clientC" _ authorizedOnFailing
              Hres) as (Hsame & _).
  exact (Hsame "server1").
Defined.

End FurtherFailingExamples.

Section PairingExamples.
#[local] Existing Instance Netfilter.actuator.
#[local] Existing Instance textual.
#[local] Existing Instance netmaker_settings.
#[local] Existing Instance sorted_range.

Lemma DeleteRoutingRule_not_found_witness :
  groupOf "server1" "clientC" "peerZ" authorizedOnce = None ∧
  groupOf "server1" "clientD" "peerA" authorizedOnce = None ∧
  (DeleteRoutingRule "server1" "ingress" "clientC" "peerZ" authorizedOnce).1
  = Some "rules not found for: peerZ" ∧
  (DeleteRoutingRule "server1" "ingress" "clientD" "peerA" authorizedOnce).1
  = Some "peer not found in rule table: clientD".
Proof.
  assert (H1 : groupOf "server1" "clientC" "peerZ" authorizedOnce = None)
    by (vm_compute; reflexivity).
  assert (H2 : groupOf "server1" "clientD" "peerA" authorizedOnce = None)
    by (vm_compute; reflexivity).
  split; [exact H1|]. split; [exact H2|].
  destruct (DeleteRoutingRule_not_found "server1" "clientC" "peerZ" authorizedOnce H1)
    as [R1 _].
  destruct (DeleteRoutingRule_not_found "server1" "clientD" "peerA" authorizedOnce H2)
    as [R2 _].
  split.
  - etransitivity; [exact R1|]. vm_compute. reflexivity.
  - etransitivity; [exact R2|]. vm_compute. reflexivity.
Defined.

End PairingExamples.
